(** * Digitization montage readers and head-frame resolver

    Shallow embedding of [mne/channels/_dig_montage_utils.py]:
    [_transform_to_head_call], [_read_dig_montage_fif] and
    [_read_dig_montage_egi].

    Conventions of the embedding.
    - A Python exception is a value of [exception]; a call that may raise
      returns a [result].  The names the specification gives to failures map
      to the exceptions of the code as follows: [MissingFiducial] is the
      [KeyError] of a failed [fids[...]] subscript in the readers and the
      [ValueError] listing the missing points in the resolver;
      [MalformedInput] is the [KeyError] of a failed lookup in one of the two
      fixed tables; [FrameMismatch] is what [_check_frame] raises.
    - Positions are opaque values of a type [vec3]: no property below depends on
      floating-point arithmetic.  The geometry ([get_ras_to_neuromag_trans],
      [apply_trans]) and the scaling of a coordinate triple are collaborators
      of the module and are taken as parameters.
    - A [dict] keyed by strings is a [gmap string _]; a numpy array of points
      and a Python list of points are both a [list vec3].
    - The in-place update of a [Bunch] is modelled by the value the function
      returns; the state of the argument after a raised exception is not
      modelled. *)

From Stdlib Require Import ZArith.
From stdpp Require Import base decidable option list strings pretty gmap fin_maps.

Open Scope Z_scope.

(** ** Python primitives used by the module *)

Module Py.

(** [str.lower] on the ASCII range. *)
Definition lower_ascii (c : Ascii.ascii) : Ascii.ascii :=
  let n := Ascii.N_of_ascii c in
  if ((65 <=? n) && (n <=? 90))%N then Ascii.ascii_of_N (n + 32) else c.

Fixpoint lower (s : string) : string :=
  match s with
  | EmptyString => EmptyString
  | String c s' => String (lower_ascii c) (lower s')
  end.

(** [str(z)], also ['%s' % z] and ['%d' % z], for an [int]. *)
Definition str_int (z : Z) : string := pretty z.

Fixpoint zeros (n : nat) : string :=
  match n with
  | O => ""
  | S n' => "0" +:+ zeros n'
  end.

(** Left padding of a digit string with ['0'] up to [width]. *)
Definition zfill (width : nat) (digits : string) : string :=
  zeros (width - String.length digits) +:+ digits.

(** ['%03d' % z]: the sign, when there is one, counts in the width. *)
Definition format_03d (z : Z) : string :=
  if decide (z < 0) then "-" +:+ zfill 2 (pretty (Z.abs z))
  else zfill 3 (pretty z).

(** [repr] of a string that holds no quote and no escape. *)
Definition repr_str (s : string) : string := "'" +:+ s +:+ "'".

Fixpoint join (sep : string) (l : list string) : string :=
  match l with
  | [] => ""
  | [x] => x
  | x :: l' => x +:+ sep +:+ join sep l'
  end.

(** [str(l)] for a list of strings. *)
Definition str_list (l : list string) : string :=
  "[" +:+ join ", " (repr_str <$> l) +:+ "]".

(** [enumerate(l)] as a list. *)
Definition enumerate {A} (l : list A) : list (nat * A) :=
  zip (seq 0 (length l)) l.

End Py.

(** ** Exceptions and results *)

Inductive pyval :=
| PyStr (s : string)
| PyInt (z : Z).

Section Montage.

(** A point: three floating-point coordinates, kept opaque. *)
Context {vec3 : Type}.

(** A decoded digitization record, [d] in [for d in dig]:
    [d['kind']], [d['ident']], [d['r']], [d['coord_frame']]. *)
Record DigPoint := mkDigPoint {
  d_kind : Z;
  d_ident : Z;
  d_r : vec3;
  d_coord_frame : Z;
}.

Inductive exception :=
| ValueError (msg : string)
| KeyError (key : pyval)
| IndexError
| FrameMismatch (d : DigPoint).

Inductive result (A : Type) :=
| Ok (a : A)
| Err (e : exception).
Global Arguments Ok {A} a.
Global Arguments Err {A} e.

Global Instance result_ret : MRet result := λ A a, Ok a.
Global Instance result_bind : MBind result := λ A B f m,
  match m with
  | Ok a => f a
  | Err e => Err e
  end.

(** The [Bunch] that replicates the DigMontage structure.  An attribute
    that is [None] is [None] here. *)
Record Bunch := mkBunch {
  nasion : option vec3;
  lpa : option vec3;
  rpa : option vec3;
  hsp : option (list vec3);
  hpi : option (list vec3);
  elp : option (list vec3);
  point_names : option (list string);
  dig_ch_pos : option (gmap string vec3);
  coord_frame : string;
}.

(** [l.index(x)]: position of the first occurrence. *)
Definition index (x : string) (l : list string) : result nat :=
  match list_find (λ y, y = x) l with
  | Some (i, _) => Ok i
  | None => Err (ValueError (Py.repr_str x +:+ " is not in list"))
  end.

(** [a[i]] for a non-negative [i]. *)
Definition getitem {A} (a : list A) (i : nat) : result A :=
  match a !! i with
  | Some x => Ok x
  | None => Err IndexError
  end.

(** The entries of [l] whose position is marked [True] in [mask]. *)
Definition masked {A} (mask : list bool) (l : list A) : list A :=
  snd <$> filter (λ x, mask !! x.1 = Some true) (Py.enumerate l).

(** [a[mask]] for a numpy array and a boolean index: the lengths must
    agree. *)
Definition getitem_mask {A} (a : list A) (mask : list bool) : result (list A) :=
  if decide (length mask = length a) then Ok (masked mask a)
  else Err IndexError.

(** ** The frame resolver *)

Section Resolver.

(** [mne.transforms], not part of this module: the transform derived
    from three landmarks (a call that may raise) and its application to
    one point; [apply_trans] acts on an array row by row. *)
Context {trans : Type}.
Variable get_ras_to_neuromag_trans : vec3 → vec3 → vec3 → result trans.
Variable apply_trans : trans → vec3 → vec3.

Definition missing_points_msg (missing : list string) : string :=
  "The points " +:+ Py.str_list missing +:+
  " are missing, but are needed to transform the points to the MNE " +:+
  "coordinate system. Either add the points, or read the montage with " +:+
  "transform=False.".

(** Lines 29-52: the body of [if any(x is None for x in (nasion, rpa,
    lpa))].  Returns the landmarks and the record with [elp] and
    [point_names] rewritten. *)
Definition fiducials_from_elp (data : Bunch)
  : result (vec3 * vec3 * vec3 * Bunch) :=
  match elp data, point_names data with
  | Some elp0, Some point_names0 =>
      let names := Py.lower <$> point_names0 in
      (* check that all needed points are present *)
      let kinds := ["nasion"; "lpa"; "rpa"] in
      let missing := filter (λ name, name ∉ names) kinds in
      if decide (0 < length missing)%nat then
        Err (ValueError (missing_points_msg missing))
      else
        i ← index "nasion" names; nasion0 ← getitem elp0 i;
        i ← index "lpa" names; lpa0 ← getitem elp0 i;
        i ← index "rpa" names; rpa0 ← getitem elp0 i;
        (* remove fiducials from elp *)
        let mask := replicate (length names) true in
        i ← index "nasion" names; let mask := <[i:=false]> mask in
        i ← index "lpa" names; let mask := <[i:=false]> mask in
        i ← index "rpa" names; let mask := <[i:=false]> mask in
        elp1 ← getitem_mask elp0 mask;
        let point_names1 := masked mask point_names0 in
        Ok (nasion0, lpa0, rpa0,
            mkBunch (nasion data) (lpa data) (rpa data) (hsp data)
              (hpi data) (Some elp1) (Some point_names1)
              (dig_ch_pos data) (coord_frame data))
  | _, _ =>
      Err (ValueError
             "ELP points and names must be specified for transformation.")
  end.

(** Lines 61-63: [for key, val in d.items(): d[key] = apply_trans(t, val)]. *)
Definition transform_dig_ch_pos (t : trans) (d : gmap string vec3)
  : gmap string vec3 :=
  foldl (λ m kv, <[kv.1 := apply_trans t kv.2]> m) d (map_to_list d).

(** Lines 27-52: the landmarks the transform is derived from, and the
    record as it stands at line 54. *)
Definition resolve_landmarks (data : Bunch)
  : result (vec3 * vec3 * vec3 * Bunch) :=
  match nasion data, rpa data, lpa data with
  | Some nasion0, Some rpa0, Some lpa0 => Ok (nasion0, lpa0, rpa0, data)
  | _, _, _ => fiducials_from_elp data
  end.

Definition _transform_to_head_call (data : Bunch) : result Bunch :=
  if decide (coord_frame data = "head") then Ok data (* nothing to do *)
  else
    '(nasion0, lpa0, rpa0, data) ← resolve_landmarks data;
    native_head_t ← get_ras_to_neuromag_trans nasion0 lpa0 rpa0;
    mret (mkBunch
            (Some (apply_trans native_head_t nasion0))
            (Some (apply_trans native_head_t lpa0))
            (Some (apply_trans native_head_t rpa0))
            (fmap (M:=list) (apply_trans native_head_t) <$> hsp data)
            (hpi data)
            (fmap (M:=list) (apply_trans native_head_t) <$> elp data)
            (point_names data)
            (transform_dig_ch_pos native_head_t <$> dig_ch_pos data)
            "head").

End Resolver.

(** [d[key]] for a dict keyed by strings. *)
Definition subscript {A} (d : gmap string A) (key : string) : result A :=
  match d !! key with
  | Some x => Ok x
  | None => Err (KeyError (PyStr key))
  end.

(** [np.array(l) if len(l) else None]. *)
Definition array_or_None {A} (l : list A) : option (list A) :=
  if decide (length l = 0%nat) then None else Some l.

(** A [for] loop whose body may raise: the state is threaded through the
    items from left to right and the first exception ends the loop. *)
Fixpoint for_each {S A} (body : S → A → result S) (st : S) (l : list A)
  : result S :=
  match l with
  | [] => Ok st
  | x :: l' => st' ← body st x; for_each body st' l'
  end.

(** ** The binary-format reader *)

Section FifReader.

(** [mne.io.constants.FIFF], not part of this module: the point kinds
    and the cardinal point identifiers. *)
Variables FIFFV_POINT_CARDINAL FIFFV_POINT_HPI : Z.
Variables FIFFV_POINT_EXTRA FIFFV_POINT_EEG : Z.
Variables FIFFV_POINT_NASION FIFFV_POINT_LPA FIFFV_POINT_RPA : Z.

(** The frame code that a frame name stands for (a table of
    [mne.channels.montage], not part of this module). *)
Variable _str_to_frame : string → Z.

(** A dict display: a later binding of a key replaces an earlier one. *)
Definition _cardinal_ident_mapping : gmap Z string :=
  <[FIFFV_POINT_RPA := "rpa"]>
    (<[FIFFV_POINT_LPA := "lpa"]>
       (<[FIFFV_POINT_NASION := "nasion"]> ∅)).

(** Modelled from the spec: [_check_frame] of [mne.channels.montage] is
    not under src/.  "Each record's declared frame must equal head; any
    mismatch fails with a FrameMismatch error naming the offending
    record." *)
Definition _check_frame (d : DigPoint) (frame_str : string) : result unit :=
  if decide (d_coord_frame d = _str_to_frame frame_str) then Ok ()
  else Err (FrameMismatch d).

(** The local variables of the loop of lines 97-117. *)
Record fif_locals := mkFifLocals {
  fif_hsp : list vec3;
  fif_hpi : list vec3;
  fif_elp : list vec3;
  fif_point_names : list string;
  fif_fids : gmap string vec3;
  fif_dig_ch_pos : gmap string vec3;
}.

Definition fif_init : fif_locals := mkFifLocals [] [] [] [] ∅ ∅.

(** Lines 104-117: the body of [for d in dig]. *)
Definition fif_body (st : fif_locals) (d : DigPoint) : result fif_locals :=
  if decide (d_kind d = FIFFV_POINT_CARDINAL) then
    _ ← _check_frame d "head";
    match _cardinal_ident_mapping !! d_ident d with
    | Some name =>
        Ok (mkFifLocals (fif_hsp st) (fif_hpi st) (fif_elp st)
              (fif_point_names st) (<[name := d_r d]> (fif_fids st))
              (fif_dig_ch_pos st))
    | None => Err (KeyError (PyInt (d_ident d)))
    end
  else if decide (d_kind d = FIFFV_POINT_HPI) then
    _ ← _check_frame d "head";
    Ok (mkFifLocals (fif_hsp st) (fif_hpi st ++ [d_r d])
          (fif_elp st ++ [d_r d])
          (fif_point_names st ++ ["HPI" +:+ Py.format_03d (d_ident d)])
          (fif_fids st) (fif_dig_ch_pos st))
  else if decide (d_kind d = FIFFV_POINT_EXTRA) then
    _ ← _check_frame d "head";
    Ok (mkFifLocals (fif_hsp st ++ [d_r d]) (fif_hpi st) (fif_elp st)
          (fif_point_names st) (fif_fids st) (fif_dig_ch_pos st))
  else if decide (d_kind d = FIFFV_POINT_EEG) then
    _ ← _check_frame d "head";
    Ok (mkFifLocals (fif_hsp st) (fif_hpi st) (fif_elp st)
          (fif_point_names st) (fif_fids st)
          (<["EEG" +:+ Py.format_03d (d_ident d) := d_r d]>
             (fif_dig_ch_pos st)))
  else Ok st.

(** Lines 119-127: the returned [Bunch]; the keyword arguments are
    evaluated from left to right. *)
Definition fif_bunch (st : fif_locals) : result Bunch :=
  nasion0 ← subscript (fif_fids st) "nasion";
  lpa0 ← subscript (fif_fids st) "lpa";
  rpa0 ← subscript (fif_fids st) "rpa";
  Ok (mkBunch (Some nasion0) (Some lpa0) (Some rpa0)
        (array_or_None (fif_hsp st))
        (Some (fif_hpi st))
        (array_or_None (fif_elp st))
        (Some (fif_point_names st))
        (Some (fif_dig_ch_pos st))
        "head").

(** [dig] is what [_read_dig_fif] decoded from the file [fname]; opening
    and decoding the file are outside this module. *)
Definition _read_dig_montage_fif (dig : list DigPoint)
    (_raise_transform_err _all_data_kwargs_are_none : bool)
  : result Bunch :=
  if _raise_transform_err then
    Err (ValueError
      "transform must be True and dev_head_t must be False for FIF dig montage")
  else if negb _all_data_kwargs_are_none then
    Err (ValueError
      "hsp, hpi, elp, point_names, egi must all be None if fif is not None")
  else
    st ← for_each fif_body fif_init dig;
    fif_bunch st.

End FifReader.

(** ** The XML-format reader *)

Section EgiReader.

(** The scale factor and [coordinates *= _scaling]. *)
Context {scalar : Type}.
Variable vec3_mul : vec3 → scalar → vec3.

(** A sensor node [s] after decoding of its six children:
    [s[0].text], [int(s[1].text)], [int(s[2].text)] and the array of
    [float(s[3].text)], [float(s[4].text)], [float(s[5].text)]. *)
Record Sensor := mkSensor {
  s_name : string;
  s_number : Z;
  s_kind : Z;
  s_coordinates : vec3;
}.

Definition fid_name_map : gmap string string :=
  <["Left periauricular point" := "lpa"]>
    (<["Right periauricular point" := "rpa"]>
       (<["Nasion" := "nasion"]> ∅)).

(** The local variables of the loop of lines 144-172. *)
Record egi_locals := mkEgiLocals {
  egi_fids : gmap string vec3;
  egi_dig_ch_pos : gmap string vec3;
}.

Definition egi_init : egi_locals := mkEgiLocals ∅ ∅.

(** A computation that may call [warn] before it returns or raises:
    the warnings issued, in order, and the outcome. *)
Definition warned (A : Type) : Type := (list string * result A)%type.

Definition unknown_sensor_msg (kind : Z) : string :=
  "Unknown sensor type " +:+ Py.str_int kind +:+
  " detected. Skipping sensor...Proceed with caution!".

(** Lines 152-172: the body of [for s in sensors]. *)
Definition egi_body (_scaling : scalar) (st : egi_locals) (s : Sensor)
  : warned egi_locals :=
  let name := s_name s in
  let number := s_number s in
  let kind := s_kind s in
  let coordinates := vec3_mul (s_coordinates s) _scaling in
  (* EEG Channels *)
  if decide (kind = 0) then
    ([], Ok (mkEgiLocals (egi_fids st)
               (<["EEG " +:+ Py.format_03d number := coordinates]>
                  (egi_dig_ch_pos st))))
  (* Reference *)
  else if decide (kind = 1) then
    ([], Ok (mkEgiLocals (egi_fids st)
               (<["EEG " +:+
                  Py.format_03d (Z.of_nat (size (egi_dig_ch_pos st)) + 1)
                  := coordinates]> (egi_dig_ch_pos st))))
  (* Fiducials *)
  else if decide (kind = 2) then
    match fid_name_map !! name with
    | Some fid_name =>
        ([], Ok (mkEgiLocals (<[fid_name := coordinates]> (egi_fids st))
                   (egi_dig_ch_pos st)))
    | None => ([], Err (KeyError (PyStr name)))
    end
  (* Unknown *)
  else ([unknown_sensor_msg kind], Ok st).

Fixpoint egi_loop (_scaling : scalar) (st : egi_locals)
    (sensors : list Sensor) : warned egi_locals :=
  match sensors with
  | [] => ([], Ok st)
  | s :: sensors' =>
      match egi_body _scaling st s with
      | (w, Ok st') =>
          let '(w', r) := egi_loop _scaling st' sensors' in (w ++ w', r)
      | (w, Err e) => (w, Err e)
      end
  end.

(** Lines 174-180: the returned [Bunch]. *)
Definition egi_bunch (st : egi_locals) : result Bunch :=
  nasion0 ← subscript (egi_fids st) "nasion";
  lpa0 ← subscript (egi_fids st) "lpa";
  rpa0 ← subscript (egi_fids st) "rpa";
  Ok (mkBunch (Some nasion0) (Some lpa0) (Some rpa0)
        None None None None (Some (egi_dig_ch_pos st)) "unknown").

(** [sensors] is the content of the [sensorLayout/sensors] element of
    the file [fname]; parsing the file is outside this module. *)
Definition _read_dig_montage_egi (sensors : list Sensor)
    (_scaling : scalar) (_all_data_kwargs_are_none : bool)
  : warned Bunch :=
  if negb _all_data_kwargs_are_none then
    ([], Err (ValueError
      "hsp, hpi, elp, point_names, fif must all be None if egi is not None"))
  else
    match egi_loop _scaling egi_init sensors with
    | (w, Ok st) => (w, egi_bunch st)
    | (w, Err e) => (w, Err e)
    end.

End EgiReader.

End Montage.

(** ** Namespace discovery of the XML-format reader

    Lines 141-143 of [_read_dig_montage_egi]: the namespace is read off
    the tag of the root element and prefixed to the two steps of the path
    of the sensor collection. *)

Section Namespace.

Context {vec3 : Type}.

(** [s.find(sub)]: position of the first occurrence of [sub] in [s]. *)
Fixpoint str_find (sub s : string) : option nat :=
  if String.prefix sub s then Some 0%nat
  else match s with
       | EmptyString => None
       | String _ s' => S <$> str_find sub s'
       end.

(** [s.index(sub)]. *)
Definition str_index (sub s : string) : result (vec3:=vec3) nat :=
  match str_find sub s with
  | Some i => Ok i
  | None => Err (ValueError "substring not found")
  end.

(** [s[i:j]] for non-negative [i] and [j]. *)
Definition slice (s : string) (i j : nat) : string :=
  String.substring i (j - i) s.

(** Line 142: the namespace of the root tag, braces included. *)
Definition namespace_of_tag (tag : string) : result (vec3:=vec3) string :=
  i ← str_index "{" tag;
  j ← str_index "}" tag;
  Ok (slice tag i (j + 1)).

(** Line 143: the path handed to [root.find]. *)
Definition sensors_path (tag : string) : result (vec3:=vec3) string :=
  ns ← namespace_of_tag tag;
  Ok (ns +:+ "sensorLayout/" +:+ ns +:+ "sensors").

End Namespace.

(** ** A concrete instance

    Points with integer coordinates, the point kinds and identifiers as
    [mne.io.constants] numbers them, and stand-ins for the collaborators: a
    translation for the transform, a product by an integer for the scaling.
    The instance serves to run the functions above on concrete inputs. *)

Module Sample.

Definition vec : Type := (Z * Z * Z)%type.

(** Stand-in for the transform: the translation that moves [lpa] to the
    origin; coincident [lpa] and [rpa] are refused. *)
Definition get_trans (nasion0 lpa0 rpa0 : vec) : result (vec3:=vec) vec :=
  if decide (lpa0 = rpa0) then Err (ValueError "coincident landmarks")
  else Ok lpa0.

Definition apply (t p : vec) : vec :=
  (p.1.1 - t.1.1, p.1.2 - t.1.2, p.2 - t.2).

Definition mul (p : vec) (k : Z) : vec := (p.1.1 * k, p.1.2 * k, p.2 * k).

Definition POINT_CARDINAL : Z := 1.
Definition POINT_HPI : Z := 2.
Definition POINT_EEG : Z := 3.
Definition POINT_EXTRA : Z := 4.
Definition POINT_LPA : Z := 1.
Definition POINT_NASION : Z := 2.
Definition POINT_RPA : Z := 3.
Definition COORD_HEAD : Z := 4.
Definition COORD_DEVICE : Z := 1.

Definition str_to_frame (s : string) : Z :=
  if decide (s = "head") then COORD_HEAD else 0.

Definition to_head : Bunch (vec3:=vec) → result Bunch :=
  _transform_to_head_call get_trans apply.

Definition fif_loop : list (DigPoint (vec3:=vec)) → result fif_locals :=
  for_each
    (fif_body POINT_CARDINAL POINT_HPI POINT_EXTRA POINT_EEG
       POINT_NASION POINT_LPA POINT_RPA str_to_frame) fif_init.

Definition read_fif
  : list (DigPoint (vec3:=vec)) → bool → bool → result Bunch :=
  _read_dig_montage_fif POINT_CARDINAL POINT_HPI POINT_EXTRA POINT_EEG
    POINT_NASION POINT_LPA POINT_RPA str_to_frame.

Definition read_egi
  : list (Sensor (vec3:=vec)) → Z → bool → warned Bunch :=
  _read_dig_montage_egi mul.

(** A record in the head frame. *)
Definition in_head : Bunch (vec3:=vec) :=
  mkBunch (Some (0, 1, 0)) (Some (-1, 0, 0)) (Some (1, 0, 0))
    (Some [(0, 0, 1)]) (Some [(2, 2, 2)]) (Some [(2, 2, 2)])
    (Some ["HPI001"]) (Some {["EEG007" := (3, 3, 3)]}) "head".

(** A record whose landmarks are carried by [elp]. *)
Definition carried : Bunch (vec3:=vec) :=
  mkBunch None None None
    (Some [(0, 0, 9)]) (Some [(4, 4, 4)])
    (Some [(5, 6, 5); (4, 5, 5); (6, 5, 5); (4, 4, 4)])
    (Some ["Nasion"; "LPA"; "RPA"; "HPI001"])
    (Some {["EEG 001" := (5, 5, 6)]}) "unknown".

(** The same record with [rpa] alone populated, and without [elp]. *)
Definition partial : Bunch (vec3:=vec) :=
  mkBunch None None (Some (7, 7, 7))
    (Some [(0, 0, 9)]) (Some [(4, 4, 4)])
    (Some [(5, 6, 5); (4, 5, 5); (6, 5, 5); (4, 4, 4)])
    (Some ["Nasion"; "LPA"; "RPA"; "HPI001"])
    (Some {["EEG 001" := (5, 5, 6)]}) "unknown".

Definition partial_no_elp : Bunch (vec3:=vec) :=
  mkBunch None None (Some (7, 7, 7)) None None None
    (Some ["Nasion"; "LPA"; "RPA"]) None "unknown".

(** A record with populated landmarks, in an unknown frame. *)
Definition populated : Bunch (vec3:=vec) :=
  mkBunch (Some (5, 6, 5)) (Some (4, 5, 5)) (Some (6, 5, 5))
    (Some [(0, 0, 9)]) (Some [(4, 4, 4)]) (Some [(4, 4, 4)])
    (Some ["HPI001"]) (Some {["EEG 001" := (5, 5, 6)]}) "unknown".

(** Decoded records: the three cardinal points, an HPI coil, a head-shape
    point and an electrode, all in the head frame. *)
Definition d_nasion : DigPoint (vec3:=vec) :=
  mkDigPoint POINT_CARDINAL POINT_NASION (0, 1, 0) COORD_HEAD.
Definition d_lpa : DigPoint (vec3:=vec) :=
  mkDigPoint POINT_CARDINAL POINT_LPA (-1, 0, 0) COORD_HEAD.
Definition d_rpa : DigPoint (vec3:=vec) :=
  mkDigPoint POINT_CARDINAL POINT_RPA (1, 0, 0) COORD_HEAD.
Definition d_hpi : DigPoint (vec3:=vec) :=
  mkDigPoint POINT_HPI 1 (2, 2, 2) COORD_HEAD.
Definition d_extra : DigPoint (vec3:=vec) :=
  mkDigPoint POINT_EXTRA 1 (0, 0, 1) COORD_HEAD.
Definition d_eeg : DigPoint (vec3:=vec) :=
  mkDigPoint POINT_EEG 7 (3, 3, 3) COORD_HEAD.

(** An electrode declared in the device frame, a record of a kind that is
    none of the four, declared in the device frame, and a cardinal record
    with an ident outside the table. *)
Definition d_eeg_device : DigPoint (vec3:=vec) :=
  mkDigPoint POINT_EEG 8 (3, 3, 4) COORD_DEVICE.
Definition d_stray : DigPoint (vec3:=vec) :=
  mkDigPoint 0 1 (9, 9, 9) COORD_DEVICE.
Definition d_inion : DigPoint (vec3:=vec) :=
  mkDigPoint POINT_CARDINAL 4 (0, -1, 0) COORD_HEAD.

Definition dig_complete : list DigPoint :=
  [d_nasion; d_lpa; d_rpa; d_hpi; d_extra; d_eeg].
Definition dig_cardinal : list DigPoint := [d_nasion; d_lpa; d_rpa].
Definition dig_stray : list DigPoint := [d_nasion; d_lpa; d_rpa; d_stray].

(** Sensors: the three fiducials, an EEG channel numbered 2, a reference
    channel and a sensor of kind 99. *)
Definition s_nasion : Sensor (vec3:=vec) := mkSensor "Nasion" 0 2 (0, 10, 0).
Definition s_lpa : Sensor (vec3:=vec) :=
  mkSensor "Left periauricular point" 0 2 (-10, 0, 0).
Definition s_rpa : Sensor (vec3:=vec) :=
  mkSensor "Right periauricular point" 0 2 (10, 0, 0).
Definition s_eeg2 : Sensor (vec3:=vec) := mkSensor "E2" 2 0 (1, 2, 3).
Definition s_ref : Sensor (vec3:=vec) := mkSensor "Cz" 129 1 (7, 8, 9).
Definition s_odd : Sensor (vec3:=vec) := mkSensor "X" 5 99 (0, 0, 0).

Definition sensors_collide : list Sensor :=
  [s_nasion; s_lpa; s_rpa; s_eeg2; s_ref].
Definition sensors_odd : list Sensor :=
  [s_eeg2; s_nasion; s_odd; s_lpa; s_rpa].

End Sample.

(** ** More concrete inputs *)

Module SampleMore.

(** [Sample.carried] once resolved. *)
Definition carried_in_head : Bunch (vec3:=Sample.vec) :=
  mkBunch (Some (1, 1, 0)) (Some (0, 0, 0)) (Some (2, 0, 0))
    (Some [(-4, -5, 4)]) (Some [(4, 4, 4)]) (Some [(0, -1, -1)])
    (Some ["HPI001"]) (Some {["EEG 001" := (1, 0, 1)]}) "head".

(** [Sample.carried] with an [elp] one entry short. *)
Definition short_elp : Bunch (vec3:=Sample.vec) :=
  mkBunch None None None
    (Some [(0, 0, 9)]) (Some [(4, 4, 4)])
    (Some [(5, 6, 5); (4, 5, 5); (6, 5, 5)])
    (Some ["Nasion"; "LPA"; "RPA"; "HPI001"])
    (Some {["EEG 001" := (5, 5, 6)]}) "unknown".

(** [Sample.carried] with its names in another case. *)
Definition shouted : Bunch (vec3:=Sample.vec) :=
  mkBunch None None None
    (Some [(0, 0, 9)]) (Some [(4, 4, 4)])
    (Some [(5, 6, 5); (4, 5, 5); (6, 5, 5); (4, 4, 4)])
    (Some ["NASION"; "lpa"; "Rpa"; "hpi001"])
    (Some {["EEG 001" := (5, 5, 6)]}) "unknown".

(** A record whose [point_names] hold neither nasion nor rpa. *)
Definition lpa_only : Bunch (vec3:=Sample.vec) :=
  mkBunch None None None None None
    (Some [(4, 5, 5); (4, 4, 4)]) (Some ["LPA"; "HPI001"]) None "unknown".

(** [Sample.carried] with a second entry named nasion, and the record
    once resolved. *)
Definition doubled : Bunch (vec3:=Sample.vec) :=
  mkBunch None None None
    (Some [(0, 0, 9)]) (Some [(4, 4, 4)])
    (Some [(5, 6, 5); (4, 5, 5); (9, 9, 9); (6, 5, 5); (4, 4, 4)])
    (Some ["Nasion"; "LPA"; "nasion"; "RPA"; "HPI001"])
    (Some {["EEG 001" := (5, 5, 6)]}) "unknown".
Definition doubled_in_head : Bunch (vec3:=Sample.vec) :=
  mkBunch (Some (1, 1, 0)) (Some (0, 0, 0)) (Some (2, 0, 0))
    (Some [(-4, -5, 4)]) (Some [(4, 4, 4)]) (Some [(5, 4, 4); (0, -1, -1)])
    (Some ["nasion"; "HPI001"]) (Some {["EEG 001" := (1, 0, 1)]}) "head".

(** What the XML reader returns on [Sample.sensors_collide]. *)
Definition collided : Bunch (vec3:=Sample.vec) :=
  mkBunch (Some (0, 10, 0)) (Some (-10, 0, 0)) (Some (10, 0, 0))
    None None None None (Some {["EEG 002" := (7, 8, 9)]}) "unknown".

(** The three fiducials and two EEG channels, then the reference channel,
    then a sensor of kind 99; and what the XML reader returns on them. *)
Definition s_eeg1 : Sensor (vec3:=Sample.vec) := mkSensor "E1" 1 0 (4, 5, 6).
Definition channels : list (Sensor (vec3:=Sample.vec)) :=
  [Sample.s_nasion; Sample.s_lpa; Sample.s_rpa; s_eeg1; Sample.s_eeg2].
Definition layout : Bunch (vec3:=Sample.vec) :=
  mkBunch (Some (0, 10, 0)) (Some (-10, 0, 0)) (Some (10, 0, 0))
    None None None None
    (Some (<["EEG 003" := (7, 8, 9)]>
             (<["EEG 002" := (1, 2, 3)]> {["EEG 001" := (4, 5, 6)]})))
    "unknown".

(** The sensors of [Sample.sensors_odd] with one more sensor, of kind 7. *)
Definition s_seven : Sensor (vec3:=Sample.vec) := mkSensor "Y" 6 7 (1, 1, 1).
Definition sensors_two_odd : list (Sensor (vec3:=Sample.vec)) :=
  [Sample.s_eeg2; Sample.s_nasion; Sample.s_odd; Sample.s_lpa; s_seven;
   Sample.s_rpa].

(** Two electrodes with different idents after the complete sequence of
    [Sample.dig_complete]. *)
Definition d_eeg9 : DigPoint (vec3:=Sample.vec) :=
  mkDigPoint Sample.POINT_EEG 9 (3, 3, 5) Sample.COORD_HEAD.
Definition dig_two_eeg : list (DigPoint (vec3:=Sample.vec)) :=
  Sample.dig_complete ++ [d_eeg9].

(** The tag of the root element of a sensor layout file. *)
Definition uri : string := "http://www.egi.com/coordinates_mff".
Definition root_tag : string := "{http://www.egi.com/coordinates_mff}coordinates".

End SampleMore.

(** ** Notions used to state the properties *)

(** [i] is the position of the first occurrence of [x] in [l]. *)
Definition first_index (x : string) (l : list string) (i : nat) : Prop :=
  l !! i = Some x ∧ ∀ j, (j < i)%nat → l !! j ≠ Some x.

(** The entries of [l], in their order, whose position is not in [ps]. *)
Definition drop_positions {A} (ps : list nat) (l : list A) : list A :=
  snd <$> filter (λ x, x.1 ∉ ps) (Py.enumerate l).

(** * Properties *)

(** ** Python primitives *)

(** Case analysis along a chain of calls that may raise: [H] states what
    the chain returns. *)
Ltac result_cases H :=
  repeat match type of H with
         | Ok _ = Ok _ => injection H as H; subst
         | Err _ = Err _ => injection H as H; subst
         | Err _ = Ok _ => discriminate H
         | Ok _ = Err _ => discriminate H
         | context [mbind _ ?m] =>
             let E := fresh "E" in destruct m eqn:E; simpl in H
         end.

Lemma append_cons c s t : String c s +:+ t = String c (s +:+ t).
Proof. done. Qed.

Lemma append_nil t : "" +:+ t = t.
Proof. done. Qed.

Lemma length_append s t :
  String.length (s +:+ t) = (String.length s + String.length t)%nat.
Proof.
  induction s as [|c s IH]; [done|]. rewrite append_cons. simpl.
  by rewrite IH.
Qed.

(** A common suffix cancels. *)
Lemma append_inj_r u s1 s2 : s1 +:+ u = s2 +:+ u → s1 = s2.
Proof.
  revert s2. induction s1 as [|c s1 IH]; intros [|c' s2] Heq.
  - done.
  - apply (f_equal String.length) in Heq.
    rewrite append_nil, append_cons in Heq. simpl in Heq.
    rewrite length_append in Heq. lia.
  - apply (f_equal String.length) in Heq.
    rewrite append_nil, append_cons in Heq. simpl in Heq.
    rewrite length_append in Heq. lia.
  - rewrite !append_cons in Heq. injection Heq as -> Heq.
    by rewrite (IH s2 Heq).
Qed.

Section PyFacts.

Context {vec3 : Type}.

Lemma index_first_index x l i :
  index (vec3:=vec3) x l = Ok i → first_index x l i.
Proof.
  unfold index, first_index.
  destruct (list_find _ l) as [[i' y]|] eqn:Hfind; [|discriminate].
  intros [= <-]. apply list_find_Some in Hfind as (Hi & -> & Hbefore).
  split; [done|]. intros j Hj Hx. by eapply Hbefore.
Qed.

Lemma index_elem_of x l :
  x ∈ l → ∃ i, index (vec3:=vec3) x l = Ok i.
Proof.
  intros Hx. unfold index.
  destruct (list_find _ l) as [[i y]|] eqn:Hfind; [by eexists|].
  apply list_find_None in Hfind. rewrite Forall_forall in Hfind.
  by destruct (Hfind x Hx).
Qed.

Lemma filter_iff_elem_of {A} (P1 P2 : A → Prop)
    `{!∀ x, Decision (P1 x), !∀ x, Decision (P2 x)} (l : list A) :
  (∀ x, x ∈ l → P1 x ↔ P2 x) → filter P1 l = filter P2 l.
Proof.
  induction l as [|a l IH]; intros Hiff; [done|].
  rewrite !filter_cons.
  rewrite IH by (intros x Hx; apply Hiff; by right).
  apply decide_ext, Hiff. by left.
Qed.

Lemma enumerate_lookup {A} (l : list A) j x :
  (j, x) ∈ Py.enumerate l → l !! j = Some x.
Proof.
  unfold Py.enumerate. intros Hin.
  apply list_elem_of_lookup in Hin as [k Hk].
  apply lookup_zip_with_Some in Hk as (j' & x' & [= <- <-] & Hj & Hx).
  apply lookup_seq in Hj as [-> _]. done.
Qed.

(** The mask of lines 47-49 selects the positions that were not cleared. *)
Lemma mask_lookup n i1 i2 i3 j :
  (j < n)%nat →
  <[i3:=false]> (<[i2:=false]> (<[i1:=false]> (replicate n true))) !! j
    = Some true ↔ j ∉ [i1; i2; i3].
Proof.
  intros Hj. rewrite !list_lookup_insert_Some, lookup_replicate.
  rewrite !length_insert, length_replicate.
  rewrite !not_elem_of_cons. split.
  - intros [(_ & [=] & _) | (H3 & [(_ & [=] & _) | (H2 & [(_ & [=] & _) | (H1 & _)])])].
    repeat split; try done. by apply not_elem_of_nil.
  - intros (H1 & H2 & H3 & _). right. split; [done|]. right. split; [done|].
    right. done.
Qed.

Lemma masked_drop_positions {A} (l : list A) i1 i2 i3 :
  masked (<[i3:=false]> (<[i2:=false]> (<[i1:=false]>
            (replicate (length l) true)))) l
  = drop_positions [i1; i2; i3] l.
Proof.
  unfold masked, drop_positions. f_equal.
  apply filter_iff_elem_of. intros [j x] Hin. simpl.
  apply mask_lookup. apply enumerate_lookup in Hin.
  by eapply lookup_lt_Some.
Qed.

End PyFacts.

(** ** The frame resolver *)

Section ResolverFacts.

Context {vec3 trans : Type}.
Variable get_ras_to_neuromag_trans : vec3 → vec3 → vec3 → result (vec3:=vec3) trans.
Variable apply_trans : trans → vec3 → vec3.

Abbreviation to_head :=
  (_transform_to_head_call get_ras_to_neuromag_trans apply_trans).

(** The loop over [dig_ch_pos.items()] keeps the keys and transforms
    every value once. *)
Lemma foldl_insert_lookup (f : vec3 → vec3) (l : list (string * vec3))
    (m : gmap string vec3) k :
  NoDup l.*1 →
  foldl (λ m kv, <[kv.1 := f kv.2]> m) m l !! k
  = match (list_to_map l : gmap string vec3) !! k with
    | Some v => Some (f v)
    | None => m !! k
    end.
Proof.
  revert m. induction l as [|[k0 v0] l IH]; intros m Hnd; [done|].
  apply NoDup_cons in Hnd as [Hk0 Hnd]. simpl. rewrite IH by done.
  destruct (decide (k0 = k)) as [->|Hne].
  - rewrite lookup_insert_eq.
    by rewrite (not_elem_of_list_to_map_1 l k), lookup_insert_eq.
  - rewrite (lookup_insert_ne (list_to_map l)) by done.
    destruct (list_to_map l !! k); [done|]. by rewrite lookup_insert_ne.
Qed.

Lemma transform_dig_ch_pos_fmap t (d : gmap string vec3) :
  transform_dig_ch_pos apply_trans t d = apply_trans t <$> d.
Proof.
  apply map_eq. intros k. unfold transform_dig_ch_pos.
  rewrite foldl_insert_lookup by apply NoDup_fst_map_to_list.
  rewrite list_to_map_to_list, lookup_fmap. by destruct (d !! k).
Qed.

Lemma resolve_landmarks_untouched (data data1 : Bunch (vec3:=vec3))
    nasion0 lpa0 rpa0 :
  resolve_landmarks data = Ok (nasion0, lpa0, rpa0, data1) →
  hsp data1 = hsp data ∧ hpi data1 = hpi data ∧
  dig_ch_pos data1 = dig_ch_pos data ∧ coord_frame data1 = coord_frame data.
Proof.
  unfold resolve_landmarks, fiducials_from_elp. intros H.
  repeat case_match; try discriminate; result_cases H; done.
Qed.

Lemma filter_nil_elem_of (names : list string) k :
  filter (λ name, name ∉ names) ["nasion"; "lpa"; "rpa"] = [] →
  k ∈ ["nasion"; "lpa"; "rpa"] → k ∈ names.
Proof.
  intros Hnil Hk. destruct (decide (k ∈ names)) as [|Hnot]; [done|].
  by destruct (filter_nil_not_elem_of _ _ k Hnil Hnot).
Qed.

(** What lines 29-52 compute when the three names are present and [elp]
    is parallel to [point_names]. *)
Lemma fiducials_from_elp_present (data : Bunch (vec3:=vec3)) e pn :
  elp data = Some e → point_names data = Some pn →
  filter (λ name, name ∉ Py.lower <$> pn) ["nasion"; "lpa"; "rpa"] = [] →
  length e = length pn →
  ∃ i_n i_l i_r p_n p_l p_r,
    first_index "nasion" (Py.lower <$> pn) i_n ∧
    first_index "lpa" (Py.lower <$> pn) i_l ∧
    first_index "rpa" (Py.lower <$> pn) i_r ∧
    e !! i_n = Some p_n ∧ e !! i_l = Some p_l ∧ e !! i_r = Some p_r ∧
    fiducials_from_elp data
    = Ok (p_n, p_l, p_r,
          mkBunch (nasion data) (lpa data) (rpa data) (hsp data) (hpi data)
            (Some (drop_positions [i_n; i_l; i_r] e))
            (Some (drop_positions [i_n; i_l; i_r] pn))
            (dig_ch_pos data) (coord_frame data)).
Proof.
  intros He Hpn Hnil Hlen.
  assert (∀ k, k ∈ ["nasion"; "lpa"; "rpa"] →
            ∃ i p, index (vec3:=vec3) k (Py.lower <$> pn) = Ok i ∧
                   first_index k (Py.lower <$> pn) i ∧ e !! i = Some p)
    as Hkind.
  { intros k Hk. apply (filter_nil_elem_of _ _ Hnil) in Hk.
    apply (index_elem_of (vec3:=vec3)) in Hk as [i Hi].
    pose proof (index_first_index _ _ _ Hi) as Hfirst.
    destruct (lookup_lt_is_Some_2 e i) as [p Hp].
    { destruct Hfirst as [Hfirst _]. apply lookup_lt_Some in Hfirst.
      rewrite length_fmap in Hfirst. lia. }
    by exists i, p. }
  destruct (Hkind "nasion") as (i_n & p_n & Hin & Hfn & Hpn'); [set_solver|].
  destruct (Hkind "lpa") as (i_l & p_l & Hil & Hfl & Hpl); [set_solver|].
  destruct (Hkind "rpa") as (i_r & p_r & Hir & Hfr & Hpr); [set_solver|].
  exists i_n, i_l, i_r, p_n, p_l, p_r. repeat (split; [done|]).
  unfold fiducials_from_elp. rewrite He, Hpn, Hnil.
  rewrite decide_False by (simpl; lia).
  rewrite Hin, Hil, Hir. simpl. unfold getitem. rewrite Hpn', Hpl, Hpr. simpl.
  unfold getitem_mask.
  rewrite decide_True by (rewrite !length_insert, length_replicate, length_fmap; lia).
  simpl. rewrite length_fmap. rewrite masked_drop_positions.
  rewrite <- Hlen. by rewrite masked_drop_positions.
Qed.

Lemma fiducials_from_elp_Ok_inv (data data1 : Bunch (vec3:=vec3)) p_n p_l p_r :
  fiducials_from_elp data = Ok (p_n, p_l, p_r, data1) →
  ∃ e pn i_n i_l i_r,
    elp data = Some e ∧ point_names data = Some pn ∧
    length e = length pn ∧
    first_index "nasion" (Py.lower <$> pn) i_n ∧
    first_index "lpa" (Py.lower <$> pn) i_l ∧
    first_index "rpa" (Py.lower <$> pn) i_r ∧
    e !! i_n = Some p_n ∧ e !! i_l = Some p_l ∧ e !! i_r = Some p_r ∧
    data1 = mkBunch (nasion data) (lpa data) (rpa data) (hsp data) (hpi data)
              (Some (drop_positions [i_n; i_l; i_r] e))
              (Some (drop_positions [i_n; i_l; i_r] pn))
              (dig_ch_pos data) (coord_frame data).
Proof.
  intros HOk. pose proof HOk as HOk'. unfold fiducials_from_elp in HOk'.
  destruct (elp data) as [e|] eqn:He; [|discriminate].
  destruct (point_names data) as [pn|] eqn:Hpn; [|discriminate].
  case_decide as Hmiss; [discriminate|].
  assert (filter (λ name, name ∉ Py.lower <$> pn) ["nasion"; "lpa"; "rpa"] = [])
    as Hnil by (apply length_zero_iff_nil; lia).
  assert (length e = length pn) as Hlen.
  { result_cases HOk'. unfold getitem_mask in *. case_decide as Hl; [|discriminate].
    rewrite !length_insert, length_replicate, length_fmap in Hl. done. }
  destruct (fiducials_from_elp_present data e pn He Hpn Hnil Hlen)
    as (i_n & i_l & i_r & q_n & q_l & q_r & ? & ? & ? & ? & ? & ? & Heq).
  rewrite Heq in HOk. injection HOk as -> -> -> <-.
  exists e, pn, i_n, i_l, i_r. done.
Qed.

(** [C4] Idempotence of the frame resolver: a record whose [coord_frame]
    is ['head'] is returned as it is, no field modified and no transform
    applied; so resolving twice is resolving once. *)
Theorem transform_to_head_call_head_noop (data : Bunch) :
  coord_frame data = "head" →
  to_head data = Ok data ∧
  (to_head data ≫= to_head) = to_head data.
Proof.
  intros Hhead.
  assert (to_head data = Ok data) as Hnoop.
  { unfold _transform_to_head_call. by rewrite decide_True. }
  split; [done|]. rewrite Hnoop. simpl. exact Hnoop.
Qed.

(** The record returned once the landmarks are resolved (lines 54-66). *)
Lemma to_head_resolved (data data1 : Bunch (vec3:=vec3)) p_n p_l p_r :
  coord_frame data ≠ "head" →
  resolve_landmarks data = Ok (p_n, p_l, p_r, data1) →
  to_head data
  = t ← get_ras_to_neuromag_trans p_n p_l p_r;
    Ok (mkBunch (Some (apply_trans t p_n)) (Some (apply_trans t p_l))
          (Some (apply_trans t p_r))
          (fmap (M:=list) (apply_trans t) <$> hsp data1)
          (hpi data1)
          (fmap (M:=list) (apply_trans t) <$> elp data1)
          (point_names data1)
          (fmap (M:=gmap string) (apply_trans t) <$> dig_ch_pos data1)
          "head").
Proof.
  intros Hframe Hres. unfold _transform_to_head_call.
  rewrite decide_False by done. rewrite Hres. simpl.
  destruct (get_ras_to_neuromag_trans p_n p_l p_r) as [t|]; [|done].
  simpl. unfold mret, result_ret. do 2 f_equal.
  destruct (dig_ch_pos data1); [|done]. simpl.
  by rewrite transform_dig_ch_pos_fmap.
Qed.

(** [C3] Fiducial extraction from [elp]: for a record that is not in the
    head frame, whose [nasion], [lpa] and [rpa] are absent and whose [elp]
    and [point_names] are given, the names are lowercased and matched
    against nasion, lpa, rpa.  When some are missing the call fails with
    the error that lists exactly the missing ones: its text is
    ['The points [...] are missing, ...'] where the bracket holds, quoted
    and in the order nasion, lpa, rpa, the names that are not among the
    lowercased [point_names].  Otherwise, [elp] being parallel to
    [point_names], the landmarks are the [elp] entries at the first
    occurrence of each name, and these three positions are dropped from
    [elp] and from [point_names], the other entries keeping their
    order. *)
Theorem fiducials_extracted_from_elp (data : Bunch (vec3:=vec3)) e pn :
  coord_frame data ≠ "head" →
  nasion data = None → lpa data = None → rpa data = None →
  elp data = Some e → point_names data = Some pn →
  let names := Py.lower <$> pn in
  let missing := filter (λ name, name ∉ names) ["nasion"; "lpa"; "rpa"] in
  (∀ k, k ∈ missing ↔ k ∈ ["nasion"; "lpa"; "rpa"] ∧ k ∉ names) ∧
  (missing ≠ [] →
   to_head data = Err (ValueError (missing_points_msg missing)) ∧
   to_head data
   = Err (ValueError
            ("The points [" +:+
             match bool_decide ("nasion" ∈ names),
                   bool_decide ("lpa" ∈ names),
                   bool_decide ("rpa" ∈ names) with
             | false, false, false => "'nasion', 'lpa', 'rpa'"
             | false, false, true => "'nasion', 'lpa'"
             | false, true, false => "'nasion', 'rpa'"
             | false, true, true => "'nasion'"
             | true, false, false => "'lpa', 'rpa'"
             | true, false, true => "'lpa'"
             | true, true, false => "'rpa'"
             | true, true, true => ""
             end +:+
             "] are missing, but are needed to transform the points to " +:+
             "the MNE coordinate system. Either add the points, or read " +:+
             "the montage with transform=False."))) ∧
  (missing = [] → length e = length pn →
   ∃ i_n i_l i_r p_n p_l p_r,
     first_index "nasion" names i_n ∧
     first_index "lpa" names i_l ∧
     first_index "rpa" names i_r ∧
     e !! i_n = Some p_n ∧ e !! i_l = Some p_l ∧ e !! i_r = Some p_r ∧
     to_head data
     = t ← get_ras_to_neuromag_trans p_n p_l p_r;
       Ok (mkBunch (Some (apply_trans t p_n)) (Some (apply_trans t p_l))
             (Some (apply_trans t p_r))
             (fmap (M:=list) (apply_trans t) <$> hsp data)
             (hpi data)
             (Some (apply_trans t <$> drop_positions [i_n; i_l; i_r] e))
             (Some (drop_positions [i_n; i_l; i_r] pn))
             (fmap (M:=gmap string) (apply_trans t) <$> dig_ch_pos data)
             "head")).
Proof.
  intros Hframe Hn Hl Hr He Hpn names missing. split; [|split].
  - intros k. subst missing. rewrite list_elem_of_filter. tauto.
  - intros Hmiss.
    assert (to_head data = Err (ValueError (missing_points_msg missing)))
      as Herr.
    { unfold _transform_to_head_call, resolve_landmarks.
      rewrite decide_False by done. rewrite Hn. simpl.
      unfold fiducials_from_elp. rewrite He, Hpn. fold names. fold missing.
      rewrite decide_True; [done|]. destruct missing; [done|simpl; lia]. }
    split; [exact Herr|]. rewrite Herr. do 2 f_equal.
    clear Hmiss Herr. subst missing. rewrite !filter_cons, filter_nil.
    destruct (decide ("nasion" ∈ names)) as [Hin|Hin];
      [rewrite (bool_decide_eq_true_2 _ Hin),
         (decide_False (P:="nasion" ∉ names)) by tauto
      |rewrite (bool_decide_eq_false_2 _ Hin),
         (decide_True (P:="nasion" ∉ names)) by done];
    (destruct (decide ("lpa" ∈ names)) as [Hil|Hil];
      [rewrite (bool_decide_eq_true_2 _ Hil),
         (decide_False (P:="lpa" ∉ names)) by tauto
      |rewrite (bool_decide_eq_false_2 _ Hil),
         (decide_True (P:="lpa" ∉ names)) by done]);
    (destruct (decide ("rpa" ∈ names)) as [Hir|Hir];
      [rewrite (bool_decide_eq_true_2 _ Hir),
         (decide_False (P:="rpa" ∉ names)) by tauto
      |rewrite (bool_decide_eq_false_2 _ Hir),
         (decide_True (P:="rpa" ∉ names)) by done]);
    reflexivity.
  - intros Hnil Hlen.
    destruct (fiducials_from_elp_present data e pn He Hpn Hnil Hlen)
      as (i_n & i_l & i_r & p_n & p_l & p_r & ? & ? & ? & ? & ? & ? & Heq).
    exists i_n, i_l, i_r, p_n, p_l, p_r. repeat (split; [done|]).
    assert (resolve_landmarks data = fiducials_from_elp data) as Hres
      by (unfold resolve_landmarks; by rewrite Hn).
    rewrite Heq in Hres.
    by rewrite (to_head_resolved _ _ _ _ _ Hframe Hres).
Qed.

(** [C5] Scope of the transform: for a record that is not in the head
    frame, once the landmarks are resolved the derived transform is
    applied to the three landmarks, to [elp] when present, to [hsp] when
    present and to every value of [dig_ch_pos] when present; [hpi] and
    [point_names] are as they were, and [coord_frame] becomes ['head'].
    The resolution itself touches neither [hsp], [hpi] nor [dig_ch_pos],
    and nothing at all when the three landmarks were populated. *)
Theorem transform_applied_to_spatial_fields
    (data data1 : Bunch (vec3:=vec3)) p_n p_l p_r t :
  coord_frame data ≠ "head" →
  resolve_landmarks data = Ok (p_n, p_l, p_r, data1) →
  get_ras_to_neuromag_trans p_n p_l p_r = Ok t →
  ∃ b, to_head data = Ok b ∧
    nasion b = Some (apply_trans t p_n) ∧
    lpa b = Some (apply_trans t p_l) ∧
    rpa b = Some (apply_trans t p_r) ∧
    elp b = fmap (M:=list) (apply_trans t) <$> elp data1 ∧
    hsp b = fmap (M:=list) (apply_trans t) <$> hsp data ∧
    dig_ch_pos b = fmap (M:=gmap string) (apply_trans t) <$> dig_ch_pos data ∧
    hpi b = hpi data ∧
    point_names b = point_names data1 ∧
    coord_frame b = "head" ∧
    (is_Some (nasion data) → is_Some (lpa data) → is_Some (rpa data) →
     data1 = data).
Proof.
  intros Hframe Hres Ht.
  destruct (resolve_landmarks_untouched _ _ _ _ _ Hres) as (Hhsp & Hhpi & Hdig & _).
  eexists. split.
  { rewrite (to_head_resolved _ _ _ _ _ Hframe Hres), Ht. simpl. reflexivity. }
  simpl. rewrite Hhsp, Hhpi, Hdig. repeat (split; [done|]).
  intros [? Hn] [? Hl] [? Hr]. unfold resolve_landmarks in Hres.
  rewrite Hn, Hl, Hr in Hres. by injection Hres.
Qed.

(** [C10] Partially populated landmarks are discarded: for a record that
    is not in the head frame and lacks at least one of [nasion], [lpa],
    [rpa], the result is the one obtained with the three fields cleared.
    When [elp] and [point_names] are given, parallel, and hold the three
    names, the transform is derived from the [elp] entries at the first
    occurrence of each name, whatever the populated fields hold, and the
    three landmarks of the result are these entries transformed.  On any
    success the three landmarks are the transformed [elp] entries at the
    first occurrence of each name; and when [elp] or [point_names] is
    absent the call fails. *)
Theorem partial_landmarks_discarded (data : Bunch (vec3:=vec3)) :
  coord_frame data ≠ "head" →
  nasion data = None ∨ lpa data = None ∨ rpa data = None →
  to_head data
  = to_head (mkBunch None None None (hsp data) (hpi data) (elp data)
               (point_names data) (dig_ch_pos data) (coord_frame data)) ∧
  (∀ e pn,
     elp data = Some e → point_names data = Some pn →
     filter (λ name, name ∉ Py.lower <$> pn) ["nasion"; "lpa"; "rpa"] = [] →
     length e = length pn →
     ∃ i_n i_l i_r p_n p_l p_r,
       first_index "nasion" (Py.lower <$> pn) i_n ∧
       first_index "lpa" (Py.lower <$> pn) i_l ∧
       first_index "rpa" (Py.lower <$> pn) i_r ∧
       e !! i_n = Some p_n ∧ e !! i_l = Some p_l ∧ e !! i_r = Some p_r ∧
       to_head data
       = t ← get_ras_to_neuromag_trans p_n p_l p_r;
         Ok (mkBunch (Some (apply_trans t p_n)) (Some (apply_trans t p_l))
               (Some (apply_trans t p_r))
               (fmap (M:=list) (apply_trans t) <$> hsp data)
               (hpi data)
               (Some (apply_trans t <$> drop_positions [i_n; i_l; i_r] e))
               (Some (drop_positions [i_n; i_l; i_r] pn))
               (fmap (M:=gmap string) (apply_trans t) <$> dig_ch_pos data)
               "head")) ∧
  (∀ b, to_head data = Ok b →
     ∃ e pn i_n i_l i_r p_n p_l p_r t,
       elp data = Some e ∧ point_names data = Some pn ∧
       first_index "nasion" (Py.lower <$> pn) i_n ∧
       first_index "lpa" (Py.lower <$> pn) i_l ∧
       first_index "rpa" (Py.lower <$> pn) i_r ∧
       e !! i_n = Some p_n ∧ e !! i_l = Some p_l ∧ e !! i_r = Some p_r ∧
       get_ras_to_neuromag_trans p_n p_l p_r = Ok t ∧
       nasion b = Some (apply_trans t p_n) ∧
       lpa b = Some (apply_trans t p_l) ∧
       rpa b = Some (apply_trans t p_r)) ∧
  (elp data = None ∨ point_names data = None →
   to_head data
   = Err (ValueError
            "ELP points and names must be specified for transformation.")).
Proof.
  intros Hframe Hpartial.
  assert (resolve_landmarks data = fiducials_from_elp data) as Hres.
  { unfold resolve_landmarks.
    destruct Hpartial as [->| [Hl | Hr]]; [done| |].
    - rewrite Hl. by repeat case_match.
    - rewrite Hr. by repeat case_match. }
  split; [|split; [|split]].
  - unfold _transform_to_head_call at 1. rewrite decide_False by done.
    rewrite Hres. unfold _transform_to_head_call, resolve_landmarks. simpl.
    rewrite decide_False by done.
    unfold fiducials_from_elp. simpl.
    destruct (elp data) as [e|]; [|done].
    destruct (point_names data) as [pn|]; [|done].
    case_decide; [done|].
    repeat match goal with
           | |- context [mbind _ ?m] =>
               lazymatch m with
               | context [mbind] => fail
               | _ => destruct m; simpl; [|done]
               end
           end.
    done.
  - intros e pn He Hpn Hnil Hlen.
    destruct (fiducials_from_elp_present data e pn He Hpn Hnil Hlen)
      as (i_n & i_l & i_r & p_n & p_l & p_r & ? & ? & ? & ? & ? & ? & Heq).
    exists i_n, i_l, i_r, p_n, p_l, p_r. repeat (split; [done|]).
    rewrite Heq in Hres.
    by rewrite (to_head_resolved _ _ _ _ _ Hframe Hres).
  - intros b Hb. unfold _transform_to_head_call in Hb.
    rewrite decide_False in Hb by done. rewrite Hres in Hb.
    destruct (fiducials_from_elp data) as [[[[p_n p_l] p_r] data1]|] eqn:Hfid;
      [|discriminate].
    simpl in Hb.
    destruct (get_ras_to_neuromag_trans p_n p_l p_r) as [t|] eqn:Ht;
      [|discriminate].
    injection Hb as <-.
    apply fiducials_from_elp_Ok_inv in Hfid
      as (e & pn & i_n & i_l & i_r & ? & ? & ? & ? & ? & ? & ? & ? & ? & ?).
    exists e, pn, i_n, i_l, i_r, p_n, p_l, p_r, t. done.
  - intros Habsent. unfold _transform_to_head_call.
    rewrite decide_False by done. rewrite Hres. unfold fiducials_from_elp.
    destruct Habsent as [-> | ->]; [done|]. by destruct (elp data).
Qed.

End ResolverFacts.

(** ** Loops *)

Section LoopFacts.

Context {vec3 : Type}.

Lemma for_each_app {S A} (body : S → A → result (vec3:=vec3) S) st l1 l2 :
  for_each body st (l1 ++ l2)
  = for_each body st l1 ≫= λ st', for_each body st' l2.
Proof.
  revert st. induction l1 as [|x l1 IH]; intros st; [done|].
  simpl. destruct (body st x) as [st'|]; [|done]. simpl. apply IH.
Qed.

(** A dict filled by assignments [m[key x] = val x] holds, at each key,
    the value of the last item that was assigned to that key. *)
Lemma last_filter_snoc {A} (P : A → Prop) `{!∀ x, Decision (P x)} l x :
  last (filter P (l ++ [x]))
  = if decide (P x) then Some x else last (filter P l).
Proof.
  rewrite filter_app, filter_cons, filter_nil.
  case_decide; [by rewrite last_snoc|by rewrite app_nil_r].
Qed.

End LoopFacts.

(** ** The binary-format reader *)

Section FifFacts.

Context {vec3 : Type}.
Variables FIFFV_POINT_CARDINAL FIFFV_POINT_HPI : Z.
Variables FIFFV_POINT_EXTRA FIFFV_POINT_EEG : Z.
Variables FIFFV_POINT_NASION FIFFV_POINT_LPA FIFFV_POINT_RPA : Z.
Variable _str_to_frame : string → Z.

Abbreviation table :=
  (_cardinal_ident_mapping FIFFV_POINT_NASION FIFFV_POINT_LPA FIFFV_POINT_RPA).
Abbreviation check_frame := (_check_frame (vec3:=vec3) _str_to_frame).
Abbreviation body :=
  (fif_body (vec3:=vec3) FIFFV_POINT_CARDINAL FIFFV_POINT_HPI
     FIFFV_POINT_EXTRA FIFFV_POINT_EEG
     FIFFV_POINT_NASION FIFFV_POINT_LPA FIFFV_POINT_RPA _str_to_frame).
Abbreviation read_fif :=
  (_read_dig_montage_fif (vec3:=vec3) FIFFV_POINT_CARDINAL FIFFV_POINT_HPI
     FIFFV_POINT_EXTRA FIFFV_POINT_EEG
     FIFFV_POINT_NASION FIFFV_POINT_LPA FIFFV_POINT_RPA _str_to_frame).
Abbreviation kinds :=
  [FIFFV_POINT_CARDINAL; FIFFV_POINT_HPI; FIFFV_POINT_EXTRA; FIFFV_POINT_EEG].

(** The four point kinds are four different codes. *)
Hypothesis kinds_distinct : NoDup kinds.

Lemma kinds_ne :
  FIFFV_POINT_CARDINAL ≠ FIFFV_POINT_HPI ∧
  FIFFV_POINT_CARDINAL ≠ FIFFV_POINT_EXTRA ∧
  FIFFV_POINT_CARDINAL ≠ FIFFV_POINT_EEG ∧
  FIFFV_POINT_HPI ≠ FIFFV_POINT_EXTRA ∧
  FIFFV_POINT_HPI ≠ FIFFV_POINT_EEG ∧
  FIFFV_POINT_EXTRA ≠ FIFFV_POINT_EEG.
Proof.
  pose proof kinds_distinct as Hnd.
  repeat (apply NoDup_cons in Hnd as [? Hnd]). set_solver.
Qed.

(** The body of the loop, kind by kind. *)
Lemma fif_body_cardinal st (d : DigPoint (vec3:=vec3)) :
  d_kind d = FIFFV_POINT_CARDINAL →
  body st d
  = check_frame d "head" ≫= λ _,
    match table !! d_ident d with
    | Some name =>
        Ok (mkFifLocals (fif_hsp st) (fif_hpi st) (fif_elp st)
              (fif_point_names st) (<[name := d_r d]> (fif_fids st))
              (fif_dig_ch_pos st))
    | None => Err (KeyError (PyInt (d_ident d)))
    end.
Proof. intros Hk. unfold fif_body. by rewrite decide_True. Qed.

Lemma fif_body_hpi st (d : DigPoint (vec3:=vec3)) :
  d_kind d = FIFFV_POINT_HPI →
  body st d
  = check_frame d "head" ≫= λ _,
    Ok (mkFifLocals (fif_hsp st) (fif_hpi st ++ [d_r d])
          (fif_elp st ++ [d_r d])
          (fif_point_names st ++ ["HPI" +:+ Py.format_03d (d_ident d)])
          (fif_fids st) (fif_dig_ch_pos st)).
Proof.
  intros Hk. destruct kinds_ne as (? & _). unfold fif_body.
  rewrite decide_False by congruence. by rewrite decide_True.
Qed.

Lemma fif_body_extra st (d : DigPoint (vec3:=vec3)) :
  d_kind d = FIFFV_POINT_EXTRA →
  body st d
  = check_frame d "head" ≫= λ _,
    Ok (mkFifLocals (fif_hsp st ++ [d_r d]) (fif_hpi st) (fif_elp st)
          (fif_point_names st) (fif_fids st) (fif_dig_ch_pos st)).
Proof.
  intros Hk. destruct kinds_ne as (? & ? & ? & ? & _). unfold fif_body.
  rewrite !decide_False by congruence. by rewrite decide_True.
Qed.

Lemma fif_body_eeg st (d : DigPoint (vec3:=vec3)) :
  d_kind d = FIFFV_POINT_EEG →
  body st d
  = check_frame d "head" ≫= λ _,
    Ok (mkFifLocals (fif_hsp st) (fif_hpi st) (fif_elp st)
          (fif_point_names st) (fif_fids st)
          (<["EEG" +:+ Py.format_03d (d_ident d) := d_r d]>
             (fif_dig_ch_pos st))).
Proof.
  intros Hk. destruct kinds_ne as (? & ? & ? & ? & ? & ?). unfold fif_body.
  rewrite !decide_False by congruence. by rewrite decide_True.
Qed.

Lemma fif_body_other st (d : DigPoint (vec3:=vec3)) :
  d_kind d ∉ kinds → body st d = Ok st.
Proof.
  intros Hk. unfold fif_body. rewrite !not_elem_of_cons in Hk.
  destruct Hk as (? & ? & ? & ? & _). by rewrite !decide_False.
Qed.

Abbreviation hpi_label := (λ d : DigPoint, "HPI" +:+ Py.format_03d (d_ident d)).
Abbreviation eeg_key := (λ d : DigPoint, "EEG" +:+ Py.format_03d (d_ident d)).

(** What the loop has collected when it ends without an exception. *)
Lemma fif_loop_spec (dig : list (DigPoint (vec3:=vec3))) st :
  for_each body fif_init dig = Ok st →
  fif_hsp st = d_r <$> filter (λ d, d_kind d = FIFFV_POINT_EXTRA) dig ∧
  fif_hpi st = d_r <$> filter (λ d, d_kind d = FIFFV_POINT_HPI) dig ∧
  fif_elp st = d_r <$> filter (λ d, d_kind d = FIFFV_POINT_HPI) dig ∧
  fif_point_names st
  = hpi_label <$> filter (λ d, d_kind d = FIFFV_POINT_HPI) dig ∧
  (∀ k, fif_dig_ch_pos st !! k
        = d_r <$> last (filter (λ d, d_kind d = FIFFV_POINT_EEG ∧
                                     eeg_key d = k) dig)) ∧
  (∀ name, fif_fids st !! name
           = d_r <$> last (filter (λ d, d_kind d = FIFFV_POINT_CARDINAL ∧
                                        table !! d_ident d = Some name) dig)).
Proof.
  destruct kinds_ne as (? & ? & ? & ? & ? & ?).
  revert st. induction dig as [|d dig IH] using rev_ind; intros st Hloop.
  { injection Hloop as <-. by repeat split. }
  rewrite for_each_app in Hloop.
  destruct (for_each body fif_init dig) as [st0|]; [|discriminate].
  destruct (IH st0 eq_refl) as (Hhsp & Hhpi & Help & Hnames & Hdig & Hfids).
  clear IH. simpl in Hloop.
  rewrite !filter_app, !filter_cons, !filter_nil, !fmap_app.
  setoid_rewrite last_filter_snoc.
  destruct (decide (d_kind d ∈ kinds)) as [Hin|Hout].
  2: { rewrite fif_body_other in Hloop by done. injection Hloop as <-.
       rewrite !not_elem_of_cons in Hout. destruct Hout as (? & ? & ? & ? & _).
       rewrite !decide_False by done. rewrite !app_nil_r.
       repeat (split; [done|]). split.
       - intros k. rewrite decide_False by tauto. apply Hdig.
       - intros k. rewrite decide_False by tauto. apply Hfids. }
  rewrite !elem_of_cons in Hin.
  destruct Hin as [Hk | [Hk | [Hk | [Hk | Hk]]]];
    [ rewrite fif_body_cardinal in Hloop by done
    | rewrite fif_body_hpi in Hloop by done
    | rewrite fif_body_extra in Hloop by done
    | rewrite fif_body_eeg in Hloop by done
    | by apply elem_of_nil in Hk ];
    destruct (check_frame d "head"); try discriminate; simpl in Hloop.
  - destruct (table !! d_ident d) as [name|] eqn:Hname; [|discriminate].
    injection Hloop as <-.
    cbn [fif_hsp fif_hpi fif_elp fif_point_names fif_dig_ch_pos fif_fids].
    rewrite !decide_False by congruence. rewrite !app_nil_r.
    repeat (split; [done|]). split.
    + intros k. rewrite decide_False by (intros [? _]; congruence). apply Hdig.
    + intros k. destruct (decide (name = k)) as [<-|Hne].
      * rewrite decide_True by done. by rewrite lookup_insert_eq.
      * rewrite decide_False by (intros [_ ?]; congruence).
        rewrite lookup_insert_ne by done. apply Hfids.
  - injection Hloop as <-.
    cbn [fif_hsp fif_hpi fif_elp fif_point_names fif_dig_ch_pos fif_fids].
    rewrite (decide_True (P:=d_kind d = FIFFV_POINT_HPI)) by done.
    rewrite (decide_False (P:=d_kind d = FIFFV_POINT_EXTRA)) by congruence.
    rewrite !app_nil_r, Hhpi, Help, Hnames.
    repeat (split; [done|]). split.
    + intros k. rewrite decide_False by (intros [? _]; congruence). apply Hdig.
    + intros k. rewrite decide_False by (intros [? _]; congruence). apply Hfids.
  - injection Hloop as <-.
    cbn [fif_hsp fif_hpi fif_elp fif_point_names fif_dig_ch_pos fif_fids].
    rewrite (decide_True (P:=d_kind d = FIFFV_POINT_EXTRA)) by done.
    rewrite (decide_False (P:=d_kind d = FIFFV_POINT_HPI)) by congruence.
    rewrite !app_nil_r, Hhsp.
    repeat (split; [done|]). split.
    + intros k. rewrite decide_False by (intros [? _]; congruence). apply Hdig.
    + intros k. rewrite decide_False by (intros [? _]; congruence). apply Hfids.
  - injection Hloop as <-.
    cbn [fif_hsp fif_hpi fif_elp fif_point_names fif_dig_ch_pos fif_fids].
    rewrite !decide_False by congruence. rewrite !app_nil_r.
    repeat (split; [done|]). split.
    + intros k. destruct (decide (eeg_key d = k)) as [<-|Hne].
      * rewrite decide_True by done. by rewrite lookup_insert_eq.
      * rewrite decide_False by (intros [_ ?]; congruence).
        rewrite lookup_insert_ne by done. apply Hdig.
    + intros k. rewrite decide_False by (intros [? _]; congruence). apply Hfids.
Qed.

Lemma fif_body_frame_mismatch st (d : DigPoint (vec3:=vec3)) :
  d_kind d ∈ kinds → d_coord_frame d ≠ _str_to_frame "head" →
  body st d = Err (FrameMismatch d).
Proof.
  intros Hk Hframe. rewrite !elem_of_cons in Hk.
  assert (check_frame d "head" = Err (FrameMismatch d)) as Hcheck
    by (unfold _check_frame; by rewrite decide_False).
  unfold fif_body. rewrite Hcheck.
  repeat case_decide; try done.
  destruct Hk as [?|[?|[?|[?|Hk]]]]; try done. by apply elem_of_nil in Hk.
Qed.

Lemma table_lookup_None i :
  table !! i = None ↔
  i ∉ [FIFFV_POINT_NASION; FIFFV_POINT_LPA; FIFFV_POINT_RPA].
Proof.
  unfold _cardinal_ident_mapping.
  rewrite !lookup_insert_None, lookup_empty, !not_elem_of_cons.
  pose proof (not_elem_of_nil i). intuition congruence.
Qed.

Lemma read_fif_eq dig :
  read_fif dig false true = for_each body fif_init dig ≫= fif_bunch.
Proof. done. Qed.

Lemma fif_bunch_Ok_inv (st : fif_locals (vec3:=vec3)) b :
  fif_bunch st = Ok b →
  b = mkBunch (fif_fids st !! "nasion") (fif_fids st !! "lpa")
        (fif_fids st !! "rpa")
        (array_or_None (fif_hsp st)) (Some (fif_hpi st))
        (array_or_None (fif_elp st)) (Some (fif_point_names st))
        (Some (fif_dig_ch_pos st)) "head".
Proof.
  unfold fif_bunch, subscript. intros H.
  destruct (fif_fids st !! "nasion"); [|discriminate].
  destruct (fif_fids st !! "lpa"); [|discriminate].
  destruct (fif_fids st !! "rpa"); [|discriminate].
  simpl in H. by injection H as <-.
Qed.

(** A fiducial that no cardinal record assigned makes the read fail on
    the first missing one of [fids['nasion']], [fids['lpa']],
    [fids['rpa']]. *)
Lemma fif_bunch_missing (st : fif_locals (vec3:=vec3)) :
  fif_fids st !! "nasion" = None ∨ fif_fids st !! "lpa" = None ∨
  fif_fids st !! "rpa" = None →
  ∃ name, name ∈ ["nasion"; "lpa"; "rpa"] ∧ fif_fids st !! name = None ∧
          fif_bunch st = Err (KeyError (PyStr name)).
Proof.
  intros Hmiss. unfold fif_bunch, subscript.
  destruct (fif_fids st !! "nasion") eqn:Hn;
    [|exists "nasion"; split; [by left|done]].
  destruct (fif_fids st !! "lpa") eqn:Hl;
    [|exists "lpa"; split; [by right; left|done]].
  destruct (fif_fids st !! "rpa") eqn:Hr;
    [|exists "rpa"; split; [by do 2 right; left|done]].
  by destruct Hmiss as [?|[?|?]].
Qed.

(** [C1], as the code has it: the frame guard covers the records of the
    four classified kinds.  When such a record declares a frame other than
    head, the read returns no record; and when the records before it were
    processed without an exception, the exception raised is that of the
    frame check on this record.  A record of any other kind is skipped
    without a frame check: whatever frame it declares, the body of the
    loop leaves the state as it is and the read goes as it does without
    the record. *)
Theorem frame_guard_classified_kinds (pre post : list (DigPoint (vec3:=vec3))) d :
  (d_kind d ∈ kinds →
   d_coord_frame d ≠ _str_to_frame "head" →
   (∀ f1 f2 b, read_fif (pre ++ d :: post) f1 f2 ≠ Ok b) ∧
   (∀ st, for_each body fif_init pre = Ok st →
          read_fif (pre ++ d :: post) false true = Err (FrameMismatch d))) ∧
  (d_kind d ∉ kinds →
   (∀ st, body st d = Ok st) ∧
   (∀ f1 f2, read_fif (pre ++ d :: post) f1 f2
             = read_fif (pre ++ post) f1 f2)).
Proof.
  split.
  - intros Hk Hframe.
    assert (∀ st, for_each body fif_init pre = Ok st →
              read_fif (pre ++ d :: post) false true = Err (FrameMismatch d))
      as Hfirst.
    { intros st Hpre. rewrite read_fif_eq, for_each_app, Hpre. simpl.
      by rewrite fif_body_frame_mismatch. }
    split; [|done]. intros f1 f2 b. unfold _read_dig_montage_fif.
    destruct f1; [done|]. destruct f2; [|done]. simpl.
    rewrite for_each_app.
    destruct (for_each body fif_init pre) as [st|]; [|done]. simpl.
    by rewrite fif_body_frame_mismatch.
  - intros Hk. split; [intros st; by apply fif_body_other|].
    intros f1 f2. unfold _read_dig_montage_fif.
    destruct f1; [done|]. destruct f2; [|done]. simpl.
    rewrite !for_each_app.
    destruct (for_each body fif_init pre) as [st|]; [|done]. simpl.
    by rewrite fif_body_other.
Qed.

(** [C6] Classification by the binary reader.  For an accepted sequence:
    each fiducial field holds the position of the last cardinal record
    whose ident the fixed table maps to that field; [hpi] and [elp] list
    the positions of the HPI records in order ([elp] being absent when
    there is none) and [point_names] their labels ["HPI%03d"]; [hsp] lists
    the extra records; [dig_ch_pos] holds at key ["EEG%03d"] the position of
    the last EEG record with that key; the frame is ['head'].  A cardinal
    record in the head frame whose ident is not one of the three codes
    makes the read fail with the [KeyError] of the table, and a record of
    any other kind changes nothing.  The table sends the three codes, when
    they differ, to nasion, lpa and rpa. *)
Theorem fif_classification :
  (∀ dig b, read_fif dig false true = Ok b →
     coord_frame b = "head" ∧
     nasion b = d_r <$> last (filter
       (λ d, d_kind d = FIFFV_POINT_CARDINAL ∧
             table !! d_ident d = Some "nasion") dig) ∧
     lpa b = d_r <$> last (filter
       (λ d, d_kind d = FIFFV_POINT_CARDINAL ∧
             table !! d_ident d = Some "lpa") dig) ∧
     rpa b = d_r <$> last (filter
       (λ d, d_kind d = FIFFV_POINT_CARDINAL ∧
             table !! d_ident d = Some "rpa") dig) ∧
     hpi b = Some (d_r <$> filter (λ d, d_kind d = FIFFV_POINT_HPI) dig) ∧
     elp b = array_or_None
               (d_r <$> filter (λ d, d_kind d = FIFFV_POINT_HPI) dig) ∧
     point_names b
     = Some (hpi_label <$> filter (λ d, d_kind d = FIFFV_POINT_HPI) dig) ∧
     hsp b = array_or_None
               (d_r <$> filter (λ d, d_kind d = FIFFV_POINT_EXTRA) dig) ∧
     ∃ m, dig_ch_pos b = Some m ∧
          ∀ k, m !! k
               = d_r <$> last (filter (λ d, d_kind d = FIFFV_POINT_EEG ∧
                                            eeg_key d = k) dig)) ∧
  (∀ pre d post st,
     for_each body fif_init pre = Ok st →
     d_kind d = FIFFV_POINT_CARDINAL →
     d_coord_frame d = _str_to_frame "head" →
     d_ident d ∉ [FIFFV_POINT_NASION; FIFFV_POINT_LPA; FIFFV_POINT_RPA] →
     read_fif (pre ++ d :: post) false true
     = Err (KeyError (PyInt (d_ident d)))) ∧
  (∀ pre d post,
     d_kind d ∉ kinds →
     read_fif (pre ++ d :: post) false true
     = read_fif (pre ++ post) false true) ∧
  (NoDup [FIFFV_POINT_NASION; FIFFV_POINT_LPA; FIFFV_POINT_RPA] →
   table !! FIFFV_POINT_NASION = Some "nasion" ∧
   table !! FIFFV_POINT_LPA = Some "lpa" ∧
   table !! FIFFV_POINT_RPA = Some "rpa").
Proof.
  split; [|split; [|split]].
  - intros dig b Hread. rewrite read_fif_eq in Hread.
    destruct (for_each body fif_init dig) as [st|] eqn:Hloop; [|discriminate].
    simpl in Hread. apply fif_bunch_Ok_inv in Hread as ->.
    destruct (fif_loop_spec dig st Hloop)
      as (Hhsp & Hhpi & Help & Hnames & Hdig & Hfids).
    cbn [coord_frame nasion lpa rpa hpi elp point_names hsp dig_ch_pos].
    rewrite !Hfids, Hhsp, Hhpi, Help, Hnames.
    repeat (split; [done|]). by exists (fif_dig_ch_pos st).
  - intros pre d post st Hpre Hk Hframe Hident.
    rewrite read_fif_eq, for_each_app, Hpre. simpl.
    rewrite fif_body_cardinal by done. unfold _check_frame.
    rewrite decide_True by done. simpl.
    apply table_lookup_None in Hident. by rewrite Hident.
  - intros pre d post Hk. rewrite !read_fif_eq, !for_each_app.
    destruct (for_each body fif_init pre) as [st|]; [|done]. simpl.
    by rewrite fif_body_other.
  - intros Hidents. repeat (apply NoDup_cons in Hidents as [? Hidents]).
    unfold _cardinal_ident_mapping.
    assert (FIFFV_POINT_NASION ≠ FIFFV_POINT_LPA ∧
            FIFFV_POINT_NASION ≠ FIFFV_POINT_RPA ∧
            FIFFV_POINT_LPA ≠ FIFFV_POINT_RPA) as (? & ? & ?) by set_solver.
    rewrite lookup_insert_ne, lookup_insert_ne, !lookup_insert_eq by done.
    rewrite (lookup_insert_ne _ FIFFV_POINT_RPA FIFFV_POINT_LPA) by done.
    by rewrite lookup_insert_eq.
Qed.

(** [C9] [hpi] is a sequence in every record the binary reader returns,
    the empty one when the input has no HPI record, whereas [elp] is
    absent when there is no HPI record and [hsp] is absent when there is
    no extra record. *)
Theorem fif_hpi_empty_not_absent (dig : list (DigPoint (vec3:=vec3))) b :
  read_fif dig false true = Ok b →
  hpi b = Some (d_r <$> filter (λ d, d_kind d = FIFFV_POINT_HPI) dig) ∧
  (filter (λ d, d_kind d = FIFFV_POINT_HPI) dig = [] →
   hpi b = Some [] ∧ elp b = None) ∧
  (filter (λ d, d_kind d = FIFFV_POINT_EXTRA) dig = [] → hsp b = None) ∧
  (filter (λ d, d_kind d = FIFFV_POINT_HPI) dig ≠ [] →
   elp b = Some (d_r <$> filter (λ d, d_kind d = FIFFV_POINT_HPI) dig)) ∧
  (filter (λ d, d_kind d = FIFFV_POINT_EXTRA) dig ≠ [] →
   hsp b = Some (d_r <$> filter (λ d, d_kind d = FIFFV_POINT_EXTRA) dig)).
Proof.
  intros Hread. rewrite read_fif_eq in Hread.
  destruct (for_each body fif_init dig) as [st|] eqn:Hloop; [|discriminate].
  simpl in Hread. apply fif_bunch_Ok_inv in Hread as ->.
  destruct (fif_loop_spec dig st Hloop) as (Hhsp & Hhpi & Help & _).
  cbn [hpi elp hsp]. rewrite Hhsp, Hhpi, Help.
  split; [done|]. unfold array_or_None.
  split; [by intros ->|]. split; [by intros ->|]. split.
  - intros Hne. rewrite decide_False; [done|].
    rewrite length_fmap. by intros ?%length_zero_iff_nil.
  - intros Hne. rewrite decide_False; [done|].
    rewrite length_fmap. by intros ?%length_zero_iff_nil.
Qed.

End FifFacts.

(** ** The XML-format reader *)

Section EgiFacts.

Context {vec3 scalar : Type}.
Variable vec3_mul : vec3 → scalar → vec3.

Abbreviation step := (egi_body (vec3:=vec3) vec3_mul).
Abbreviation loop := (egi_loop (vec3:=vec3) vec3_mul).
Abbreviation read_egi := (_read_dig_montage_egi (vec3:=vec3) vec3_mul).
Abbreviation known := (λ s : Sensor (vec3:=vec3), s_kind s ∈ [0; 1; 2]).
Abbreviation unknown := (λ s : Sensor (vec3:=vec3), s_kind s ∉ [0; 1; 2]).

Lemma egi_body_unknown _scaling st (s : Sensor (vec3:=vec3)) :
  s_kind s ∉ [0; 1; 2] →
  step _scaling st s = ([unknown_sensor_msg (s_kind s)], Ok st).
Proof.
  rewrite !not_elem_of_cons. intros (? & ? & ? & _).
  unfold egi_body. by rewrite !decide_False.
Qed.

Lemma egi_body_known _scaling st (s : Sensor (vec3:=vec3)) :
  s_kind s ∈ [0; 1; 2] → (step _scaling st s).1 = [].
Proof.
  rewrite !elem_of_cons. intros Hk. unfold egi_body.
  repeat case_decide; try done.
  - by destruct (fid_name_map !! s_name s).
  - destruct Hk as [?|[?|[?|Hk]]]; try done. by apply elem_of_nil in Hk.
Qed.

(** The sensors of an unknown kind change neither the outcome nor the
    state; each of them issues one warning. *)
Lemma egi_loop_filter _scaling (sensors : list (Sensor (vec3:=vec3))) st :
  (loop _scaling st sensors).2 = (loop _scaling st (filter known sensors)).2 ∧
  (loop _scaling st (filter known sensors)).1 = [] ∧
  (∀ st', (loop _scaling st sensors).2 = Ok st' →
          (loop _scaling st sensors).1
          = unknown_sensor_msg <$> (s_kind <$> filter unknown sensors)).
Proof.
  revert st. induction sensors as [|s sensors IH]; intros st; [done|].
  rewrite !filter_cons. destruct (decide (s_kind s ∈ [0; 1; 2])) as [Hk|Hk].
  - rewrite decide_False by tauto. simpl.
    pose proof (egi_body_known _scaling st s Hk) as Hw.
    destruct (step _scaling st s) as [w [st1|e]]; simpl in Hw; subst w;
      [|done].
    destruct (IH st1) as (IH1 & IH2 & IH3).
    destruct (loop _scaling st1 sensors) as [w1 r1].
    destruct (loop _scaling st1 (filter known sensors)) as [w2 r2].
    simpl in *. subst r2 w2. split; [done|]. split; [done|].
    intros st' Hr. by apply (IH3 st').
  - simpl. rewrite egi_body_unknown by done.
    destruct (IH st) as (IH1 & IH2 & IH3).
    destruct (loop _scaling st sensors) as [w1 r1].
    simpl in *. split; [done|]. split; [done|].
    intros st' Hr. rewrite decide_True by done.
    rewrite !fmap_cons. f_equal. by apply (IH3 st').
Qed.

Lemma egi_bunch_Ok_inv (st : egi_locals (vec3:=vec3)) b :
  egi_bunch st = Ok b →
  b = mkBunch (egi_fids st !! "nasion") (egi_fids st !! "lpa")
        (egi_fids st !! "rpa") None None None None
        (Some (egi_dig_ch_pos st)) "unknown".
Proof.
  unfold egi_bunch, subscript. intros H.
  destruct (egi_fids st !! "nasion"); [|discriminate].
  destruct (egi_fids st !! "lpa"); [|discriminate].
  destruct (egi_fids st !! "rpa"); [|discriminate].
  simpl in H. by injection H as <-.
Qed.

Lemma egi_bunch_missing (st : egi_locals (vec3:=vec3)) :
  egi_fids st !! "nasion" = None ∨ egi_fids st !! "lpa" = None ∨
  egi_fids st !! "rpa" = None →
  ∃ name, name ∈ ["nasion"; "lpa"; "rpa"] ∧ egi_fids st !! name = None ∧
          egi_bunch st = Err (KeyError (PyStr name)).
Proof.
  intros Hmiss. unfold egi_bunch, subscript.
  destruct (egi_fids st !! "nasion") eqn:Hn;
    [|exists "nasion"; split; [by left|done]].
  destruct (egi_fids st !! "lpa") eqn:Hl;
    [|exists "lpa"; split; [by right; left|done]].
  destruct (egi_fids st !! "rpa") eqn:Hr;
    [|exists "rpa"; split; [by do 2 right; left|done]].
  by destruct Hmiss as [?|[?|?]].
Qed.

Lemma read_egi_Ok_inv sensors _scaling flag w b :
  read_egi sensors _scaling flag = (w, Ok b) →
  ∃ st, loop _scaling egi_init sensors = (w, Ok st) ∧ egi_bunch st = Ok b.
Proof.
  unfold _read_dig_montage_egi. destruct flag; simpl; [|done].
  destruct (loop _scaling egi_init sensors) as [w' [st|e]]; [|done].
  intros [= -> Hb]. by exists st.
Qed.

(** [C7] Tolerance of unknown sensor kinds and shape of the result: a
    sensor whose kind is not 0, 1 or 2 issues one warning and leaves the
    state as it is; the text of the warning is ['Unknown sensor type ']
    followed by the kind in decimal and [' detected. Skipping
    sensor...Proceed with caution!'], so that the warnings of two kinds
    differ; the outcome of the read is the one obtained without these
    sensors; and a returned record comes with exactly one warning per such
    sensor, in order, has [coord_frame] ['unknown'] and no [hsp], [hpi],
    [elp], [point_names]. *)
Theorem egi_unknown_kind_skipped sensors _scaling flag :
  (∀ st s, s_kind s ∉ [0; 1; 2] →
           step _scaling st s = ([unknown_sensor_msg (s_kind s)], Ok st)) ∧
  (∀ kind : Z,
     unknown_sensor_msg kind
     = "Unknown sensor type " +:+ pretty kind +:+
       " detected. Skipping sensor...Proceed with caution!") ∧
  (∀ k1 k2 : Z, unknown_sensor_msg k1 = unknown_sensor_msg k2 → k1 = k2) ∧
  (read_egi sensors _scaling flag).2
  = (read_egi (filter known sensors) _scaling flag).2 ∧
  (read_egi (filter known sensors) _scaling flag).1 = [] ∧
  (∀ w b, read_egi sensors _scaling flag = (w, Ok b) →
     w = unknown_sensor_msg <$> (s_kind <$> filter unknown sensors) ∧
     coord_frame b = "unknown" ∧
     hsp b = None ∧ hpi b = None ∧ elp b = None ∧ point_names b = None).
Proof.
  split; [intros st s; apply egi_body_unknown|].
  split; [done|].
  split.
  { intros k1 k2 Heq. unfold unknown_sensor_msg, Py.str_int in Heq.
    apply (inj (String.append _)) in Heq.
    apply append_inj_r in Heq. by apply (inj pretty). }
  destruct (egi_loop_filter _scaling sensors egi_init) as (H1 & H2 & H3).
  split; [|split].
  - unfold _read_dig_montage_egi. destruct flag; simpl; [|done].
    destruct (loop _scaling egi_init sensors) as [w1 r1].
    destruct (loop _scaling egi_init (filter known sensors)) as [w2 r2].
    simpl in H1. subst r2. by destruct r1.
  - unfold _read_dig_montage_egi. destruct flag; simpl; [|done].
    destruct (loop _scaling egi_init (filter known sensors)) as [w2 r2].
    simpl in H2. subst w2. by destruct r2.
  - intros w b (st & Hloop & Hb)%read_egi_Ok_inv.
    apply egi_bunch_Ok_inv in Hb as ->. rewrite Hloop in H3.
    split; [|done]. by apply (H3 st).
Qed.

(** The only exceptions of the loop are those of [fid_name_map[name]]. *)
Lemma egi_loop_Err _scaling (sensors : list (Sensor (vec3:=vec3))) st w e :
  loop _scaling st sensors = (w, Err e) →
  ∃ s, s ∈ sensors ∧ s_kind s = 2 ∧ fid_name_map !! s_name s = None ∧
       e = KeyError (PyStr (s_name s)).
Proof.
  revert st w. induction sensors as [|s sensors IH]; intros st w; [done|].
  simpl. destruct (step _scaling st s) as [w0 [st1|e0]] eqn:Hstep.
  - destruct (loop _scaling st1 sensors) as [w1 r1] eqn:Hloop.
    intros [= _ ->]. destruct (IH st1 w1 Hloop) as (s' & Hin & Hs').
    exists s'. split; [by right|done].
  - intros [= _ ->]. exists s. split; [by left|].
    unfold egi_body in Hstep. repeat case_decide; try discriminate.
    destruct (fid_name_map !! s_name s); [discriminate|].
    by injection Hstep as _ <-.
Qed.

Lemma egi_bunch_Err (st : egi_locals (vec3:=vec3)) e :
  egi_bunch st = Err e →
  ∃ name, name ∈ ["nasion"; "lpa"; "rpa"] ∧ e = KeyError (PyStr name).
Proof.
  unfold egi_bunch, subscript. intros H.
  destruct (egi_fids st !! "nasion");
    [|injection H as <-; exists "nasion"; split; [by left|done]].
  destruct (egi_fids st !! "lpa");
    [|injection H as <-; exists "lpa"; split; [by right; left|done]].
  destruct (egi_fids st !! "rpa");
    [|injection H as <-; exists "rpa"; split; [by do 2 right; left|done]].
  discriminate.
Qed.

(** [C2], as the code has it: the keys of the produced [dig_ch_pos] are
    pairwise distinct, and a key collision is not an error.  A kind-0
    sensor is stored under ["EEG %03d" % number], a kind-1 sensor under
    ["EEG %03d" % (len(dig_ch_pos) + 1)], without an exception and without
    a warning; when the key is already there the stored position is
    replaced, the other entries and the size of the mapping staying as
    they were.  The read raises only for a fiducial name outside
    [fid_name_map] and for a missing fiducial. *)
Theorem egi_keys_distinct_collision_overwrites :
  (∀ sensors _scaling flag w b,
     read_egi sensors _scaling flag = (w, Ok b) →
     ∃ m, dig_ch_pos b = Some m ∧ NoDup (map_to_list m).*1) ∧
  (∀ _scaling st s,
     s_kind s = 0 ∨ s_kind s = 1 →
     let key :=
       if decide (s_kind s = 0) then "EEG " +:+ Py.format_03d (s_number s)
       else "EEG " +:+
            Py.format_03d (Z.of_nat (size (egi_dig_ch_pos st)) + 1) in
     ∃ st', step _scaling st s = ([], Ok st') ∧
       egi_fids st' = egi_fids st ∧
       egi_dig_ch_pos st' !! key = Some (vec3_mul (s_coordinates s) _scaling) ∧
       (∀ k, k ≠ key → egi_dig_ch_pos st' !! k = egi_dig_ch_pos st !! k) ∧
       (is_Some (egi_dig_ch_pos st !! key) →
        size (egi_dig_ch_pos st') = size (egi_dig_ch_pos st))) ∧
  (∀ sensors _scaling w e,
     read_egi sensors _scaling true = (w, Err e) →
     (∃ s, s ∈ sensors ∧ s_kind s = 2 ∧ fid_name_map !! s_name s = None ∧
           e = KeyError (PyStr (s_name s))) ∨
     (∃ name, name ∈ ["nasion"; "lpa"; "rpa"] ∧ e = KeyError (PyStr name))).
Proof.
  split; [|split].
  - intros sensors _scaling flag w b (st & _ & Hb)%read_egi_Ok_inv.
    apply egi_bunch_Ok_inv in Hb as ->. eexists. split; [done|].
    apply NoDup_fst_map_to_list.
  - intros _scaling st s Hk key. unfold egi_body. subst key.
    destruct (decide (s_kind s = 0)) as [H0|H0].
    + eexists. split; [done|]. cbn [egi_fids egi_dig_ch_pos].
      split; [done|]. split; [apply lookup_insert_eq|]. split.
      * intros k Hne. by rewrite lookup_insert_ne.
      * intros Hsome. by apply map_size_insert_Some.
    + destruct Hk as [Hk|Hk]; [done|]. rewrite decide_True by done.
      eexists. split; [done|]. cbn [egi_fids egi_dig_ch_pos].
      split; [done|]. split; [apply lookup_insert_eq|]. split.
      * intros k Hne. by rewrite lookup_insert_ne.
      * intros Hsome. by apply map_size_insert_Some.
  - intros sensors _scaling w e. unfold _read_dig_montage_egi. simpl.
    destruct (loop _scaling egi_init sensors) as [w' [st|e']] eqn:Hloop.
    + intros [= _ Hb]. right. by eapply egi_bunch_Err.
    + intros [= _ ->]. left. by eapply egi_loop_Err.
Qed.

End EgiFacts.

(** ** Both readers *)

Section ReaderFacts.

Context {vec3 scalar : Type}.
Variables FIFFV_POINT_CARDINAL FIFFV_POINT_HPI : Z.
Variables FIFFV_POINT_EXTRA FIFFV_POINT_EEG : Z.
Variables FIFFV_POINT_NASION FIFFV_POINT_LPA FIFFV_POINT_RPA : Z.
Variable _str_to_frame : string → Z.
Variable vec3_mul : vec3 → scalar → vec3.

Abbreviation fif_loop :=
  (for_each
     (fif_body (vec3:=vec3) FIFFV_POINT_CARDINAL FIFFV_POINT_HPI
        FIFFV_POINT_EXTRA FIFFV_POINT_EEG
        FIFFV_POINT_NASION FIFFV_POINT_LPA FIFFV_POINT_RPA _str_to_frame)
     fif_init).
Abbreviation read_fif :=
  (_read_dig_montage_fif (vec3:=vec3) FIFFV_POINT_CARDINAL FIFFV_POINT_HPI
     FIFFV_POINT_EXTRA FIFFV_POINT_EEG
     FIFFV_POINT_NASION FIFFV_POINT_LPA FIFFV_POINT_RPA _str_to_frame).
Abbreviation read_egi := (_read_dig_montage_egi (vec3:=vec3) vec3_mul).

(** [C8] A missing fiducial fails both readers: when the loop over the
    records, or over the sensors, has ended without an exception and one
    of nasion, lpa, rpa was never assigned, the reader returns no record;
    it raises the [KeyError] of the first missing one. *)
Theorem missing_fiducial_fails :
  (∀ dig st,
     fif_loop dig = Ok st →
     fif_fids st !! "nasion" = None ∨ fif_fids st !! "lpa" = None ∨
     fif_fids st !! "rpa" = None →
     ∃ name, name ∈ ["nasion"; "lpa"; "rpa"] ∧
             fif_fids st !! name = None ∧
             read_fif dig false true = Err (KeyError (PyStr name))) ∧
  (∀ sensors _scaling w st,
     egi_loop vec3_mul _scaling egi_init sensors = (w, Ok st) →
     egi_fids st !! "nasion" = None ∨ egi_fids st !! "lpa" = None ∨
     egi_fids st !! "rpa" = None →
     ∃ name, name ∈ ["nasion"; "lpa"; "rpa"] ∧
             egi_fids st !! name = None ∧
             read_egi sensors _scaling true
             = (w, Err (KeyError (PyStr name)))).
Proof.
  split.
  - intros dig st Hloop Hmiss.
    destruct (fif_bunch_missing st Hmiss) as (name & Hin & Hnone & Hbunch).
    exists name. repeat (split; [done|]).
    unfold _read_dig_montage_fif. simpl. by rewrite Hloop.
  - intros sensors _scaling w st Hloop Hmiss.
    destruct (egi_bunch_missing st Hmiss) as (name & Hin & Hnone & Hbunch).
    exists name. repeat (split; [done|]).
    unfold _read_dig_montage_egi. simpl. by rewrite Hloop, Hbunch.
Qed.

End ReaderFacts.

(** * Further properties *)

(** ** The frame resolver, further *)

Section ResolverMore.

Context {vec3 trans : Type}.
Variable get_ras_to_neuromag_trans : vec3 → vec3 → vec3 → result (vec3:=vec3) trans.
Variable apply_trans : trans → vec3 → vec3.

Abbreviation to_head :=
  (_transform_to_head_call get_ras_to_neuromag_trans apply_trans).

(** [X1] A record that the resolver returns is in the head frame, and
    resolving it once more returns it as it is. *)
Theorem to_head_result_is_fixed (data b : Bunch (vec3:=vec3)) :
  to_head data = Ok b →
  coord_frame b = "head" ∧ to_head b = Ok b.
Proof.
  intros Hb.
  assert (coord_frame b = "head") as Hhead.
  { unfold _transform_to_head_call in Hb.
    case_decide as Hframe; [by injection Hb as <-|].
    destruct (resolve_landmarks data) as [[[[p_n p_l] p_r] data1]|]; [|done].
    simpl in Hb.
    destruct (get_ras_to_neuromag_trans p_n p_l p_r); [|done].
    by injection Hb as <-. }
  split; [done|]. unfold _transform_to_head_call. by rewrite decide_True.
Qed.

(** The three first occurrences are three different positions. *)
Lemma first_index_ne x y l i j :
  x ≠ y → first_index x l i → first_index y l j → i ≠ j.
Proof. intros Hne [Hi _] [Hj _] <-. congruence. Qed.

Lemma length_filter_zip_fst {A} (P : nat → Prop) `{!∀ i, Decision (P i)}
    (js : list nat) (l : list A) :
  length js = length l →
  length (filter (λ x, P x.1) (zip js l)) = length (filter P js).
Proof.
  revert l. induction js as [|j js IH]; intros [|a l] Hlen; try done.
  injection Hlen as Hlen. simpl. rewrite !filter_cons. simpl.
  case_decide; simpl; by rewrite IH.
Qed.

Lemma filter_elem_of_seq (ps : list nat) n :
  NoDup ps → (∀ p, p ∈ ps → (p < n)%nat) →
  filter (λ j, j ∈ ps) (seq 0 n) ≡ₚ ps.
Proof.
  intros Hnd Hlt. apply NoDup_Permutation; [|done|].
  - apply NoDup_filter, NoDup_seq.
  - intros j. rewrite list_elem_of_filter, elem_of_seq. split; [tauto|].
    intros Hj. split; [done|]. apply Hlt in Hj. lia.
Qed.

(** Dropping [k] different positions of [l] shortens it by [k]. *)
Lemma length_drop_positions {A} (ps : list nat) (l : list A) :
  NoDup ps → (∀ p, p ∈ ps → (p < length l)%nat) →
  (length (drop_positions ps l) + length ps = length l)%nat.
Proof.
  intros Hnd Hlt. unfold drop_positions, Py.enumerate.
  rewrite length_fmap.
  pose proof (length_filter_zip_fst (λ j, j ∉ ps) (seq 0 (length l)) l
                (length_seq _ _)) as Hzip.
  simpl in Hzip. rewrite Hzip. clear Hzip.
  rewrite <- (Permutation_length (filter_elem_of_seq ps (length l) Hnd Hlt)).
  pose proof (Permutation_length
                (filter_app_complement (λ j, j ∈ ps) (seq 0 (length l))))
    as Hsplit.
  rewrite length_app, length_seq in Hsplit. lia.
Qed.

Lemma filter_fmap_snd {A} (P : A → Prop) `{!∀ x, Decision (P x)}
    (L : list (nat * A)) :
  filter P (snd <$> L) = snd <$> filter (λ x, P x.2) L.
Proof.
  induction L as [|x L IH]; [done|].
  rewrite fmap_cons, !filter_cons, IH. by case_decide.
Qed.

Lemma enumerate_snd {A} (l : list A) : snd <$> Py.enumerate l = l.
Proof. unfold Py.enumerate. apply snd_zip. by rewrite length_seq. Qed.

(** The entries left are a sublist of [l]. *)
Lemma drop_positions_sublist {A} (ps : list nat) (l : list A) :
  drop_positions ps l `sublist_of` l.
Proof.
  unfold drop_positions. rewrite <- (enumerate_snd l) at 2.
  apply fmap_sublist, sublist_filter.
Qed.

(** Entries that satisfy [P] stay when no dropped position holds one. *)
Lemma filter_drop_positions {A} (P : A → Prop) `{!∀ x, Decision (P x)}
    (ps : list nat) (l : list A) :
  (∀ i x, i ∈ ps → l !! i = Some x → ¬ P x) →
  filter P (drop_positions ps l) = filter P l.
Proof.
  intros Hps. unfold drop_positions.
  rewrite filter_fmap_snd, list_filter_filter.
  rewrite <- (enumerate_snd l) at 2. rewrite filter_fmap_snd. f_equal.
  apply filter_iff_elem_of. intros [i x] Hin. simpl.
  apply enumerate_lookup in Hin. split; [tauto|].
  intros HP. split; [done|]. intros Hi. by eapply Hps.
Qed.

Lemma masked_fmap {A B} (f : A → B) mask (l : list A) :
  f <$> masked mask l = masked mask (f <$> l).
Proof.
  unfold masked, Py.enumerate. rewrite length_fmap.
  generalize (seq 0 (length l)). induction l as [|a l IH]; intros js.
  - by destruct js.
  - destruct js as [|j js]; [done|]. simpl. rewrite !filter_cons. simpl.
    case_decide; simpl; by rewrite IH.
Qed.

Lemma resolve_landmarks_partial (data : Bunch (vec3:=vec3)) :
  nasion data = None ∨ lpa data = None ∨ rpa data = None →
  resolve_landmarks data = fiducials_from_elp data.
Proof.
  intros Hpartial. unfold resolve_landmarks.
  destruct Hpartial as [->| [Hl | Hr]]; [done| |].
  - rewrite Hl. by repeat case_match.
  - rewrite Hr. by repeat case_match.
Qed.

Abbreviation is_fiducial_name :=
  (λ p : string, Py.lower p ∈ ["nasion"; "lpa"; "rpa"]).

Lemma enumerate_elem_of {A} (l : list A) j x :
  l !! j = Some x → (j, x) ∈ Py.enumerate l.
Proof.
  intros Hx. unfold Py.enumerate. apply list_elem_of_lookup. exists j.
  apply lookup_zip_with_Some. exists j, x. split; [done|]. split; [|done].
  apply lookup_seq. split; [done|]. by eapply lookup_lt_Some.
Qed.

(** [X3] What the extraction leaves: when the landmarks come from [elp],
    the positions removed are the first occurrences of nasion, lpa and rpa
    among the lowercased names, and only these: the returned [point_names]
    are the given ones without these three positions, the returned [elp]
    is the given one without these three positions, transformed, and an
    entry at any other position, a later occurrence of a fiducial name
    included, is still there.  So the returned [elp] and [point_names] are
    parallel, exactly three entries shorter than the given ones; the names
    left are a sublist of the given names and every name that is not a
    fiducial name, in whatever case, is still there, in order. *)
Theorem extraction_removes_three (data b : Bunch (vec3:=vec3)) :
  coord_frame data ≠ "head" →
  nasion data = None ∨ lpa data = None ∨ rpa data = None →
  to_head data = Ok b →
  ∃ e pn e' pn' i_n i_l i_r p_n p_l p_r t,
    elp data = Some e ∧ point_names data = Some pn ∧
    elp b = Some e' ∧ point_names b = Some pn' ∧
    first_index "nasion" (Py.lower <$> pn) i_n ∧
    first_index "lpa" (Py.lower <$> pn) i_l ∧
    first_index "rpa" (Py.lower <$> pn) i_r ∧
    e !! i_n = Some p_n ∧ e !! i_l = Some p_l ∧ e !! i_r = Some p_r ∧
    get_ras_to_neuromag_trans p_n p_l p_r = Ok t ∧
    pn' = drop_positions [i_n; i_l; i_r] pn ∧
    e' = apply_trans t <$> drop_positions [i_n; i_l; i_r] e ∧
    (∀ j x, j ∉ [i_n; i_l; i_r] → pn !! j = Some x → x ∈ pn') ∧
    (∀ j p, j ∉ [i_n; i_l; i_r] → e !! j = Some p → apply_trans t p ∈ e') ∧
    length e = length pn ∧ length e' = length pn' ∧
    (length pn' + 3 = length pn)%nat ∧
    pn' `sublist_of` pn ∧
    filter (λ p, ¬ is_fiducial_name p) pn'
    = filter (λ p, ¬ is_fiducial_name p) pn.
Proof.
  intros Hframe Hpartial Hb. unfold _transform_to_head_call in Hb.
  rewrite decide_False in Hb by done.
  rewrite resolve_landmarks_partial in Hb by done.
  destruct (fiducials_from_elp data) as [[[[p_n p_l] p_r] data1]|] eqn:Hfid;
    [|discriminate].
  simpl in Hb.
  destruct (get_ras_to_neuromag_trans p_n p_l p_r) as [t|] eqn:Ht;
    [|discriminate].
  injection Hb as <-.
  apply (fiducials_from_elp_Ok_inv get_ras_to_neuromag_trans) in Hfid
    as (e & pn & i_n & i_l & i_r & He & Hpn & Hlen & Hn & Hl & Hr
        & Hen & Hel & Her & ->).
  exists e, pn. eexists _, _. exists i_n, i_l, i_r, p_n, p_l, p_r, t.
  cbn [elp point_names].
  split; [done|]. split; [done|].
  split; [reflexivity|]. split; [reflexivity|].
  repeat (split; [done|]).
  split.
  { intros j x Hj Hx. unfold drop_positions. apply list_elem_of_fmap.
    exists (j, x). split; [done|]. apply list_elem_of_filter.
    split; [done|]. by apply enumerate_elem_of. }
  split.
  { intros j q Hj Hq. apply list_elem_of_fmap. exists q. split; [done|].
    unfold drop_positions. apply list_elem_of_fmap.
    exists (j, q). split; [done|]. apply list_elem_of_filter.
    split; [done|]. by apply enumerate_elem_of. }
  split; [done|].
  assert (NoDup [i_n; i_l; i_r]) as Hnd.
  { pose proof (first_index_ne "nasion" "lpa" _ _ _ ltac:(done) Hn Hl).
    pose proof (first_index_ne "nasion" "rpa" _ _ _ ltac:(done) Hn Hr).
    pose proof (first_index_ne "lpa" "rpa" _ _ _ ltac:(done) Hl Hr).
    repeat constructor; rewrite ?elem_of_cons, ?elem_of_nil; tauto. }
  assert (∀ p, p ∈ [i_n; i_l; i_r] → p < length e)%nat as Hlt.
  { intros p. rewrite !elem_of_cons, elem_of_nil.
    intros [->|[->|[->|[]]]]; by eapply lookup_lt_Some. }
  pose proof (length_drop_positions _ e Hnd Hlt) as Hle.
  rewrite Hlen in Hlt.
  pose proof (length_drop_positions _ pn Hnd Hlt) as Hlpn.
  simpl in Hle, Hlpn. rewrite length_fmap.
  split; [lia|]. split; [lia|]. split; [apply drop_positions_sublist|].
  apply filter_drop_positions. intros i x Hi Hx Hnot. apply Hnot.
  assert ((Py.lower <$> pn) !! i = Some (Py.lower x)) as Hlow
    by (by rewrite list_lookup_fmap, Hx).
  destruct Hn as [Hn _], Hl as [Hl _], Hr as [Hr _].
  rewrite !elem_of_cons, elem_of_nil in Hi.
  rewrite !elem_of_cons.
  destruct Hi as [->|[->|[->|[]]]];
    [left|right; left|right; right; left]; congruence.
Qed.

(** [X2] Bounds of the extraction: for a record that is not in the head
    frame and lacks a landmark, whose [point_names] hold the three names,
    an [elp] that has not the length of [point_names] makes the call raise
    [IndexError], on [data.elp[...]] or on the boolean mask. *)
Theorem elp_not_parallel_IndexError (data : Bunch (vec3:=vec3)) e pn :
  coord_frame data ≠ "head" →
  nasion data = None ∨ lpa data = None ∨ rpa data = None →
  elp data = Some e → point_names data = Some pn →
  filter (λ name, name ∉ Py.lower <$> pn) ["nasion"; "lpa"; "rpa"] = [] →
  length e ≠ length pn →
  to_head data = Err IndexError.
Proof.
  intros Hframe Hpartial He Hpn Hnil Hlen. unfold _transform_to_head_call.
  rewrite decide_False by done.
  rewrite resolve_landmarks_partial by done.
  unfold fiducials_from_elp. rewrite He, Hpn, Hnil.
  rewrite decide_False by (simpl; lia).
  assert (∀ k, k ∈ ["nasion"; "lpa"; "rpa"] →
            ∃ i, index (vec3:=vec3) k (Py.lower <$> pn) = Ok i) as Hkind.
  { intros k Hk. apply index_elem_of.
    by apply (filter_nil_elem_of _ _ Hnil). }
  destruct (Hkind "nasion") as [i_n ->]; [by left|].
  destruct (Hkind "lpa") as [i_l ->]; [by right; left|].
  destruct (Hkind "rpa") as [i_r ->]; [by do 2 right; left|].
  simpl. unfold getitem.
  destruct (e !! i_n); [|done]. simpl.
  destruct (e !! i_l); [|done]. simpl.
  destruct (e !! i_r); [|done]. simpl.
  unfold getitem_mask. rewrite decide_False; [done|].
  rewrite !length_insert, length_replicate, length_fmap. lia.
Qed.

(** [X4] The match of the names ignores case: two records that differ
    only in the case of the letters of [point_names] get the same outcome,
    the same exception or records that agree on every field, their
    [point_names] up to case. *)
Theorem fiducial_names_case_insensitive (data : Bunch (vec3:=vec3)) pn pn' :
  point_names data = Some pn →
  Py.lower <$> pn' = Py.lower <$> pn →
  match to_head data,
        to_head (mkBunch (nasion data) (lpa data) (rpa data) (hsp data)
                   (hpi data) (elp data) (Some pn') (dig_ch_pos data)
                   (coord_frame data)) with
  | Ok b, Ok b' =>
      nasion b' = nasion b ∧ lpa b' = lpa b ∧ rpa b' = rpa b ∧
      hsp b' = hsp b ∧ hpi b' = hpi b ∧ elp b' = elp b ∧
      dig_ch_pos b' = dig_ch_pos b ∧ coord_frame b' = coord_frame b ∧
      fmap (M:=list) Py.lower <$> point_names b'
      = fmap (M:=list) Py.lower <$> point_names b
  | Err e, Err e' => e = e'
  | _, _ => False
  end.
Proof.
  intros Hpn Hlow. unfold _transform_to_head_call. cbn [coord_frame].
  case_decide as Hframe.
  { rewrite Hpn. simpl. by rewrite Hlow. }
  unfold resolve_landmarks. cbn [nasion lpa rpa].
  destruct (nasion data) as [p_n|] eqn:Hn;
    [destruct (rpa data) as [p_r|] eqn:Hr;
       [destruct (lpa data) as [p_l|] eqn:Hl|]|].
  { simpl. destruct (get_ras_to_neuromag_trans p_n p_l p_r); [|done].
    simpl. rewrite Hpn. simpl. by rewrite Hlow. }
  all: unfold fiducials_from_elp; cbn [elp point_names nasion lpa rpa hsp hpi
                                         dig_ch_pos coord_frame];
    rewrite Hpn, Hlow; destruct (elp data) as [e|]; [|done];
    case_decide; [done|];
    repeat match goal with
           | |- context [mbind _ ?m] =>
               lazymatch m with
               | context [mbind] => fail
               | _ => destruct m; simpl; [|done]
               end
           end;
    repeat (split; [done|]); cbn [point_names fmap option_fmap option_map];
    by rewrite !masked_fmap, Hlow.
Qed.

End ResolverMore.

(** ** The binary-format reader, further *)

Section LoopMore.

Context {vec3 : Type}.

(** A property of the state that the body keeps holds when the loop ends. *)
Lemma for_each_invariant {S A} (body : S → A → result (vec3:=vec3) S)
    (I : S → Prop) l st st' :
  (∀ st x st', I st → body st x = Ok st' → I st') →
  I st → for_each body st l = Ok st' → I st'.
Proof.
  intros Hbody. revert st. induction l as [|x l IH]; intros st Hst.
  - by intros [= <-].
  - simpl. destruct (body st x) as [st1|] eqn:Hx; [|done]. simpl.
    apply IH. by eapply Hbody.
Qed.

(** The loop ends without an exception exactly when the body does at every
    item, whatever the state. *)
Lemma for_each_Forall_Ok {S A} (body : S → A → result (vec3:=vec3) S)
    (P : A → Prop) l st :
  (∀ st x, P x → ∃ st', body st x = Ok st') →
  Forall P l → ∃ st', for_each body st l = Ok st'.
Proof.
  intros Hbody Hl. revert st. induction Hl as [|x l Hx _ IH]; intros st.
  - by eexists.
  - simpl. destruct (Hbody st x Hx) as [st1 ->]. simpl. apply IH.
Qed.

Lemma for_each_Ok_Forall {S A} (body : S → A → result (vec3:=vec3) S)
    (P : A → Prop) l st st' :
  (∀ st x st', body st x = Ok st' → P x) →
  for_each body st l = Ok st' → Forall P l.
Proof.
  intros Hbody. revert st. induction l as [|x l IH]; intros st; [done|].
  simpl. destruct (body st x) as [st1|] eqn:Hx; [|done]. simpl.
  intros Hl. constructor; [by eapply Hbody|by eapply IH].
Qed.

End LoopMore.

Section FifMore.

Context {vec3 : Type}.
Variables FIFFV_POINT_CARDINAL FIFFV_POINT_HPI : Z.
Variables FIFFV_POINT_EXTRA FIFFV_POINT_EEG : Z.
Variables FIFFV_POINT_NASION FIFFV_POINT_LPA FIFFV_POINT_RPA : Z.
Variable _str_to_frame : string → Z.

Abbreviation table :=
  (_cardinal_ident_mapping FIFFV_POINT_NASION FIFFV_POINT_LPA FIFFV_POINT_RPA).
Abbreviation check_frame := (_check_frame (vec3:=vec3) _str_to_frame).
Abbreviation body :=
  (fif_body (vec3:=vec3) FIFFV_POINT_CARDINAL FIFFV_POINT_HPI
     FIFFV_POINT_EXTRA FIFFV_POINT_EEG
     FIFFV_POINT_NASION FIFFV_POINT_LPA FIFFV_POINT_RPA _str_to_frame).
Abbreviation read_fif :=
  (_read_dig_montage_fif (vec3:=vec3) FIFFV_POINT_CARDINAL FIFFV_POINT_HPI
     FIFFV_POINT_EXTRA FIFFV_POINT_EEG
     FIFFV_POINT_NASION FIFFV_POINT_LPA FIFFV_POINT_RPA _str_to_frame).
Abbreviation kinds :=
  [FIFFV_POINT_CARDINAL; FIFFV_POINT_HPI; FIFFV_POINT_EXTRA; FIFFV_POINT_EEG].

Lemma read_fif_Ok_inv dig f1 f2 b :
  read_fif dig f1 f2 = Ok b →
  f1 = false ∧ f2 = true ∧
  ∃ st, for_each body fif_init dig = Ok st ∧ fif_bunch st = Ok b.
Proof.
  unfold _read_dig_montage_fif. destruct f1; [done|]. destruct f2; [|done].
  simpl. destruct (for_each body fif_init dig) as [st|]; [|done]. simpl.
  intros Hb. repeat (split; [done|]). by exists st.
Qed.

(** [X8] In every record the binary reader returns, [point_names] has one
    label per [hpi] position and [elp], when present, is the same list of
    positions as [hpi]. *)
Theorem fif_hpi_elp_names_parallel dig f1 f2 b :
  read_fif dig f1 f2 = Ok b →
  ∃ h names,
    hpi b = Some h ∧ point_names b = Some names ∧
    length names = length h ∧ elp b = array_or_None h.
Proof.
  intros (_ & _ & st & Hloop & Hb)%read_fif_Ok_inv.
  apply fif_bunch_Ok_inv in Hb as ->.
  exists (fif_hpi st), (fif_point_names st). cbn [hpi point_names elp].
  repeat (split; [done|]).
  assert (fif_elp st = fif_hpi st ∧
          length (fif_point_names st) = length (fif_hpi st)) as [-> ->]; [|done].
  revert Hloop.
  apply (for_each_invariant body
           (λ st, fif_elp st = fif_hpi st ∧
                  length (fif_point_names st) = length (fif_hpi st)));
    [|done].
  clear. intros st d st' [Help Hlen] Hd. unfold fif_body in Hd.
  repeat case_decide;
    destruct (check_frame d "head"); simpl in Hd; try discriminate.
  - destruct (table !! d_ident d); [|discriminate]. by injection Hd as <-.
  - injection Hd as <-. simpl. rewrite !length_app, Help, Hlen. done.
  - by injection Hd as <-.
  - by injection Hd as <-.
  - by injection Hd as <-.
  - by injection Hd as <-.
Qed.

(** [X9] The outcome of the binary reader, record or exception, is the one
    obtained on the records of the four classified kinds alone. *)
Theorem fif_only_classified_kinds_matter dig f1 f2 :
  read_fif dig f1 f2 = read_fif (filter (λ d, d_kind d ∈ kinds) dig) f1 f2.
Proof.
  unfold _read_dig_montage_fif. destruct f1; [done|]. destruct f2; [|done].
  simpl. f_equal. generalize (fif_init (vec3:=vec3)).
  induction dig as [|d dig IH]; intros st; [done|].
  rewrite filter_cons. case_decide as Hk.
  - simpl. destruct (body st d); [|done]. simpl. apply IH.
  - simpl. rewrite fif_body_other by done. simpl. apply IH.
Qed.

Abbreviation acceptable :=
  (λ d : DigPoint (vec3:=vec3),
     d_kind d ∈ kinds →
     d_coord_frame d = _str_to_frame "head" ∧
     (d_kind d = FIFFV_POINT_CARDINAL →
      d_ident d ∈ [FIFFV_POINT_NASION; FIFFV_POINT_LPA; FIFFV_POINT_RPA])).

Lemma table_lookup_is_Some i :
  is_Some (table !! i) ↔
  i ∈ [FIFFV_POINT_NASION; FIFFV_POINT_LPA; FIFFV_POINT_RPA].
Proof.
  rewrite <- not_eq_None_Some, table_lookup_None.
  split; [apply dec_stable|tauto].
Qed.

Lemma fif_body_Ok_iff st (d : DigPoint (vec3:=vec3)) :
  (∃ st', body st d = Ok st') ↔ acceptable d.
Proof.
  destruct (decide (d_kind d ∈ kinds)) as [Hk|Hk].
  2: { rewrite fif_body_other by done. split; [tauto|by eexists]. }
  destruct (decide (d_coord_frame d = _str_to_frame "head")) as [Hf|Hf].
  2: { rewrite fif_body_frame_mismatch by done.
       split; [by intros [? ?]|]. intros Hacc. by destruct (Hacc Hk). }
  assert (check_frame d "head" = Ok ()) as Hcheck
    by (unfold _check_frame; by rewrite decide_True).
  destruct (decide (d_kind d = FIFFV_POINT_CARDINAL)) as [Hc|Hc].
  - rewrite fif_body_cardinal, Hcheck by done. simpl.
    destruct (table !! d_ident d) as [name|] eqn:Hname.
    + split; [|by eexists]. intros _ _. split; [done|]. intros _.
      apply table_lookup_is_Some. by rewrite Hname.
    + split; [by intros [? ?]|]. intros Hacc.
      destruct (Hacc Hk) as [_ Hident]. apply Hident in Hc.
      apply table_lookup_is_Some in Hc. rewrite Hname in Hc.
      by destruct Hc.
  - split; [tauto|]. intros _. unfold fif_body. rewrite Hcheck.
    rewrite (decide_False (P:=d_kind d = FIFFV_POINT_CARDINAL)) by done.
    repeat case_decide; by eexists.
Qed.

Lemma fif_body_fids st st' (d : DigPoint (vec3:=vec3)) :
  body st d = Ok st' →
  fif_fids st'
  = if decide (d_kind d = FIFFV_POINT_CARDINAL) then
      match table !! d_ident d with
      | Some name => <[name := d_r d]> (fif_fids st)
      | None => fif_fids st
      end
    else fif_fids st.
Proof.
  unfold fif_body. intros Hd.
  repeat case_decide;
    destruct (check_frame d "head"); simpl in Hd; try discriminate;
    try (by injection Hd as <-).
  destruct (table !! d_ident d); [|discriminate]. by injection Hd as <-.
Qed.

(** A fiducial is assigned exactly when a cardinal record selects it. *)
Lemma fif_fids_is_Some dig st name :
  for_each body fif_init dig = Ok st →
  is_Some (fif_fids st !! name) ↔
  ∃ d, d ∈ dig ∧ d_kind d = FIFFV_POINT_CARDINAL ∧
       table !! d_ident d = Some name.
Proof.
  revert st. induction dig as [|d dig IH] using rev_ind; intros st Hloop.
  { injection Hloop as <-. simpl. rewrite lookup_empty. split.
    - by intros [? ?].
    - intros (d & Hd & _). by apply elem_of_nil in Hd. }
  rewrite for_each_app in Hloop.
  destruct (for_each body fif_init dig) as [st0|]; [|discriminate].
  simpl in Hloop. destruct (body st0 d) as [st1|] eqn:Hd; [|discriminate].
  injection Hloop as <-. rewrite (fif_body_fids _ _ _ Hd).
  specialize (IH st0 eq_refl).
  assert ((∃ d0, d0 ∈ dig ++ [d] ∧ d_kind d0 = FIFFV_POINT_CARDINAL ∧
                 table !! d_ident d0 = Some name) ↔
          (∃ d0, d0 ∈ dig ∧ d_kind d0 = FIFFV_POINT_CARDINAL ∧
                 table !! d_ident d0 = Some name) ∨
          (d_kind d = FIFFV_POINT_CARDINAL ∧ table !! d_ident d = Some name))
    as ->.
  { split.
    - intros (d0 & Hin & Hd0). apply elem_of_app in Hin as [Hin|Hin].
      + left. by exists d0.
      + apply list_elem_of_singleton in Hin as ->. by right.
    - intros [(d0 & Hin & Hd0)|Hd0].
      + exists d0. split; [apply elem_of_app; by left|done].
      + exists d. split; [apply elem_of_app; right; by left|done]. }
  rewrite <- IH. case_decide as Hc; [|tauto].
  destruct (table !! d_ident d) as [name'|] eqn:Hname.
  - destruct (decide (name' = name)) as [->|Hne].
    + rewrite lookup_insert_eq. split; [by right|by eexists].
    + rewrite lookup_insert_ne by done. split; [tauto|].
      intros [?|[_ ?]]; [done|congruence].
  - split; [tauto|]. intros [?|[_ ?]]; [done|congruence].
Qed.

(** [X7] The binary reader returns a record exactly when the two flags
    allow the read, every record of a classified kind declares the head
    frame, every cardinal record has one of the three idents, and each of
    nasion, lpa, rpa is selected by some cardinal record. *)
Theorem fif_read_succeeds_iff dig f1 f2 :
  (∃ b, read_fif dig f1 f2 = Ok b) ↔
  f1 = false ∧ f2 = true ∧
  Forall acceptable dig ∧
  ∀ name, name ∈ ["nasion"; "lpa"; "rpa"] →
    ∃ d, d ∈ dig ∧ d_kind d = FIFFV_POINT_CARDINAL ∧
         table !! d_ident d = Some name.
Proof.
  split.
  - intros [b (-> & -> & st & Hloop & Hb)%read_fif_Ok_inv].
    repeat (split; [done|]). split.
    + eapply for_each_Ok_Forall; [|exact Hloop].
      intros st0 d st' Hd. apply (fif_body_Ok_iff st0). by eexists.
    + intros name Hname. apply (fif_fids_is_Some dig st name Hloop).
      apply fif_bunch_Ok_inv in Hb as Hb'.
      unfold fif_bunch, subscript in Hb.
      destruct (fif_fids st !! "nasion") eqn:Hn; [|discriminate].
      destruct (fif_fids st !! "lpa") eqn:Hl; [|discriminate].
      destruct (fif_fids st !! "rpa") eqn:Hr; [|discriminate].
      rewrite !elem_of_cons, elem_of_nil in Hname.
      destruct Hname as [->|[->|[->|[]]]]; by eexists.
  - intros (-> & -> & Hacc & Hfids).
    destruct (for_each_Forall_Ok body acceptable dig fif_init) as [st Hloop];
      [|done|].
    { intros st d Hd. by apply fif_body_Ok_iff. }
    unfold _read_dig_montage_fif. simpl. rewrite Hloop. simpl.
    unfold fif_bunch, subscript.
    destruct (proj2 (fif_fids_is_Some dig st "nasion" Hloop)) as [p_n ->];
      [apply Hfids; by left|].
    destruct (proj2 (fif_fids_is_Some dig st "lpa" Hloop)) as [p_l ->];
      [apply Hfids; right; by left|].
    destruct (proj2 (fif_fids_is_Some dig st "rpa" Hloop)) as [p_r ->];
      [apply Hfids; do 2 right; by left|].
    by eexists.
Qed.

End FifMore.

(** ** The XML-format reader, further *)

Section EgiMore.

Context {vec3 scalar : Type}.
Variable vec3_mul : vec3 → scalar → vec3.

Abbreviation step := (egi_body (vec3:=vec3) vec3_mul).
Abbreviation loop := (egi_loop (vec3:=vec3) vec3_mul).
Abbreviation read_egi := (_read_dig_montage_egi (vec3:=vec3) vec3_mul).

Lemma fid_name_map_lookup name fid :
  fid_name_map !! name = Some fid ↔
  (name = "Nasion" ∧ fid = "nasion") ∨
  (name = "Right periauricular point" ∧ fid = "rpa") ∨
  (name = "Left periauricular point" ∧ fid = "lpa").
Proof.
  unfold fid_name_map. rewrite !lookup_insert_Some, lookup_empty.
  split.
  - intros [[<- <-]|[_ [[<- <-]|[_ [[<- <-]|[_ ?]]]]]]; [tauto..|done].
  - intros [[-> ->]|[[-> ->]|[-> ->]]].
    + right. split; [done|]. right. split; [done|]. by left.
    + right. split; [done|]. by left.
    + by left.
Qed.

Lemma fid_name_map_is_Some name :
  is_Some (fid_name_map !! name) ↔
  name ∈ ["Nasion"; "Right periauricular point"; "Left periauricular point"].
Proof.
  rewrite !elem_of_cons, elem_of_nil. split.
  - intros [fid Hfid]. apply fid_name_map_lookup in Hfid. tauto.
  - intros [->|[->|[->|[]]]]; by eexists.
Qed.

(** What one sensor does to the two dicts. *)
Lemma egi_body_Ok _scaling st st' (s : Sensor (vec3:=vec3)) :
  (step _scaling st s).2 = Ok st' →
  (s_kind s = 0 ∧ egi_fids st' = egi_fids st ∧
   egi_dig_ch_pos st'
   = <[("EEG " +:+ Py.format_03d (s_number s))
       := vec3_mul (s_coordinates s) _scaling]> (egi_dig_ch_pos st)) ∨
  (s_kind s = 1 ∧ egi_fids st' = egi_fids st ∧
   egi_dig_ch_pos st'
   = <[("EEG " +:+ Py.format_03d (Z.of_nat (size (egi_dig_ch_pos st)) + 1))
       := vec3_mul (s_coordinates s) _scaling]> (egi_dig_ch_pos st)) ∨
  (s_kind s = 2 ∧ egi_dig_ch_pos st' = egi_dig_ch_pos st ∧
   ∃ fid, fid_name_map !! s_name s = Some fid ∧
          egi_fids st'
          = <[fid := vec3_mul (s_coordinates s) _scaling]> (egi_fids st)) ∨
  ((s_kind s ∉ [0; 1; 2]) ∧ st' = st).
Proof.
  unfold egi_body. intros Hs.
  destruct (decide (s_kind s = 0)) as [H0|H0];
    [injection Hs as <-; by left|].
  destruct (decide (s_kind s = 1)) as [H1|H1];
    [injection Hs as <-; right; by left|].
  destruct (decide (s_kind s = 2)) as [H2|H2].
  - destruct (fid_name_map !! s_name s) as [fid|] eqn:Hfid; [|discriminate].
    injection Hs as <-. do 2 right. left. repeat (split; [done|]).
    by exists fid.
  - injection Hs as <-. do 3 right. split; [|done].
    rewrite !not_elem_of_cons. repeat (split; [done|]). apply not_elem_of_nil.
Qed.

Lemma egi_body_Ok_iff _scaling st (s : Sensor (vec3:=vec3)) :
  (∃ st', (step _scaling st s).2 = Ok st') ↔
  (s_kind s = 2 →
   s_name s ∈ ["Nasion"; "Right periauricular point";
               "Left periauricular point"]).
Proof.
  rewrite <- fid_name_map_is_Some. unfold egi_body.
  destruct (decide (s_kind s = 0)) as [H0|H0];
    [split; [intros _ ?; exfalso; lia|by eexists]|].
  destruct (decide (s_kind s = 1)) as [H1|H1];
    [split; [intros _ ?; exfalso; lia|by eexists]|].
  destruct (decide (s_kind s = 2)) as [H2|H2]; [|split; [tauto|by eexists]].
  destruct (fid_name_map !! s_name s) as [fid|].
  - split; by eexists.
  - split; [by intros [? ?]|]. intros Hs. by destruct (Hs H2).
Qed.

Lemma egi_loop_cons _scaling st s (sensors : list (Sensor (vec3:=vec3))) :
  (loop _scaling st (s :: sensors)).2
  = match (step _scaling st s).2 with
    | Ok st' => (loop _scaling st' sensors).2
    | Err e => Err e
    end.
Proof.
  simpl. destruct (step _scaling st s) as [w [st'|e]]; [|done].
  simpl. by destruct (loop _scaling st' sensors).
Qed.

Lemma egi_loop_Ok_iff _scaling st (sensors : list (Sensor (vec3:=vec3))) :
  (∃ st', (loop _scaling st sensors).2 = Ok st') ↔
  Forall (λ s, s_kind s = 2 →
               s_name s ∈ ["Nasion"; "Right periauricular point";
                           "Left periauricular point"]) sensors.
Proof.
  revert st. induction sensors as [|s sensors IH]; intros st.
  { split; [done|by eexists]. }
  rewrite egi_loop_cons, Forall_cons, <- (egi_body_Ok_iff _scaling st s).
  destruct (step _scaling st s).2 as [st1|e] eqn:Hs.
  - rewrite IH. split; [|tauto]. intros ?. split; [by eexists|done].
  - split; [by intros [? ?]|]. by intros [[? ?] _].
Qed.

(** Where every stored position comes from. *)
Lemma egi_loop_provenance _scaling (sensors : list (Sensor (vec3:=vec3)))
    st st' :
  (loop _scaling st sensors).2 = Ok st' →
  (∀ k v, egi_dig_ch_pos st' !! k = Some v →
          egi_dig_ch_pos st !! k = Some v ∨
          ∃ s, s ∈ sensors ∧ s_kind s ∈ [0; 1] ∧
               v = vec3_mul (s_coordinates s) _scaling) ∧
  (∀ fid v, egi_fids st' !! fid = Some v →
            egi_fids st !! fid = Some v ∨
            ∃ s, s ∈ sensors ∧ s_kind s = 2 ∧
                 fid_name_map !! s_name s = Some fid ∧
                 v = vec3_mul (s_coordinates s) _scaling) ∧
  (∀ fid, is_Some (egi_fids st' !! fid) ↔
          is_Some (egi_fids st !! fid) ∨
          ∃ s, s ∈ sensors ∧ s_kind s = 2 ∧
               fid_name_map !! s_name s = Some fid).
Proof.
  revert st. induction sensors as [|s sensors IH]; intros st.
  { intros [= <-]. split; [by left|]. split; [by left|].
    intros fid. split; [by left|]. intros [?|(s & Hs & _)]; [done|].
    by apply elem_of_nil in Hs. }
  rewrite egi_loop_cons.
  destruct (step _scaling st s).2 as [st1|e] eqn:Hs; [|done].
  intros Hloop. destruct (IH st1 Hloop) as (Hdig & Hfids & Hsome). clear IH.
  apply egi_body_Ok in Hs.
  assert (∀ P : Sensor → Prop,
            (∃ s0, s0 ∈ sensors ∧ P s0) → ∃ s0, s0 ∈ s :: sensors ∧ P s0)
    as Hweak.
  { intros P (s0 & Hin & HP). exists s0. split; [by right|done]. }
  split; [|split].
  - intros k v Hv. destruct (Hdig k v Hv) as [Hst1|Hs0];
      [|right; by apply (Hweak (λ s0, _ ∧ _))].
    destruct Hs as [(Hk & _ & Hd)|[(Hk & _ & Hd)|[(_ & Hd & _)|(_ & ->)]]];
      rewrite ?Hd in Hst1; try (by left).
    + apply lookup_insert_Some in Hst1 as [[_ <-]|[_ ?]]; [|by left].
      right. exists s. rewrite Hk. split; [by left|]. split; [by left|done].
    + apply lookup_insert_Some in Hst1 as [[_ <-]|[_ ?]]; [|by left].
      right. exists s. rewrite Hk. split; [by left|].
      split; [right; by left|done].
  - intros fid v Hv. destruct (Hfids fid v Hv) as [Hst1|Hs0];
      [|right; by apply (Hweak (λ s0, _ ∧ _ ∧ _))].
    destruct Hs as [(_ & Hf & _)|[(_ & Hf & _)|[(Hk & _ & fid' & Hfid & Hf)|(_ & ->)]]];
      rewrite ?Hf in Hst1; try (by left).
    apply lookup_insert_Some in Hst1 as [[<- <-]|[_ ?]]; [|by left].
    right. exists s. split; [by left|done].
  - intros fid. rewrite Hsome. clear Hsome Hdig Hfids.
    assert ((∃ s0, s0 ∈ s :: sensors ∧ s_kind s0 = 2 ∧
                   fid_name_map !! s_name s0 = Some fid) ↔
            (s_kind s = 2 ∧ fid_name_map !! s_name s = Some fid) ∨
            (∃ s0, s0 ∈ sensors ∧ s_kind s0 = 2 ∧
                   fid_name_map !! s_name s0 = Some fid)) as ->.
    { split.
      - intros (s0 & Hin & Hs0). apply elem_of_cons in Hin as [->|Hin];
          [by left|right; by exists s0].
      - intros [Hs0|(s0 & Hin & Hs0)];
          [exists s; split; [by left|done]
          |exists s0; split; [by right|done]]. }
    assert (is_Some (egi_fids st1 !! fid) ↔
            is_Some (egi_fids st !! fid) ∨
            (s_kind s = 2 ∧ fid_name_map !! s_name s = Some fid)) as ->;
      [|tauto].
    destruct Hs as [(Hk & Hf & _)|[(Hk & Hf & _)|[(Hk & _ & fid' & Hfid & Hf)|(Hk & ->)]]];
      rewrite ?Hf.
    + split; [tauto|]. intros [?|[? _]]; [done|exfalso; lia].
    + split; [tauto|]. intros [?|[? _]]; [done|exfalso; lia].
    + destruct (decide (fid' = fid)) as [->|Hne].
      * rewrite lookup_insert_eq. split; [intros _; by right|intros _; by eexists].
      * rewrite lookup_insert_ne by done. split; [tauto|].
        intros [?|[_ ?]]; [done|congruence].
    + split; [tauto|]. intros [?|[Hk2 _]]; [done|].
      exfalso. apply Hk. rewrite Hk2. do 2 right. by left.
Qed.

Lemma read_egi_snd sensors _scaling :
  (read_egi sensors _scaling true).2
  = match (loop _scaling egi_init sensors).2 with
    | Ok st => egi_bunch st
    | Err e => Err e
    end.
Proof.
  unfold _read_dig_montage_egi. simpl.
  by destruct (loop _scaling egi_init sensors) as [w [st|e]].
Qed.

Lemma fid_name_map_fid name :
  (fid_name_map !! name = Some "nasion" ↔ name = "Nasion") ∧
  (fid_name_map !! name = Some "lpa" ↔ name = "Left periauricular point") ∧
  (fid_name_map !! name = Some "rpa" ↔ name = "Right periauricular point").
Proof.
  rewrite !fid_name_map_lookup. repeat split.
  - intros [[? _]|[[_ ?]|[_ ?]]]; done.
  - intros ->. by left.
  - intros [[_ ?]|[[_ ?]|[? _]]]; done.
  - intros ->. do 2 right. done.
  - intros [[_ ?]|[[? _]|[_ ?]]]; done.
  - intros ->. right. by left.
Qed.

(** [X11] The XML reader returns a record exactly when the flag allows the
    read, every sensor of kind 2 bears one of the three fiducial names,
    spelled as in [fid_name_map], and each of the three names is borne by
    some sensor of kind 2. *)
Theorem egi_read_succeeds_iff sensors _scaling flag :
  (∃ b, (read_egi sensors _scaling flag).2 = Ok b) ↔
  flag = true ∧
  Forall (λ s, s_kind s = 2 →
               s_name s ∈ ["Nasion"; "Right periauricular point";
                           "Left periauricular point"]) sensors ∧
  (∃ s, s ∈ sensors ∧ s_kind s = 2 ∧ s_name s = "Nasion") ∧
  (∃ s, s ∈ sensors ∧ s_kind s = 2 ∧
        s_name s = "Left periauricular point") ∧
  (∃ s, s ∈ sensors ∧ s_kind s = 2 ∧
        s_name s = "Right periauricular point").
Proof.
  destruct flag; [|split; [by intros [? ?]|by intros [? _]]].
  rewrite read_egi_snd, <- (egi_loop_Ok_iff _scaling egi_init sensors).
  assert (∀ st fid,
            (loop _scaling egi_init sensors).2 = Ok st →
            is_Some (egi_fids st !! fid) ↔
            ∃ s, s ∈ sensors ∧ s_kind s = 2 ∧
                 fid_name_map !! s_name s = Some fid) as Hfid.
  { intros st fid Hloop.
    destruct (egi_loop_provenance _scaling sensors _ _ Hloop) as (_ & _ & ->).
    simpl. rewrite lookup_empty. split; [|tauto].
    intros [[? ?]|?]; done. }
  assert ((∃ s, s ∈ sensors ∧ s_kind s = 2 ∧
                fid_name_map !! s_name s = Some "nasion") ↔
          (∃ s, s ∈ sensors ∧ s_kind s = 2 ∧ s_name s = "Nasion")) as Hn.
  { by setoid_rewrite (proj1 (fid_name_map_fid _)). }
  assert ((∃ s, s ∈ sensors ∧ s_kind s = 2 ∧
                fid_name_map !! s_name s = Some "lpa") ↔
          (∃ s, s ∈ sensors ∧ s_kind s = 2 ∧
                s_name s = "Left periauricular point")) as Hl.
  { by setoid_rewrite (proj1 (proj2 (fid_name_map_fid _))). }
  assert ((∃ s, s ∈ sensors ∧ s_kind s = 2 ∧
                fid_name_map !! s_name s = Some "rpa") ↔
          (∃ s, s ∈ sensors ∧ s_kind s = 2 ∧
                s_name s = "Right periauricular point")) as Hr.
  { by setoid_rewrite (proj2 (proj2 (fid_name_map_fid _))). }
  rewrite <- Hn, <- Hl, <- Hr. clear Hn Hl Hr.
  destruct (loop _scaling egi_init sensors).2 as [st|e] eqn:Hloop.
  - rewrite <- !(Hfid st) by done. unfold egi_bunch, subscript. split.
    + intros [b Hb]. split; [done|]. split; [by eexists|].
      destruct (egi_fids st !! "nasion"); [|discriminate].
      destruct (egi_fids st !! "lpa"); [|discriminate].
      destruct (egi_fids st !! "rpa"); [|discriminate].
      by repeat split.
    + intros (_ & _ & [p_n ->] & [p_l ->] & [p_r ->]). by eexists.
  - split; [by intros [? ?]|]. by intros (_ & [? ?] & _).
Qed.

(** [X12] Every position in a record the XML reader returns is the
    coordinate triple of a sensor multiplied by the scale factor: a sensor
    of kind 0 or 1 for a value of [dig_ch_pos], the sensor of kind 2 with
    the matching name for a fiducial. *)
Theorem egi_positions_are_scaled_coordinates sensors _scaling flag w b :
  read_egi sensors _scaling flag = (w, Ok b) →
  (∀ m k v, dig_ch_pos b = Some m → m !! k = Some v →
     ∃ s, s ∈ sensors ∧ s_kind s ∈ [0; 1] ∧
          v = vec3_mul (s_coordinates s) _scaling) ∧
  (∀ v, nasion b = Some v →
     ∃ s, s ∈ sensors ∧ s_kind s = 2 ∧ s_name s = "Nasion" ∧
          v = vec3_mul (s_coordinates s) _scaling) ∧
  (∀ v, lpa b = Some v →
     ∃ s, s ∈ sensors ∧ s_kind s = 2 ∧
          s_name s = "Left periauricular point" ∧
          v = vec3_mul (s_coordinates s) _scaling) ∧
  (∀ v, rpa b = Some v →
     ∃ s, s ∈ sensors ∧ s_kind s = 2 ∧
          s_name s = "Right periauricular point" ∧
          v = vec3_mul (s_coordinates s) _scaling).
Proof.
  intros (st & Hloop & Hb)%read_egi_Ok_inv.
  apply egi_bunch_Ok_inv in Hb as ->.
  apply (f_equal snd) in Hloop. simpl in Hloop.
  destruct (egi_loop_provenance _scaling sensors _ _ Hloop)
    as (Hdig & Hfids & _).
  cbn [dig_ch_pos nasion lpa rpa]. split; [|split; [|split]].
  - intros m k v [= <-] Hv. destruct (Hdig k v Hv) as [Hinit|?]; [|done].
    simpl in Hinit. by rewrite lookup_empty in Hinit.
  - intros v Hv. destruct (Hfids _ v Hv) as [Hinit|(s & ? & ? & Hname & ?)].
    { simpl in Hinit. by rewrite lookup_empty in Hinit. }
    apply fid_name_map_fid in Hname. by exists s.
  - intros v Hv. destruct (Hfids _ v Hv) as [Hinit|(s & ? & ? & Hname & ?)].
    { simpl in Hinit. by rewrite lookup_empty in Hinit. }
    apply fid_name_map_fid in Hname. by exists s.
  - intros v Hv. destruct (Hfids _ v Hv) as [Hinit|(s & ? & ? & Hname & ?)].
    { simpl in Hinit. by rewrite lookup_empty in Hinit. }
    apply fid_name_map_fid in Hname. by exists s.
Qed.

End EgiMore.

(** ** ['%03d'] *)

(** The decimal form of a positive number starts with a digit that is not
    ['0']. *)
Lemma pretty_N_go_leading (x : N) s :
  (0 < x)%N →
  ∃ c r, pretty_N_go x s = String c r ∧ String c "" ≠ "0".
Proof.
  revert s. induction (N.lt_wf_0 x) as [x _ IH]; intros s Hx.
  rewrite pretty_N_go_step by done.
  destruct (decide (x < 10)%N) as [Hlt|Hge].
  - rewrite N.div_small, pretty_N_go_0 by done. rewrite N.mod_small by done.
    eexists _, _. split; [done|].
    destruct x as [|p]; [lia|]. unfold pretty_N_char.
    by repeat case_match.
  - apply IH; [apply N.div_lt; lia|].
    apply N.div_str_pos. lia.
Qed.

Lemma pretty_N_leading_zero (x : N) r : pretty x = "0" +:+ r → x = 0%N.
Proof.
  unfold pretty, pretty_N. case_decide as Hx; [done|].
  destruct (pretty_N_go_leading x "") as (c & r' & -> & Hc); [lia|].
  simpl. by intros [= -> _].
Qed.

Lemma pretty_N_nonempty (x : N) : pretty x ≠ "".
Proof.
  unfold pretty, pretty_N. case_decide as Hx; [done|].
  destruct (pretty_N_go_leading x "") as (c & r' & -> & Hc); [lia|]. done.
Qed.

Lemma zeros_app_inv m n a b :
  (m ≤ n)%nat → Py.zeros m +:+ a = Py.zeros n +:+ b →
  a = Py.zeros (n - m) +:+ b.
Proof.
  revert n. induction m as [|m IH]; intros n Hle.
  - by rewrite Nat.sub_0_r.
  - destruct n as [|n]; [lia|]. simpl. intros [= Heq]. apply IH; [lia|done].
Qed.

Lemma zfill_pretty_N_inj w (x y : N) :
  Py.zfill w (pretty x) = Py.zfill w (pretty y) → x = y.
Proof.
  assert (∀ (x y : N) k b,
            pretty x = Py.zeros k +:+ b → b = pretty y → x = y) as Hpad.
  { intros x' y' k b Hx ->. destruct k as [|k].
    - by apply (inj pretty).
    - simpl in Hx. pose proof (pretty_N_leading_zero _ _ Hx) as ->.
      injection Hx as Hx. symmetry in Hx.
      destruct (Py.zeros k) eqn:Hz.
      + simpl in Hx. by destruct (pretty_N_nonempty y').
      + done. }
  unfold Py.zfill. intros Heq.
  destruct (decide (w - String.length (pretty x)
                    ≤ w - String.length (pretty y))%nat) as [Hle|Hgt].
  - apply zeros_app_inv in Heq; [|done]. by eapply Hpad.
  - symmetry in Heq. apply zeros_app_inv in Heq; [|lia].
    symmetry. by eapply Hpad.
Qed.

Lemma pretty_Z_nonneg (z : Z) : 0 ≤ z → pretty z = pretty (Z.to_N z).
Proof. intros Hz. destruct z as [|p|p]; [done|done|lia]. Qed.

Lemma zeros_dash n a r : Py.zeros n +:+ a = "-" +:+ r → a = "-" +:+ r.
Proof. by destruct n. Qed.

Lemma pretty_N_not_dash (x : N) r : pretty x ≠ "-" +:+ r.
Proof.
  unfold pretty, pretty_N. case_decide; [done|].
  by apply (pretty_N_go_ne_dash x "" r).
Qed.

(** ['%03d' % z] determines [z]. *)
Global Instance format_03d_inj : Inj (=) (=) Py.format_03d.
Proof.
  intros x y. unfold Py.format_03d.
  destruct (decide (x < 0)) as [Hx|Hx], (decide (y < 0)) as [Hy|Hy].
  - rewrite !pretty_Z_nonneg by lia. intros [= Heq].
    apply zfill_pretty_N_inj in Heq. lia.
  - rewrite (pretty_Z_nonneg y) by lia. intros Heq. symmetry in Heq.
    apply zeros_dash in Heq. by destruct (pretty_N_not_dash _ _ Heq).
  - rewrite (pretty_Z_nonneg x) by lia. intros Heq.
    apply zeros_dash in Heq. by destruct (pretty_N_not_dash _ _ Heq).
  - rewrite !pretty_Z_nonneg by lia. intros Heq.
    apply zfill_pretty_N_inj in Heq. lia.
Qed.

Lemma NoDup_formatted (pre : string) (l : list Z) :
  NoDup l → NoDup ((λ z, pre +:+ Py.format_03d z) <$> l).
Proof.
  apply NoDup_fmap_2. intros x y Heq. apply (inj Py.format_03d).
  induction pre as [|c pre IH]; [done|]. injection Heq as Heq. by apply IH.
Qed.

(** ** Dicts filled by assignment *)

Section LastWins.

Context {A V : Type}.
Variable key : A → string.
Variable val : A → V.

Lemma filter_key_absent (l : list A) k :
  k ∉ key <$> l → filter (λ y, key y = k) l = [].
Proof.
  induction l as [|a l IH]; [done|].
  rewrite fmap_cons, not_elem_of_cons. intros [Hne Hk].
  rewrite filter_cons, decide_False by congruence. by apply IH.
Qed.

Lemma filter_key_unique (l : list A) x :
  NoDup (key <$> l) → x ∈ l → filter (λ y, key y = key x) l = [x].
Proof.
  induction l as [|a l IH]; intros Hnd Hx; [by apply elem_of_nil in Hx|].
  rewrite fmap_cons in Hnd. apply NoDup_cons in Hnd as [Ha Hnd].
  rewrite filter_cons. apply elem_of_cons in Hx as [->|Hx].
  - rewrite decide_True by done. by rewrite filter_key_absent.
  - rewrite decide_False; [by apply IH|].
    intros Heq. apply Ha. rewrite Heq. by apply list_elem_of_fmap_2.
Qed.

(** When the keys of the items are pairwise different, the dict has one
    entry per item and every item is found under its key. *)
Lemma last_wins_no_loss (m : gmap string V) (l : list A) :
  (∀ k, m !! k = val <$> last (filter (λ x, key x = k) l)) →
  NoDup (key <$> l) →
  size m = length l ∧ ∀ x, x ∈ l → m !! key x = Some (val x).
Proof.
  intros Hm Hnd. split.
  - rewrite <- size_dom.
    assert (dom m = list_to_set (key <$> l)) as ->.
    { apply set_eq. intros k.
      rewrite elem_of_dom, Hm, elem_of_list_to_set, list_elem_of_fmap.
      rewrite fmap_is_Some, last_is_Some. split.
      - intros Hne. destruct (filter (λ x, key x = k) l) as [|x l'] eqn:Hf;
          [done|].
        assert (x ∈ filter (λ x, key x = k) l) as Hx by (rewrite Hf; by left).
        apply list_elem_of_filter in Hx as [Hk Hx]. by exists x.
      - intros (x & -> & Hx) Hnil.
        by apply (filter_nil_not_elem_of _ _ x Hnil). }
    rewrite size_list_to_set by done. by rewrite length_fmap.
  - intros x Hx. by rewrite Hm, filter_key_unique.
Qed.

End LastWins.

Section FifKeys.

Context {vec3 : Type}.
Variables FIFFV_POINT_CARDINAL FIFFV_POINT_HPI : Z.
Variables FIFFV_POINT_EXTRA FIFFV_POINT_EEG : Z.
Variables FIFFV_POINT_NASION FIFFV_POINT_LPA FIFFV_POINT_RPA : Z.
Variable _str_to_frame : string → Z.

Abbreviation body :=
  (fif_body (vec3:=vec3) FIFFV_POINT_CARDINAL FIFFV_POINT_HPI
     FIFFV_POINT_EXTRA FIFFV_POINT_EEG
     FIFFV_POINT_NASION FIFFV_POINT_LPA FIFFV_POINT_RPA _str_to_frame).
Abbreviation read_fif :=
  (_read_dig_montage_fif (vec3:=vec3) FIFFV_POINT_CARDINAL FIFFV_POINT_HPI
     FIFFV_POINT_EXTRA FIFFV_POINT_EEG
     FIFFV_POINT_NASION FIFFV_POINT_LPA FIFFV_POINT_RPA _str_to_frame).
Abbreviation kinds :=
  [FIFFV_POINT_CARDINAL; FIFFV_POINT_HPI; FIFFV_POINT_EXTRA; FIFFV_POINT_EEG].

Hypothesis kinds_distinct : NoDup kinds.

(** [X10] Keys and labels of the binary reader: when the EEG records have
    pairwise different idents, [dig_ch_pos] has one entry per EEG record
    and holds the position of each under ["EEG%03d" % ident]; when the
    HPI records have pairwise different idents, the labels in
    [point_names] are pairwise different. *)
Theorem fif_distinct_idents_no_loss (dig : list (DigPoint (vec3:=vec3))) b :
  read_fif dig false true = Ok b →
  ∃ m names,
    dig_ch_pos b = Some m ∧ point_names b = Some names ∧
    (NoDup (d_ident <$> filter (λ d, d_kind d = FIFFV_POINT_EEG) dig) →
     size m = length (filter (λ d, d_kind d = FIFFV_POINT_EEG) dig) ∧
     ∀ d, d ∈ dig → d_kind d = FIFFV_POINT_EEG →
          m !! ("EEG" +:+ Py.format_03d (d_ident d)) = Some (d_r d)) ∧
    (NoDup (d_ident <$> filter (λ d, d_kind d = FIFFV_POINT_HPI) dig) →
     NoDup names).
Proof.
  intros Hread. rewrite read_fif_eq in Hread.
  destruct (for_each body fif_init dig) as [st|] eqn:Hloop; [|discriminate].
  simpl in Hread. apply fif_bunch_Ok_inv in Hread as ->.
  destruct (fif_loop_spec _ _ _ _ _ _ _ _ kinds_distinct dig st Hloop)
    as (_ & _ & _ & Hnames & Hdig & _).
  exists (fif_dig_ch_pos st), (fif_point_names st).
  cbn [dig_ch_pos point_names]. repeat (split; [done|]). split.
  - intros Hnd.
    destruct (last_wins_no_loss
                (λ d : DigPoint, "EEG" +:+ Py.format_03d (d_ident d)) d_r
                (fif_dig_ch_pos st)
                (filter (λ d, d_kind d = FIFFV_POINT_EEG) dig))
      as [Hsize Hlookup].
    + intros k. rewrite Hdig, list_filter_filter. do 2 f_equal.
      apply list_filter_iff. intros d. tauto.
    + apply (NoDup_formatted "EEG") in Hnd.
      by rewrite <- list_fmap_compose in Hnd.
    + split; [done|]. intros d Hd Hk. apply Hlookup.
      by apply list_elem_of_filter.
  - intros Hnd. rewrite Hnames. apply (NoDup_formatted "HPI") in Hnd.
    by rewrite <- list_fmap_compose in Hnd.
Qed.

End FifKeys.

Section EgiLayout.

Context {vec3 scalar : Type}.
Variable vec3_mul : vec3 → scalar → vec3.

Abbreviation step := (egi_body (vec3:=vec3) vec3_mul).
Abbreviation loop := (egi_loop (vec3:=vec3) vec3_mul).
Abbreviation read_egi := (_read_dig_montage_egi (vec3:=vec3) vec3_mul).
Abbreviation channel_key :=
  (λ s : Sensor (vec3:=vec3), "EEG " +:+ Py.format_03d (s_number s)).

Lemma filter_nil_intro {A} (P : A → Prop) `{!∀ x, Decision (P x)} l :
  (∀ x, x ∈ l → ¬ P x) → filter P l = [].
Proof.
  induction l as [|a l IH]; intros Hl; [done|].
  rewrite filter_cons, decide_False by (apply Hl; by left).
  apply IH. intros x Hx. apply Hl. by right.
Qed.

Lemma egi_loop_app _scaling st (l1 l2 : list (Sensor (vec3:=vec3))) :
  (loop _scaling st (l1 ++ l2)).2
  = match (loop _scaling st l1).2 with
    | Ok st' => (loop _scaling st' l2).2
    | Err e => Err e
    end.
Proof.
  revert st. induction l1 as [|s l1 IH]; intros st; [done|].
  rewrite <- app_comm_cons, !(egi_loop_cons vec3_mul).
  destruct (step _scaling st s).2; [apply IH|done].
Qed.

(** Without a reference sensor, [dig_ch_pos] holds at each key the scaled
    coordinates of the last EEG channel with that key. *)
Lemma egi_channels_spec _scaling (sensors : list (Sensor (vec3:=vec3))) st :
  Forall (λ s, s_kind s ≠ 1) sensors →
  (loop _scaling egi_init sensors).2 = Ok st →
  ∀ k, egi_dig_ch_pos st !! k
       = (λ s, vec3_mul (s_coordinates s) _scaling)
           <$> last (filter (λ s, s_kind s = 0 ∧ channel_key s = k) sensors).
Proof.
  revert st. induction sensors as [|s sensors IH] using rev_ind;
    intros st Hkinds Hloop k.
  { injection Hloop as <-. simpl. by rewrite lookup_empty. }
  apply Forall_app in Hkinds as [Hkinds Hs].
  apply (proj1 (Forall_singleton _ _)) in Hs.
  rewrite egi_loop_app in Hloop.
  destruct (loop _scaling egi_init sensors).2 as [st0|]; [|discriminate].
  rewrite (egi_loop_cons vec3_mul) in Hloop.
  destruct (step _scaling st0 s).2 as [st1|] eqn:Hstep; [|discriminate].
  injection Hloop as <-. rewrite last_filter_snoc.
  specialize (IH st0 Hkinds eq_refl k).
  apply (egi_body_Ok vec3_mul) in Hstep
    as [(Hk & _ & ->)|[(Hk & _)|[(Hk & -> & _)|(Hk & ->)]]].
  - destruct (decide (channel_key s = k)) as [<-|Hne].
    + rewrite decide_True by done. by rewrite lookup_insert_eq.
    + rewrite decide_False by tauto. by rewrite lookup_insert_ne.
  - by destruct (Hs Hk).
  - rewrite decide_False; [done|]. intros [? _]. lia.
  - rewrite decide_False; [done|]. intros [H0 _]. apply Hk. rewrite H0.
    by left.
Qed.

Lemma egi_loop_keeps_dig_ch_pos _scaling (sensors : list (Sensor (vec3:=vec3)))
    st st' :
  Forall (λ s, s_kind s ∉ [0; 1]) sensors →
  (loop _scaling st sensors).2 = Ok st' →
  egi_dig_ch_pos st' = egi_dig_ch_pos st.
Proof.
  revert st. induction sensors as [|s sensors IH]; intros st Hkinds.
  { by intros [= <-]. }
  apply Forall_cons in Hkinds as [Hs Hkinds].
  rewrite (egi_loop_cons vec3_mul).
  destruct (step _scaling st s).2 as [st1|] eqn:Hstep; [|done].
  intros Hloop. rewrite (IH st1 Hkinds Hloop).
  rewrite !not_elem_of_cons in Hs. destruct Hs as (H0 & H1 & _).
  apply (egi_body_Ok vec3_mul) in Hstep
    as [(Hk & _)|[(Hk & _)|[(Hk & -> & _)|(Hk & ->)]]]; done.
Qed.

(** [X13] The reference channel after the EEG channels: when the sensors
    before the reference sensor hold no other reference, their EEG channels
    have pairwise different numbers, none of them the count of EEG channels
    plus one, and no EEG or reference sensor follows, then [dig_ch_pos] has
    one entry per EEG channel plus one; the reference is stored under
    ["EEG %03d" % (count + 1)] and every EEG channel under its own key. *)
Theorem egi_reference_after_channels _scaling flag w b
    (pre post : list (Sensor (vec3:=vec3))) ref :
  Forall (λ s, s_kind s ≠ 1) pre →
  s_kind ref = 1 →
  Forall (λ s, s_kind s ∉ [0; 1]) post →
  NoDup (s_number <$> filter (λ s, s_kind s = 0) pre) →
  (∀ s, s ∈ pre → s_kind s = 0 →
        s_number s
        ≠ Z.of_nat (length (filter (λ s, s_kind s = 0) pre)) + 1) →
  read_egi (pre ++ ref :: post) _scaling flag = (w, Ok b) →
  ∃ m, dig_ch_pos b = Some m ∧
    size m = S (length (filter (λ s, s_kind s = 0) pre)) ∧
    m !! ("EEG " +:+ Py.format_03d
            (Z.of_nat (length (filter (λ s, s_kind s = 0) pre)) + 1))
    = Some (vec3_mul (s_coordinates ref) _scaling) ∧
    ∀ s, s ∈ pre → s_kind s = 0 →
         m !! ("EEG " +:+ Py.format_03d (s_number s))
         = Some (vec3_mul (s_coordinates s) _scaling).
Proof.
  intros Hpre Href Hpost Hnd Hfree (st & Hloop & Hb)%read_egi_Ok_inv.
  apply egi_bunch_Ok_inv in Hb as ->. eexists. split; [done|].
  apply (f_equal snd) in Hloop. simpl in Hloop.
  rewrite egi_loop_app in Hloop.
  destruct (loop _scaling egi_init pre).2 as [st0|] eqn:Hst0; [|discriminate].
  rewrite (egi_loop_cons vec3_mul) in Hloop.
  destruct (step _scaling st0 ref).2 as [st1|] eqn:Hstep; [|discriminate].
  rewrite (egi_loop_keeps_dig_ch_pos _ _ _ _ Hpost Hloop). clear Hloop.
  pose proof (egi_channels_spec _scaling pre st0 Hpre Hst0) as Hspec.
  destruct (last_wins_no_loss channel_key
              (λ s, vec3_mul (s_coordinates s) _scaling)
              (egi_dig_ch_pos st0) (filter (λ s, s_kind s = 0) pre))
    as [Hsize Hlookup].
  { intros k. rewrite Hspec, list_filter_filter. do 2 f_equal.
    apply list_filter_iff. intros s. tauto. }
  { apply (NoDup_formatted "EEG ") in Hnd.
    by rewrite <- list_fmap_compose in Hnd. }
  apply (egi_body_Ok vec3_mul) in Hstep
    as [(Hk & _)|[(_ & _ & ->)|[(Hk & _)|(Hk & _)]]]; [lia| |lia|].
  2: { exfalso. apply Hk. rewrite Href. right. by left. }
  rewrite Hsize.
  set (n := Z.of_nat (length (filter (λ s, s_kind s = 0) pre)) + 1) in *.
  assert (egi_dig_ch_pos st0 !! ("EEG " +:+ Py.format_03d n) = None)
    as Hfresh.
  { rewrite Hspec. apply fmap_None, last_None, filter_nil_intro.
    intros s Hs [Hk Hkey].
    injection Hkey as Hkey. apply (inj Py.format_03d) in Hkey.
    by apply (Hfree s). }
  split; [|split].
  - rewrite map_size_insert_None by done. by rewrite Hsize.
  - apply lookup_insert_eq.
  - intros s Hs Hk. rewrite lookup_insert_ne.
    + apply Hlookup. by apply list_elem_of_filter.
    + intros Hkey. injection Hkey as Hkey. apply (inj Py.format_03d) in Hkey.
      by apply (Hfree s).
Qed.

End EgiLayout.

(** ** Namespace discovery and composition *)

Section NamespaceFacts.

Context {vec3 : Type}.

Lemma prefix_nil s : String.prefix "" s = true.
Proof. by destruct s. Qed.

Lemma append_assoc s t u : (s +:+ t) +:+ u = s +:+ t +:+ u.
Proof.
  induction s as [|c s IH]; [done|]. rewrite !append_cons. by rewrite IH.
Qed.

Lemma append_single c t : String c "" +:+ t = String c t.
Proof. done. Qed.

Lemma str_find_head c s : str_find (String c "") (String c s) = Some 0%nat.
Proof.
  cbn [str_find String.prefix].
  destruct (Ascii.ascii_dec c c); [by rewrite prefix_nil|done].
Qed.

Lemma str_find_cons_ne c d s :
  c ≠ d →
  str_find (String c "") (String d s) = S <$> str_find (String c "") s.
Proof.
  intros Hne. cbn [str_find String.prefix].
  by destruct (Ascii.ascii_dec c d).
Qed.

Lemma str_find_closing uri rest :
  str_find "}" uri = None →
  str_find "}" (uri +:+ "}" +:+ rest) = Some (String.length uri).
Proof.
  induction uri as [|c uri IH].
  { intros _. by rewrite append_nil, append_single, str_find_head. }
  rewrite append_cons. cbn [str_find String.prefix String.length].
  destruct (Ascii.ascii_dec _ c) as [Hc|Hc].
  { by rewrite prefix_nil. }
  destruct (str_find "}" uri); [done|]. intros _. by rewrite IH.
Qed.

Lemma substring_prefix s rest :
  String.substring 0 (String.length s) (s +:+ rest) = s.
Proof.
  induction s as [|c s IH]; [by destruct rest|].
  rewrite append_cons. simpl. by rewrite IH.
Qed.

(** [X14] Namespace discovery: for a root tag ["{uri}local"] whose [uri]
    holds no closing brace, the namespace is ["{uri}"] and the path looked
    up is ["{uri}sensorLayout/{uri}sensors"]. *)
Theorem sensors_path_of_qualified_tag uri local :
  str_find "}" uri = None →
  namespace_of_tag (vec3:=vec3) ("{" +:+ uri +:+ "}" +:+ local)
  = Ok ("{" +:+ uri +:+ "}") ∧
  sensors_path (vec3:=vec3) ("{" +:+ uri +:+ "}" +:+ local)
  = Ok (("{" +:+ uri +:+ "}") +:+ "sensorLayout/" +:+
        ("{" +:+ uri +:+ "}") +:+ "sensors").
Proof.
  intros Huri.
  assert (namespace_of_tag (vec3:=vec3) ("{" +:+ uri +:+ "}" +:+ local)
          = Ok ("{" +:+ uri +:+ "}")) as Hns.
  { unfold namespace_of_tag, str_index.
    rewrite (append_single _ (uri +:+ _)), str_find_head.
    rewrite str_find_cons_ne by (by intros [=]).
    rewrite (str_find_closing uri local Huri). simpl. f_equal.
    unfold slice.
    etrans; [|apply (substring_prefix ("{" +:+ uri +:+ "}") local)].
    f_equal.
    - rewrite append_single. simpl. rewrite length_append. simpl. lia.
    - by rewrite !append_single, append_cons, append_assoc. }
  split; [done|]. unfold sensors_path. by rewrite Hns.
Qed.

Lemma substring_zero n s : String.substring n 0 s = "".
Proof.
  revert n. induction s as [|c s IH]; intros [|n]; try done. apply IH.
Qed.

(** [X15] Edge cases of the namespace discovery: a root tag without an
    opening or without a closing brace raises the [ValueError] of
    [str.index]; a tag whose first closing brace comes before its first
    opening brace yields the empty namespace, hence the path
    ["sensorLayout/sensors"]. *)
Theorem namespace_edge_cases tag :
  (str_find "{" tag = None ∨ str_find "}" tag = None →
   sensors_path (vec3:=vec3) tag = Err (ValueError "substring not found")) ∧
  (∀ i j, str_find "{" tag = Some i → str_find "}" tag = Some j →
          (j < i)%nat →
          sensors_path (vec3:=vec3) tag = Ok "sensorLayout/sensors").
Proof.
  unfold sensors_path, namespace_of_tag, str_index. split.
  - intros [->| ->]; [done|]. by destruct (str_find "{" tag).
  - intros i j -> -> Hlt. simpl. unfold slice.
    replace (j + 1 - i)%nat with 0%nat by lia.
    by rewrite substring_zero.
Qed.

End NamespaceFacts.

Section Compose.

Context {vec3 trans scalar : Type}.
Variable get_ras_to_neuromag_trans : vec3 → vec3 → vec3 → result (vec3:=vec3) trans.
Variable apply_trans : trans → vec3 → vec3.
Variables FIFFV_POINT_CARDINAL FIFFV_POINT_HPI : Z.
Variables FIFFV_POINT_EXTRA FIFFV_POINT_EEG : Z.
Variables FIFFV_POINT_NASION FIFFV_POINT_LPA FIFFV_POINT_RPA : Z.
Variable _str_to_frame : string → Z.
Variable vec3_mul : vec3 → scalar → vec3.

Abbreviation to_head :=
  (_transform_to_head_call get_ras_to_neuromag_trans apply_trans).
Abbreviation read_fif :=
  (_read_dig_montage_fif (vec3:=vec3) FIFFV_POINT_CARDINAL FIFFV_POINT_HPI
     FIFFV_POINT_EXTRA FIFFV_POINT_EEG
     FIFFV_POINT_NASION FIFFV_POINT_LPA FIFFV_POINT_RPA _str_to_frame).
Abbreviation read_egi := (_read_dig_montage_egi (vec3:=vec3) vec3_mul).

(** [X5] Reader then resolver, binary format: a record returned by the
    binary reader goes through the resolver unchanged. *)
Theorem fif_record_needs_no_transform dig f1 f2 b :
  read_fif dig f1 f2 = Ok b → to_head b = Ok b.
Proof.
  intros (_ & _ & st & _ & Hb)%read_fif_Ok_inv.
  apply fif_bunch_Ok_inv in Hb as ->. done.
Qed.

(** [X6] Reader then resolver, XML format: on a record returned by the XML
    reader the resolver takes the three fiducials of the record, never
    looks at [elp], and returns the record with the fiducials and every
    value of [dig_ch_pos] transformed, or the exception of the transform
    derivation. *)
Theorem egi_record_transform sensors _scaling flag w b :
  read_egi sensors _scaling flag = (w, Ok b) →
  ∃ p_n p_l p_r m,
    nasion b = Some p_n ∧ lpa b = Some p_l ∧ rpa b = Some p_r ∧
    dig_ch_pos b = Some m ∧
    to_head b
    = t ← get_ras_to_neuromag_trans p_n p_l p_r;
      Ok (mkBunch (Some (apply_trans t p_n)) (Some (apply_trans t p_l))
            (Some (apply_trans t p_r)) None None None None
            (Some (apply_trans t <$> m)) "head").
Proof.
  intros (st & _ & Hb)%read_egi_Ok_inv.
  unfold egi_bunch, subscript in Hb.
  destruct (egi_fids st !! "nasion") as [p_n|]; [|discriminate].
  destruct (egi_fids st !! "lpa") as [p_l|]; [|discriminate].
  destruct (egi_fids st !! "rpa") as [p_r|]; [|discriminate].
  injection Hb as <-. exists p_n, p_l, p_r, (egi_dig_ch_pos st).
  repeat (split; [done|]).
  erewrite to_head_resolved; [|done|reflexivity]. done.
Qed.

End Compose.

(** * Runs on the concrete instance *)

(** A record in the head frame comes back as it is. *)
Lemma transform_to_head_call_head_noop_witness :
  coord_frame Sample.in_head = "head" ∧
  Sample.to_head Sample.in_head = Ok Sample.in_head ∧
  (Sample.to_head Sample.in_head ≫= Sample.to_head)
  = Sample.to_head Sample.in_head.
Proof.
  split; [reflexivity|].
  apply (transform_to_head_call_head_noop Sample.get_trans Sample.apply
           Sample.in_head).
  reflexivity.
Defined.

(** The record whose [point_names] are Nasion, LPA, RPA, HPI001: the three
    first entries of [elp] become the landmarks and only HPI001 remains.
    The record whose [point_names] are LPA, HPI001: the call fails and the
    error lists nasion and rpa. *)
Lemma fiducials_extracted_from_elp_witness :
  coord_frame Sample.carried ≠ "head" ∧
  nasion Sample.carried = None ∧ lpa Sample.carried = None ∧
  rpa Sample.carried = None ∧
  elp Sample.carried = Some [(5, 6, 5); (4, 5, 5); (6, 5, 5); (4, 4, 4)] ∧
  point_names Sample.carried = Some ["Nasion"; "LPA"; "RPA"; "HPI001"] ∧
  Sample.to_head Sample.carried
  = Ok (mkBunch (Some (1, 1, 0)) (Some (0, 0, 0)) (Some (2, 0, 0))
          (Some [(-4, -5, 4)]) (Some [(4, 4, 4)]) (Some [(0, -1, -1)])
          (Some ["HPI001"]) (Some {["EEG 001" := (1, 0, 1)]}) "head") ∧
  coord_frame SampleMore.lpa_only ≠ "head" ∧
  nasion SampleMore.lpa_only = None ∧ lpa SampleMore.lpa_only = None ∧
  rpa SampleMore.lpa_only = None ∧
  elp SampleMore.lpa_only = Some [(4, 5, 5); (4, 4, 4)] ∧
  point_names SampleMore.lpa_only = Some ["LPA"; "HPI001"] ∧
  Sample.to_head SampleMore.lpa_only
  = Err (ValueError
           ("The points ['nasion', 'rpa'] are missing, but are needed to " +:+
            "transform the points to the MNE coordinate system. Either " +:+
            "add the points, or read the montage with transform=False.")).
Proof.
  assert (coord_frame Sample.carried ≠ "head") as Hframe by discriminate.
  assert (coord_frame SampleMore.lpa_only ≠ "head") as Hframe'
    by discriminate.
  split; [exact Hframe|]. do 5 (split; [reflexivity|]).
  split.
  { destruct (fiducials_extracted_from_elp Sample.get_trans Sample.apply
                Sample.carried _ _ Hframe eq_refl eq_refl eq_refl eq_refl
                eq_refl)
      as (_ & _ & Hextract).
    destruct (Hextract eq_refl eq_refl)
      as (i_n & i_l & i_r & p_n & p_l & p_r &
          [Hn _] & [Hl _] & [Hr _] & Hpn & Hpl & Hpr & Heq).
    unfold Sample.to_head. rewrite Heq. clear Heq Hextract.
    destruct i_n as [|[|[|[|?]]]]; try discriminate Hn.
    destruct i_l as [|[|[|[|?]]]]; try discriminate Hl.
    destruct i_r as [|[|[|[|?]]]]; try discriminate Hr.
    injection Hpn as <-. injection Hpl as <-. injection Hpr as <-.
    vm_compute. reflexivity. }
  split; [exact Hframe'|]. do 5 (split; [reflexivity|]).
  destruct (fiducials_extracted_from_elp Sample.get_trans Sample.apply
              SampleMore.lpa_only _ _ Hframe' eq_refl eq_refl eq_refl eq_refl
              eq_refl)
    as (_ & Hfail & _).
  assert (filter (λ name, name ∉ Py.lower <$> ["LPA"; "HPI001"])
            ["nasion"; "lpa"; "rpa"] ≠ []) as Hmiss
    by (vm_compute; discriminate).
  exact (proj2 (Hfail Hmiss)).
Defined.

(** The transform reaches the landmarks, [elp], [hsp] and [dig_ch_pos];
    [hpi] and [point_names] stay. *)
Lemma transform_applied_to_spatial_fields_witness :
  coord_frame Sample.populated ≠ "head" ∧
  resolve_landmarks Sample.populated
  = Ok ((5, 6, 5), (4, 5, 5), (6, 5, 5), Sample.populated) ∧
  Sample.get_trans (5, 6, 5) (4, 5, 5) (6, 5, 5) = Ok (4, 5, 5) ∧
  ∃ b, Sample.to_head Sample.populated = Ok b ∧
    nasion b = Some (1, 1, 0) ∧ lpa b = Some (0, 0, 0) ∧
    rpa b = Some (2, 0, 0) ∧
    elp b = Some [(0, -1, -1)] ∧
    hsp b = Some [(-4, -5, 4)] ∧
    dig_ch_pos b
    = fmap (M:=gmap string) (Sample.apply (4, 5, 5))
        <$> dig_ch_pos Sample.populated ∧
    hpi b = Some [(4, 4, 4)] ∧
    point_names b = Some ["HPI001"] ∧
    coord_frame b = "head" ∧
    (is_Some (nasion Sample.populated) → is_Some (lpa Sample.populated) →
     is_Some (rpa Sample.populated) → Sample.populated = Sample.populated).
Proof.
  assert (coord_frame Sample.populated ≠ "head") as Hframe by discriminate.
  split; [exact Hframe|]. do 2 (split; [reflexivity|]).
  exact (transform_applied_to_spatial_fields Sample.get_trans Sample.apply
           Sample.populated Sample.populated (5, 6, 5) (4, 5, 5) (6, 5, 5)
           (4, 5, 5) Hframe eq_refl eq_refl).
Defined.

(** With [rpa] alone populated, at (7, 7, 7), the landmarks still come
    from [elp]: the [rpa] of the result is the third entry of [elp]
    transformed; without [elp] the call fails. *)
Lemma partial_landmarks_discarded_witness :
  coord_frame Sample.partial ≠ "head" ∧
  nasion Sample.partial = None ∧
  rpa Sample.partial = Some (7, 7, 7) ∧
  elp Sample.partial = Some [(5, 6, 5); (4, 5, 5); (6, 5, 5); (4, 4, 4)] ∧
  point_names Sample.partial = Some ["Nasion"; "LPA"; "RPA"; "HPI001"] ∧
  coord_frame Sample.partial_no_elp ≠ "head" ∧
  nasion Sample.partial_no_elp = None ∧
  elp Sample.partial_no_elp = None ∧
  Sample.to_head Sample.partial = Sample.to_head Sample.carried ∧
  Sample.to_head Sample.partial
  = Ok (mkBunch (Some (1, 1, 0)) (Some (0, 0, 0)) (Some (2, 0, 0))
          (Some [(-4, -5, 4)]) (Some [(4, 4, 4)]) (Some [(0, -1, -1)])
          (Some ["HPI001"]) (Some {["EEG 001" := (1, 0, 1)]}) "head") ∧
  Sample.to_head Sample.partial_no_elp
  = Err (ValueError
           "ELP points and names must be specified for transformation.").
Proof.
  assert (coord_frame Sample.partial ≠ "head") as Hframe by discriminate.
  assert (coord_frame Sample.partial_no_elp ≠ "head") as Hframe'
    by discriminate.
  split; [exact Hframe|]. do 4 (split; [reflexivity|]).
  split; [exact Hframe'|]. do 2 (split; [reflexivity|]).
  destruct (partial_landmarks_discarded Sample.get_trans Sample.apply
              Sample.partial Hframe (or_introl eq_refl))
    as (Hcleared & Hderived & _).
  split; [exact Hcleared|]. split.
  - destruct (Hderived _ _ eq_refl eq_refl eq_refl eq_refl)
      as (i_n & i_l & i_r & p_n & p_l & p_r &
          [Hn _] & [Hl _] & [Hr _] & Hpn & Hpl & Hpr & Heq).
    unfold Sample.to_head. rewrite Heq. clear Heq Hderived Hcleared.
    destruct i_n as [|[|[|[|?]]]]; try discriminate Hn.
    destruct i_l as [|[|[|[|?]]]]; try discriminate Hl.
    destruct i_r as [|[|[|[|?]]]]; try discriminate Hr.
    injection Hpn as <-. injection Hpl as <-. injection Hpr as <-.
    vm_compute. reflexivity.
  - exact (proj2 (proj2 (proj2
             (partial_landmarks_discarded Sample.get_trans Sample.apply
                Sample.partial_no_elp Hframe' (or_introl eq_refl))))
             (or_introl eq_refl)).
Defined.

(** An electrode declared in the device frame, after the three cardinal
    records, stops the read with the frame error on that record; a stray
    record declared in the device frame is passed over. *)
Lemma frame_guard_classified_kinds_witness :
  d_kind Sample.d_eeg_device
  ∈ [Sample.POINT_CARDINAL; Sample.POINT_HPI; Sample.POINT_EXTRA;
     Sample.POINT_EEG] ∧
  d_coord_frame Sample.d_eeg_device ≠ Sample.str_to_frame "head" ∧
  (∀ f1 f2 b,
     Sample.read_fif (Sample.dig_cardinal ++ Sample.d_eeg_device :: [Sample.d_hpi])
       f1 f2 ≠ Ok b) ∧
  Sample.read_fif (Sample.dig_cardinal ++ Sample.d_eeg_device :: [Sample.d_hpi])
    false true
  = Err (FrameMismatch Sample.d_eeg_device) ∧
  (d_kind Sample.d_stray
   ∉ [Sample.POINT_CARDINAL; Sample.POINT_HPI; Sample.POINT_EXTRA;
      Sample.POINT_EEG]) ∧
  d_coord_frame Sample.d_stray ≠ Sample.str_to_frame "head" ∧
  Sample.read_fif (Sample.dig_cardinal ++ Sample.d_stray :: [Sample.d_hpi])
    false true
  = Ok (mkBunch (Some (0, 1, 0)) (Some (-1, 0, 0)) (Some (1, 0, 0))
          None (Some [(2, 2, 2)]) (Some [(2, 2, 2)]) (Some ["HPI001"])
          (Some ∅) "head").
Proof.
  assert (d_kind Sample.d_eeg_device
          ∈ [Sample.POINT_CARDINAL; Sample.POINT_HPI; Sample.POINT_EXTRA;
             Sample.POINT_EEG]) as Hkind
    by (do 3 right; left).
  assert (d_coord_frame Sample.d_eeg_device ≠ Sample.str_to_frame "head")
    as Hframe by (vm_compute; discriminate).
  assert (d_kind Sample.d_stray
          ∉ [Sample.POINT_CARDINAL; Sample.POINT_HPI; Sample.POINT_EXTRA;
             Sample.POINT_EEG]) as Hstray
    by (apply (bool_decide_unpack _); vm_compute; exact I).
  split; [exact Hkind|]. split; [exact Hframe|].
  destruct (proj1 (frame_guard_classified_kinds
              Sample.POINT_CARDINAL Sample.POINT_HPI Sample.POINT_EXTRA
              Sample.POINT_EEG Sample.POINT_NASION Sample.POINT_LPA
              Sample.POINT_RPA Sample.str_to_frame
              Sample.dig_cardinal [Sample.d_hpi] Sample.d_eeg_device)
              Hkind Hframe) as [Hnone Hfirst].
  split; [exact Hnone|].
  split; [eapply Hfirst; vm_compute; reflexivity|].
  split; [exact Hstray|]. split; [vm_compute; discriminate|].
  destruct (proj2 (frame_guard_classified_kinds
              Sample.POINT_CARDINAL Sample.POINT_HPI Sample.POINT_EXTRA
              Sample.POINT_EEG Sample.POINT_NASION Sample.POINT_LPA
              Sample.POINT_RPA Sample.str_to_frame
              Sample.dig_cardinal [Sample.d_hpi] Sample.d_stray)
              Hstray) as [_ Hskip].
  etrans; [exact (Hskip false true)|]. vm_compute. reflexivity.
Defined.

(** [C1] fails as stated: a record of a kind that is none of the four,
    declared in the device frame, is part of a sequence the reader accepts. *)
Lemma frame_guard_counterexample :
  Sample.d_stray ∈ Sample.dig_stray ∧
  d_coord_frame Sample.d_stray ≠ Sample.str_to_frame "head" ∧
  Sample.read_fif Sample.dig_stray false true
  = Ok (mkBunch (Some (0, 1, 0)) (Some (-1, 0, 0)) (Some (1, 0, 0))
          None (Some []) None (Some []) (Some ∅) "head").
Proof.
  split; [do 3 right; left|].
  split; [vm_compute; discriminate|].
  vm_compute. reflexivity.
Qed.

(** One record of each classified kind: every category is filled.  A
    cardinal record with ident 4 is refused, a stray record changes
    nothing. *)
Lemma fif_classification_witness :
  NoDup [Sample.POINT_CARDINAL; Sample.POINT_HPI; Sample.POINT_EXTRA;
         Sample.POINT_EEG] ∧
  Sample.read_fif Sample.dig_complete false true = Ok Sample.in_head ∧
  (coord_frame Sample.in_head = "head" ∧
   nasion Sample.in_head = Some (0, 1, 0) ∧
   lpa Sample.in_head = Some (-1, 0, 0) ∧
   rpa Sample.in_head = Some (1, 0, 0) ∧
   hpi Sample.in_head = Some [(2, 2, 2)] ∧
   elp Sample.in_head = Some [(2, 2, 2)] ∧
   point_names Sample.in_head = Some ["HPI001"] ∧
   hsp Sample.in_head = Some [(0, 0, 1)] ∧
   ∃ m, dig_ch_pos Sample.in_head = Some m ∧
        ∀ k, m !! k
             = d_r <$> last (filter
                 (λ d, d_kind d = Sample.POINT_EEG ∧
                       "EEG" +:+ Py.format_03d (d_ident d) = k)
                 Sample.dig_complete)) ∧
  Sample.read_fif (Sample.dig_cardinal ++ Sample.d_inion :: [Sample.d_hpi])
    false true
  = Err (KeyError (PyInt 4)) ∧
  Sample.read_fif (Sample.dig_cardinal ++ Sample.d_stray :: [Sample.d_hpi])
    false true
  = Sample.read_fif (Sample.dig_cardinal ++ [Sample.d_hpi]) false true.
Proof.
  assert (NoDup [Sample.POINT_CARDINAL; Sample.POINT_HPI; Sample.POINT_EXTRA;
                 Sample.POINT_EEG]) as Hkinds
    by (apply (bool_decide_unpack _); vm_compute; exact I).
  assert (Sample.read_fif Sample.dig_complete false true = Ok Sample.in_head)
    as Hread by (vm_compute; reflexivity).
  split; [exact Hkinds|]. split; [exact Hread|].
  destruct (fif_classification (vec3:=Sample.vec)
              Sample.POINT_CARDINAL Sample.POINT_HPI Sample.POINT_EXTRA
              Sample.POINT_EEG Sample.POINT_NASION Sample.POINT_LPA
              Sample.POINT_RPA Sample.str_to_frame Hkinds)
    as (Hfields & Hident & Hother & _).
  split; [exact (Hfields Sample.dig_complete Sample.in_head Hread)|].
  split.
  - eapply (Hident Sample.dig_cardinal Sample.d_inion [Sample.d_hpi]).
    + vm_compute. reflexivity.
    + reflexivity.
    + reflexivity.
    + apply (bool_decide_unpack _). vm_compute. exact I.
  - apply (Hother Sample.dig_cardinal Sample.d_stray [Sample.d_hpi]).
    apply (bool_decide_unpack _). vm_compute. exact I.
Defined.

(** With the cardinal records alone, [hpi] is the empty list while [elp]
    and [hsp] are absent. *)
Lemma fif_hpi_empty_not_absent_witness :
  NoDup [Sample.POINT_CARDINAL; Sample.POINT_HPI; Sample.POINT_EXTRA;
         Sample.POINT_EEG] ∧
  Sample.read_fif Sample.dig_cardinal false true
  = Ok (mkBunch (Some (0, 1, 0)) (Some (-1, 0, 0)) (Some (1, 0, 0))
          None (Some []) None (Some []) (Some ∅) "head") ∧
  ∃ b, Sample.read_fif Sample.dig_cardinal false true = Ok b ∧
       hpi b = Some [] ∧ elp b = None ∧ hsp b = None.
Proof.
  assert (NoDup [Sample.POINT_CARDINAL; Sample.POINT_HPI; Sample.POINT_EXTRA;
                 Sample.POINT_EEG]) as Hkinds
    by (apply (bool_decide_unpack _); vm_compute; exact I).
  split; [exact Hkinds|]. split; [vm_compute; reflexivity|].
  eexists. split; [vm_compute; reflexivity|].
  destruct (fif_hpi_empty_not_absent (vec3:=Sample.vec)
              Sample.POINT_CARDINAL Sample.POINT_HPI Sample.POINT_EXTRA
              Sample.POINT_EEG Sample.POINT_NASION Sample.POINT_LPA
              Sample.POINT_RPA Sample.str_to_frame Hkinds
              Sample.dig_cardinal _ eq_refl)
    as (_ & Hhpi & Hhsp & _).
  destruct (Hhpi eq_refl) as [Hempty Help].
  split; [exact Hempty|]. split; [exact Help|]. exact (Hhsp eq_refl).
Defined.

(** Without the RPA record, and without the left periauricular sensor, the
    readers fail. *)
Lemma missing_fiducial_fails_witness :
  (∃ st, Sample.fif_loop [Sample.d_nasion; Sample.d_lpa] = Ok st ∧
         fif_fids st !! "rpa" = None) ∧
  (∃ name, name ∈ ["nasion"; "lpa"; "rpa"] ∧
           Sample.read_fif [Sample.d_nasion; Sample.d_lpa] false true
           = Err (KeyError (PyStr name))) ∧
  (∃ st, egi_loop Sample.mul 1 egi_init
           [Sample.s_nasion; Sample.s_rpa; Sample.s_eeg2] = ([], Ok st) ∧
         egi_fids st !! "lpa" = None) ∧
  (∃ name, name ∈ ["nasion"; "lpa"; "rpa"] ∧
           Sample.read_egi [Sample.s_nasion; Sample.s_rpa; Sample.s_eeg2]
             1 true
           = ([], Err (KeyError (PyStr name)))).
Proof.
  destruct (missing_fiducial_fails (vec3:=Sample.vec)
              Sample.POINT_CARDINAL Sample.POINT_HPI Sample.POINT_EXTRA
              Sample.POINT_EEG Sample.POINT_NASION Sample.POINT_LPA
              Sample.POINT_RPA Sample.str_to_frame Sample.mul)
    as [Hfif Hegi].
  split; [eexists; split; [vm_compute; reflexivity|vm_compute; reflexivity]|].
  split.
  { destruct (Hfif [Sample.d_nasion; Sample.d_lpa] _ eq_refl
                (or_intror (or_intror eq_refl))) as (name & Hin & _ & Hread).
    exists name. split; [exact Hin|exact Hread]. }
  split; [eexists; split; [vm_compute; reflexivity|vm_compute; reflexivity]|].
  destruct (Hegi [Sample.s_nasion; Sample.s_rpa; Sample.s_eeg2] 1 [] _ eq_refl
              (or_intror (or_introl eq_refl))) as (name & Hin & _ & Hread).
  exists name. split; [exact Hin|exact Hread].
Defined.

(** A sensor of kind 99 among the fiducials and an EEG channel: one
    warning, and the record of the other sensors.  With a sensor of kind 7
    as well: two warnings, each with its own kind, in the order of the
    sensors. *)
Lemma egi_unknown_kind_skipped_witness :
  Sample.read_egi Sample.sensors_odd 1 true
  = (["Unknown sensor type 99 detected. Skipping sensor...Proceed with caution!"],
     Ok (mkBunch (Some (0, 10, 0)) (Some (-10, 0, 0)) (Some (10, 0, 0))
           None None None None (Some {["EEG 002" := (1, 2, 3)]}) "unknown")) ∧
  (Sample.read_egi Sample.sensors_odd 1 true).2
  = (Sample.read_egi
       [Sample.s_eeg2; Sample.s_nasion; Sample.s_lpa; Sample.s_rpa] 1 true).2 ∧
  (∀ w b, Sample.read_egi Sample.sensors_odd 1 true = (w, Ok b) →
     w = ["Unknown sensor type 99 detected. Skipping sensor...Proceed with caution!"] ∧
     coord_frame b = "unknown" ∧
     hsp b = None ∧ hpi b = None ∧ elp b = None ∧ point_names b = None) ∧
  (∀ w b, Sample.read_egi SampleMore.sensors_two_odd 1 true = (w, Ok b) →
     w = ["Unknown sensor type 99 detected. Skipping sensor...Proceed with caution!";
          "Unknown sensor type 7 detected. Skipping sensor...Proceed with caution!"] ∧
     coord_frame b = "unknown" ∧
     hsp b = None ∧ hpi b = None ∧ elp b = None ∧ point_names b = None) ∧
  (Sample.read_egi SampleMore.sensors_two_odd 1 true).2
  = Ok (mkBunch (Some (0, 10, 0)) (Some (-10, 0, 0)) (Some (10, 0, 0))
          None None None None (Some {["EEG 002" := (1, 2, 3)]}) "unknown") ∧
  unknown_sensor_msg 7
  = "Unknown sensor type 7 detected. Skipping sensor...Proceed with caution!" ∧
  unknown_sensor_msg 99 ≠ unknown_sensor_msg 7.
Proof.
  destruct (egi_unknown_kind_skipped Sample.mul Sample.sensors_odd 1 true)
    as (_ & _ & _ & Hskip & _ & Hshape).
  destruct (egi_unknown_kind_skipped Sample.mul SampleMore.sensors_two_odd
              1 true)
    as (_ & Htext & Hinj & Hskip' & _ & Hshape').
  split; [vm_compute; reflexivity|]. split; [exact Hskip|].
  split; [exact Hshape|]. split; [exact Hshape'|].
  split; [etrans; [exact Hskip'|]; vm_compute; reflexivity|].
  split; [exact (Htext 7)|].
  intros Heq. by pose proof (Hinj 99 7 Heq).
Defined.

(** An EEG channel numbered 2 followed by the reference channel: both are
    stored under ["EEG 002"]. *)
Lemma egi_keys_distinct_collision_overwrites_witness :
  (∃ m, dig_ch_pos (mkBunch (Some (0, 10, 0)) (Some (-10, 0, 0))
                      (Some (10, 0, 0)) None None None None
                      (Some {["EEG 002" := (7, 8, 9)]}) "unknown") = Some m ∧
        NoDup (map_to_list m).*1) ∧
  ∃ st', egi_body Sample.mul 1
           (mkEgiLocals ∅ {["EEG 002" := (1, 2, 3)]}) Sample.s_ref
         = ([], Ok st') ∧
    egi_fids st' = ∅ ∧
    egi_dig_ch_pos st' !! "EEG 002" = Some (7, 8, 9) ∧
    (∀ k, k ≠ "EEG 002" →
          egi_dig_ch_pos st' !! k
          = ({["EEG 002" := (1, 2, 3)]} : gmap string Sample.vec) !! k) ∧
    (is_Some (({["EEG 002" := (1, 2, 3)]} : gmap string Sample.vec)
              !! "EEG 002") →
     size (egi_dig_ch_pos st')
     = size ({["EEG 002" := (1, 2, 3)]} : gmap string Sample.vec)).
Proof.
  destruct (egi_keys_distinct_collision_overwrites Sample.mul)
    as (Hkeys & Hstep & _).
  split.
  - apply (Hkeys Sample.sensors_collide 1 true []). vm_compute. reflexivity.
  - exact (Hstep 1 (mkEgiLocals ∅ {["EEG 002" := (1, 2, 3)]}) Sample.s_ref
             (or_intror eq_refl)).
Defined.

(** [C2] fails as stated: the EEG channel numbered 2 and the reference
    channel that follows it collide on ["EEG 002"]; the read raises nothing
    and the position of the EEG channel is lost. *)
Lemma egi_collision_counterexample :
  "EEG " +:+ Py.format_03d (s_number Sample.s_eeg2) = "EEG 002" ∧
  "EEG " +:+ Py.format_03d
     (Z.of_nat (size ({["EEG 002" := (1, 2, 3)]} : gmap string Sample.vec)) + 1)
  = "EEG 002" ∧
  Sample.read_egi Sample.sensors_collide 1 true
  = ([], Ok (mkBunch (Some (0, 10, 0)) (Some (-10, 0, 0)) (Some (10, 0, 0))
               None None None None
               (Some {["EEG 002" := (7, 8, 9)]}) "unknown")).
Proof. repeat split; vm_compute; reflexivity. Qed.

(** ** Further runs *)

(** The resolved record is in the head frame and is a fixed point. *)
Lemma to_head_result_is_fixed_witness :
  Sample.to_head Sample.carried = Ok SampleMore.carried_in_head ∧
  coord_frame SampleMore.carried_in_head = "head" ∧
  Sample.to_head SampleMore.carried_in_head = Ok SampleMore.carried_in_head.
Proof.
  assert (Sample.to_head Sample.carried = Ok SampleMore.carried_in_head)
    as Hrun by (vm_compute; reflexivity).
  split; [exact Hrun|].
  exact (to_head_result_is_fixed Sample.get_trans Sample.apply
           Sample.carried SampleMore.carried_in_head Hrun).
Defined.

(** Three [elp] entries for four names. *)
Lemma elp_not_parallel_IndexError_witness :
  coord_frame SampleMore.short_elp ≠ "head" ∧
  nasion SampleMore.short_elp = None ∧
  elp SampleMore.short_elp = Some [(5, 6, 5); (4, 5, 5); (6, 5, 5)] ∧
  point_names SampleMore.short_elp
  = Some ["Nasion"; "LPA"; "RPA"; "HPI001"] ∧
  length [(5, 6, 5); (4, 5, 5); (6, 5, 5)]
  ≠ length ["Nasion"; "LPA"; "RPA"; "HPI001"] ∧
  Sample.to_head SampleMore.short_elp = Err IndexError.
Proof.
  assert (coord_frame SampleMore.short_elp ≠ "head") as Hframe
    by discriminate.
  assert (length [(5, 6, 5); (4, 5, 5); (6, 5, 5)]
          ≠ length ["Nasion"; "LPA"; "RPA"; "HPI001"]) as Hlen
    by (simpl; lia).
  split; [exact Hframe|]. do 3 (split; [reflexivity|]).
  split; [exact Hlen|].
  exact (elp_not_parallel_IndexError Sample.get_trans Sample.apply
           SampleMore.short_elp _ _ Hframe (or_introl eq_refl)
           eq_refl eq_refl eq_refl Hlen).
Defined.

(** Five entries in, two entries out: of the two entries named nasion
    the first one is the landmark and the second one stays, with its
    point. *)
Lemma extraction_removes_three_witness :
  coord_frame SampleMore.doubled ≠ "head" ∧
  nasion SampleMore.doubled = None ∧
  elp SampleMore.doubled
  = Some [(5, 6, 5); (4, 5, 5); (9, 9, 9); (6, 5, 5); (4, 4, 4)] ∧
  point_names SampleMore.doubled
  = Some ["Nasion"; "LPA"; "nasion"; "RPA"; "HPI001"] ∧
  Sample.to_head SampleMore.doubled = Ok SampleMore.doubled_in_head ∧
  ∃ e' pn' i_n i_l i_r,
    elp SampleMore.doubled_in_head = Some e' ∧
    point_names SampleMore.doubled_in_head = Some pn' ∧
    i_n = 0%nat ∧ i_l = 1%nat ∧ i_r = 3%nat ∧
    pn' = ["nasion"; "HPI001"] ∧
    e' = [(5, 4, 4); (0, -1, -1)] ∧
    "nasion" ∈ pn' ∧
    (length pn' + 3 = 5)%nat.
Proof.
  assert (coord_frame SampleMore.doubled ≠ "head") as Hframe by discriminate.
  assert (Sample.to_head SampleMore.doubled = Ok SampleMore.doubled_in_head)
    as Hrun by (vm_compute; reflexivity).
  split; [exact Hframe|]. do 3 (split; [reflexivity|]). split; [exact Hrun|].
  destruct (extraction_removes_three Sample.get_trans Sample.apply
              SampleMore.doubled SampleMore.doubled_in_head Hframe
              (or_introl eq_refl) Hrun)
    as (e & pn & e' & pn' & i_n & i_l & i_r & p_n & p_l & p_r & t &
        He & Hpn & He' & Hpn' & [Hn Hn'] & [Hl _] & [Hr _] &
        Hen & Hel & Her & Ht & Hpn'' & He'' & Hkept & _ & _ & _ & Hthree & _).
  injection He as <-. injection Hpn as <-.
  exists e', pn', i_n, i_l, i_r.
  split; [exact He'|]. split; [exact Hpn'|].
  assert (i_n = 0%nat) as ->.
  { destruct i_n as [|[|[|[|[|?]]]]]; try discriminate Hn; [reflexivity|].
    exfalso. apply (Hn' 0%nat); [lia|reflexivity]. }
  destruct i_l as [|[|[|[|[|?]]]]]; try discriminate Hl.
  destruct i_r as [|[|[|[|[|?]]]]]; try discriminate Hr.
  injection Hen as <-. injection Hel as <-. injection Her as <-.
  injection Ht as <-.
  do 3 (split; [reflexivity|]).
  split; [exact Hpn''|]. split; [exact He''|].
  split; [|exact Hthree].
  apply (Hkept 2%nat "nasion"); [|reflexivity].
  apply (bool_decide_unpack _). vm_compute. exact I.
Defined.

(** The names in capitals are matched all the same. *)
Lemma fiducial_names_case_insensitive_witness :
  point_names Sample.carried = Some ["Nasion"; "LPA"; "RPA"; "HPI001"] ∧
  Py.lower <$> ["NASION"; "lpa"; "Rpa"; "hpi001"]
  = Py.lower <$> ["Nasion"; "LPA"; "RPA"; "HPI001"] ∧
  match Sample.to_head Sample.carried, Sample.to_head SampleMore.shouted with
  | Ok b, Ok b' =>
      nasion b' = nasion b ∧ lpa b' = lpa b ∧ rpa b' = rpa b ∧
      hsp b' = hsp b ∧ hpi b' = hpi b ∧ elp b' = elp b ∧
      dig_ch_pos b' = dig_ch_pos b ∧ coord_frame b' = coord_frame b ∧
      fmap (M:=list) Py.lower <$> point_names b'
      = fmap (M:=list) Py.lower <$> point_names b
  | Err e, Err e' => e = e'
  | _, _ => False
  end.
Proof.
  do 2 (split; [reflexivity|]).
  exact (fiducial_names_case_insensitive Sample.get_trans Sample.apply
           Sample.carried _ ["NASION"; "lpa"; "Rpa"; "hpi001"]
           eq_refl eq_refl).
Defined.

(** The record read from the complete sequence is left as it is. *)
Lemma fif_record_needs_no_transform_witness :
  Sample.read_fif Sample.dig_complete false true = Ok Sample.in_head ∧
  Sample.to_head Sample.in_head = Ok Sample.in_head.
Proof.
  assert (Sample.read_fif Sample.dig_complete false true = Ok Sample.in_head)
    as Hread by (vm_compute; reflexivity).
  split; [exact Hread|].
  exact (fif_record_needs_no_transform Sample.get_trans Sample.apply
           Sample.POINT_CARDINAL Sample.POINT_HPI Sample.POINT_EXTRA
           Sample.POINT_EEG Sample.POINT_NASION Sample.POINT_LPA
           Sample.POINT_RPA Sample.str_to_frame
           Sample.dig_complete false true Sample.in_head Hread).
Defined.

(** The record read from the sensors is transformed with its own
    fiducials. *)
Lemma egi_record_transform_witness :
  Sample.read_egi Sample.sensors_collide 1 true
  = ([], Ok SampleMore.collided) ∧
  ∃ p_n p_l p_r m,
    nasion SampleMore.collided = Some p_n ∧
    lpa SampleMore.collided = Some p_l ∧
    rpa SampleMore.collided = Some p_r ∧
    dig_ch_pos SampleMore.collided = Some m ∧
    Sample.to_head SampleMore.collided
    = t ← Sample.get_trans p_n p_l p_r;
      Ok (mkBunch (Some (Sample.apply t p_n)) (Some (Sample.apply t p_l))
            (Some (Sample.apply t p_r)) None None None None
            (Some (Sample.apply t <$> m)) "head").
Proof.
  assert (Sample.read_egi Sample.sensors_collide 1 true
          = ([], Ok SampleMore.collided)) as Hread
    by (vm_compute; reflexivity).
  split; [exact Hread|].
  exact (egi_record_transform Sample.get_trans Sample.apply Sample.mul
           Sample.sensors_collide 1 true [] SampleMore.collided Hread).
Defined.

(** The complete sequence is accepted, so it meets the four conditions. *)
Lemma fif_read_succeeds_iff_witness :
  (∃ b, Sample.read_fif Sample.dig_complete false true = Ok b) ∧
  Forall (λ d : DigPoint (vec3:=Sample.vec),
            d_kind d ∈ [Sample.POINT_CARDINAL; Sample.POINT_HPI;
                        Sample.POINT_EXTRA; Sample.POINT_EEG] →
            d_coord_frame d = Sample.str_to_frame "head" ∧
            (d_kind d = Sample.POINT_CARDINAL →
             d_ident d ∈ [Sample.POINT_NASION; Sample.POINT_LPA;
                          Sample.POINT_RPA]))
    Sample.dig_complete ∧
  (∀ name, name ∈ ["nasion"; "lpa"; "rpa"] →
     ∃ d, d ∈ Sample.dig_complete ∧ d_kind d = Sample.POINT_CARDINAL ∧
          _cardinal_ident_mapping Sample.POINT_NASION Sample.POINT_LPA
            Sample.POINT_RPA !! d_ident d = Some name) ∧
  ¬ ∃ b, Sample.read_fif Sample.dig_complete true true = Ok b.
Proof.
  assert (∃ b, Sample.read_fif Sample.dig_complete false true = Ok b)
    as Hread by (eexists; vm_compute; reflexivity).
  split; [exact Hread|].
  destruct (proj1 (fif_read_succeeds_iff (vec3:=Sample.vec)
                     Sample.POINT_CARDINAL Sample.POINT_HPI
                     Sample.POINT_EXTRA Sample.POINT_EEG
                     Sample.POINT_NASION Sample.POINT_LPA Sample.POINT_RPA
                     Sample.str_to_frame Sample.dig_complete false true)
              Hread) as (_ & _ & Hall & Hfids).
  split; [exact Hall|]. split; [exact Hfids|].
  intros Hbad.
  destruct (proj1 (fif_read_succeeds_iff (vec3:=Sample.vec)
                     Sample.POINT_CARDINAL Sample.POINT_HPI
                     Sample.POINT_EXTRA Sample.POINT_EEG
                     Sample.POINT_NASION Sample.POINT_LPA Sample.POINT_RPA
                     Sample.str_to_frame Sample.dig_complete true true)
              Hbad) as (Hflag & _).
  discriminate Hflag.
Defined.

(** One HPI record: one label, and [elp] equal to [hpi]. *)
Lemma fif_hpi_elp_names_parallel_witness :
  Sample.read_fif Sample.dig_complete false true = Ok Sample.in_head ∧
  ∃ h names,
    hpi Sample.in_head = Some h ∧ point_names Sample.in_head = Some names ∧
    length names = length h ∧ elp Sample.in_head = array_or_None h.
Proof.
  assert (Sample.read_fif Sample.dig_complete false true = Ok Sample.in_head)
    as Hread by (vm_compute; reflexivity).
  split; [exact Hread|].
  exact (fif_hpi_elp_names_parallel
           Sample.POINT_CARDINAL Sample.POINT_HPI Sample.POINT_EXTRA
           Sample.POINT_EEG Sample.POINT_NASION Sample.POINT_LPA
           Sample.POINT_RPA Sample.str_to_frame
           Sample.dig_complete false true Sample.in_head Hread).
Defined.

(** The stray record can be left out. *)
Lemma fif_only_classified_kinds_matter_witness :
  Sample.read_fif Sample.dig_stray false true
  = Sample.read_fif Sample.dig_cardinal false true.
Proof.
  exact (fif_only_classified_kinds_matter (vec3:=Sample.vec)
           Sample.POINT_CARDINAL Sample.POINT_HPI Sample.POINT_EXTRA
           Sample.POINT_EEG Sample.POINT_NASION Sample.POINT_LPA
           Sample.POINT_RPA Sample.str_to_frame Sample.dig_stray false true).
Defined.

(** Electrodes 7 and 9: two entries, each under its key. *)
Lemma fif_distinct_idents_no_loss_witness :
  NoDup [Sample.POINT_CARDINAL; Sample.POINT_HPI; Sample.POINT_EXTRA;
         Sample.POINT_EEG] ∧
  NoDup (d_ident <$> filter (λ d, d_kind d = Sample.POINT_EEG)
                       SampleMore.dig_two_eeg) ∧
  NoDup (d_ident <$> filter (λ d, d_kind d = Sample.POINT_HPI)
                       SampleMore.dig_two_eeg) ∧
  ∃ b m names,
    Sample.read_fif SampleMore.dig_two_eeg false true = Ok b ∧
    dig_ch_pos b = Some m ∧ point_names b = Some names ∧
    size m = 2%nat ∧
    m !! "EEG007" = Some (3, 3, 3) ∧ m !! "EEG009" = Some (3, 3, 5) ∧
    NoDup names.
Proof.
  assert (NoDup [Sample.POINT_CARDINAL; Sample.POINT_HPI; Sample.POINT_EXTRA;
                 Sample.POINT_EEG]) as Hkinds
    by (apply (bool_decide_unpack _); vm_compute; exact I).
  assert (NoDup (d_ident <$> filter (λ d, d_kind d = Sample.POINT_EEG)
                               SampleMore.dig_two_eeg)) as Heeg
    by (apply (bool_decide_unpack _); vm_compute; exact I).
  assert (NoDup (d_ident <$> filter (λ d, d_kind d = Sample.POINT_HPI)
                               SampleMore.dig_two_eeg)) as Hhpi
    by (apply (bool_decide_unpack _); vm_compute; exact I).
  do 3 (split; [assumption|]).
  destruct (Sample.read_fif SampleMore.dig_two_eeg false true) as [b|]
    eqn:Hread; [|discriminate Hread].
  destruct (fif_distinct_idents_no_loss (vec3:=Sample.vec)
              Sample.POINT_CARDINAL Sample.POINT_HPI Sample.POINT_EXTRA
              Sample.POINT_EEG Sample.POINT_NASION Sample.POINT_LPA
              Sample.POINT_RPA Sample.str_to_frame Hkinds
              SampleMore.dig_two_eeg b Hread)
    as (m & names & Hm & Hnames & Hno_loss & Hlabels).
  destruct (Hno_loss Heeg) as [Hsize Hlookup].
  exists b, m, names. do 3 (split; [assumption || reflexivity|]).
  split; [exact Hsize|].
  split; [|split; [|exact (Hlabels Hhpi)]].
  - apply (Hlookup Sample.d_eeg); [do 5 right; left|reflexivity].
  - apply (Hlookup SampleMore.d_eeg9); [do 6 right; left|reflexivity].
Defined.

(** The sensors are accepted, so every fiducial sensor is named as the
    table has it and the three names occur; without the flag nothing is
    read. *)
Lemma egi_read_succeeds_iff_witness :
  (∃ b, (Sample.read_egi Sample.sensors_odd 1 true).2 = Ok b) ∧
  Forall (λ s : Sensor (vec3:=Sample.vec),
            s_kind s = 2 →
            s_name s ∈ ["Nasion"; "Right periauricular point";
                        "Left periauricular point"]) Sample.sensors_odd ∧
  (∃ s, s ∈ Sample.sensors_odd ∧ s_kind s = 2 ∧ s_name s = "Nasion") ∧
  ¬ ∃ b, (Sample.read_egi Sample.sensors_odd 1 false).2 = Ok b.
Proof.
  assert (∃ b, (Sample.read_egi Sample.sensors_odd 1 true).2 = Ok b)
    as Hread by (eexists; vm_compute; reflexivity).
  split; [exact Hread|].
  destruct (proj1 (egi_read_succeeds_iff Sample.mul Sample.sensors_odd 1 true)
              Hread) as (_ & Hall & Hn & _).
  split; [exact Hall|]. split; [exact Hn|].
  intros Hbad.
  destruct (proj1 (egi_read_succeeds_iff Sample.mul Sample.sensors_odd 1 false)
              Hbad) as (Hflag & _).
  discriminate Hflag.
Defined.

(** With the scale factor 2 every position is twice a sensor's. *)
Lemma egi_positions_are_scaled_coordinates_witness :
  Sample.read_egi Sample.sensors_odd 2 true
  = (["Unknown sensor type 99 detected. Skipping sensor...Proceed with caution!"],
     Ok (mkBunch (Some (0, 20, 0)) (Some (-20, 0, 0)) (Some (20, 0, 0))
           None None None None (Some {["EEG 002" := (2, 4, 6)]}) "unknown")) ∧
  (∃ s, s ∈ Sample.sensors_odd ∧ s_kind s ∈ [0; 1] ∧
        (2, 4, 6) = Sample.mul (s_coordinates s) 2) ∧
  (∃ s, s ∈ Sample.sensors_odd ∧ s_kind s = 2 ∧ s_name s = "Nasion" ∧
        (0, 20, 0) = Sample.mul (s_coordinates s) 2).
Proof.
  assert (Sample.read_egi Sample.sensors_odd 2 true
          = (["Unknown sensor type 99 detected. Skipping sensor...Proceed with caution!"],
             Ok (mkBunch (Some (0, 20, 0)) (Some (-20, 0, 0))
                   (Some (20, 0, 0)) None None None None
                   (Some {["EEG 002" := (2, 4, 6)]}) "unknown")))
    as Hread by (vm_compute; reflexivity).
  split; [exact Hread|].
  destruct (egi_positions_are_scaled_coordinates Sample.mul
              Sample.sensors_odd 2 true _ _ Hread) as (Hdig & Hn & _).
  split.
  - apply (Hdig {["EEG 002" := (2, 4, 6)]} "EEG 002"); [reflexivity|].
    vm_compute. reflexivity.
  - apply Hn. reflexivity.
Defined.

(** Channels 1 and 2, then the reference: three entries, the reference
    under ["EEG 003"]. *)
Lemma egi_reference_after_channels_witness :
  Forall (λ s : Sensor (vec3:=Sample.vec), s_kind s ≠ 1) SampleMore.channels ∧
  s_kind Sample.s_ref = 1 ∧
  Forall (λ s : Sensor (vec3:=Sample.vec), s_kind s ∉ [0; 1]) [Sample.s_odd] ∧
  NoDup (s_number <$> filter (λ s, s_kind s = 0) SampleMore.channels) ∧
  Sample.read_egi (SampleMore.channels ++ Sample.s_ref :: [Sample.s_odd])
    1 true
  = (["Unknown sensor type 99 detected. Skipping sensor...Proceed with caution!"],
     Ok SampleMore.layout) ∧
  ∃ m, dig_ch_pos SampleMore.layout = Some m ∧
    size m = 3%nat ∧
    m !! "EEG 003" = Some (7, 8, 9) ∧
    ∀ s, s ∈ SampleMore.channels → s_kind s = 0 →
         m !! ("EEG " +:+ Py.format_03d (s_number s))
         = Some (Sample.mul (s_coordinates s) 1).
Proof.
  assert (Forall (λ s : Sensor (vec3:=Sample.vec), s_kind s ≠ 1)
            SampleMore.channels) as Hpre
    by (repeat constructor; discriminate).
  assert (Forall (λ s : Sensor (vec3:=Sample.vec), s_kind s ∉ [0; 1])
            [Sample.s_odd]) as Hpost.
  { repeat constructor. apply (bool_decide_unpack _). vm_compute. exact I. }
  assert (NoDup (s_number <$> filter (λ s, s_kind s = 0) SampleMore.channels))
    as Hnd by (apply (bool_decide_unpack _); vm_compute; exact I).
  assert (∀ s, s ∈ SampleMore.channels → s_kind s = 0 →
               s_number s
               ≠ Z.of_nat (length (filter (λ s, s_kind s = 0)
                                     SampleMore.channels)) + 1) as Hfree.
  { intros s Hs Hk. unfold SampleMore.channels in Hs.
    repeat (apply elem_of_cons in Hs as [->|Hs]); try discriminate Hk;
      [discriminate|discriminate|by apply elem_of_nil in Hs]. }
  assert (Sample.read_egi
            (SampleMore.channels ++ Sample.s_ref :: [Sample.s_odd]) 1 true
          = (["Unknown sensor type 99 detected. Skipping sensor...Proceed with caution!"],
             Ok SampleMore.layout)) as Hread
    by (vm_compute; reflexivity).
  split; [exact Hpre|]. split; [reflexivity|]. split; [exact Hpost|].
  split; [exact Hnd|]. split; [exact Hread|].
  exact (egi_reference_after_channels Sample.mul 1 true _ SampleMore.layout
           SampleMore.channels [Sample.s_odd] Sample.s_ref
           Hpre eq_refl Hpost Hnd Hfree Hread).
Defined.

(** The tag of a sensor layout file. *)
Lemma sensors_path_of_qualified_tag_witness :
  str_find "}" SampleMore.uri = None ∧
  namespace_of_tag (vec3:=Sample.vec) SampleMore.root_tag
  = Ok "{http://www.egi.com/coordinates_mff}" ∧
  sensors_path (vec3:=Sample.vec) SampleMore.root_tag
  = Ok "{http://www.egi.com/coordinates_mff}sensorLayout/{http://www.egi.com/coordinates_mff}sensors".
Proof.
  split; [vm_compute; reflexivity|].
  exact (sensors_path_of_qualified_tag (vec3:=Sample.vec) SampleMore.uri
           "coordinates" eq_refl).
Defined.

(** A tag without namespace, and a tag with the braces the wrong way
    round. *)
Lemma namespace_edge_cases_witness :
  str_find "{" "coordinates" = None ∧
  sensors_path (vec3:=Sample.vec) "coordinates"
  = Err (ValueError "substring not found") ∧
  str_find "{" "a}b{c" = Some 3%nat ∧ str_find "}" "a}b{c" = Some 1%nat ∧
  sensors_path (vec3:=Sample.vec) "a}b{c" = Ok "sensorLayout/sensors".
Proof.
  split; [reflexivity|]. split.
  - exact (proj1 (namespace_edge_cases (vec3:=Sample.vec) "coordinates")
             (or_introl eq_refl)).
  - do 2 (split; [reflexivity|]).
    apply (proj2 (namespace_edge_cases (vec3:=Sample.vec) "a}b{c") 3%nat 1%nat);
      [reflexivity|reflexivity|lia].
Defined.
